(** * Signal, sizing and memory engine of the crypto-trading agents

    A shallow embedding of
    - [backend/agents/market_analyzer.py] ([MarketAnalyzer]),
    - [backend/agents/hedge_fund.py] ([HedgeFundAgent]),
    - [backend/cognition/memory.py] ([MemorySystem]),
    followed by the properties of its specification.

    Conventions.
    - A Python [float] is an exact rational ([Q], compared with [==]);
      rounding is written out only in [RoundedSignals], for the bound
      on the confidence, which the exact sum of the weights sits on.
      Infinities and NaN appear only in the pandas computations, which
      produce them from finite prices instead of raising.
    - A [dict] read by key is a [gmap string _]; the values of the
      untyped dictionaries are [Py.pyval].
    - A raised exception is the [Raise] case of [Py.result];
      [try ... except Exception] is [Py.try_except]. *)

From Stdlib Require Import QArith Qabs Qminmax Lqa Lia.
From stdpp Require Import gmap strings list.

Local Open Scope string_scope.
Local Open Scope list_scope.
Local Open Scope Q_scope.

(** ** The fragment of the Python runtime the three files rely on *)

Module Py.

Inductive exn : Type :=
| TypeError | ValueError | KeyError | IndexError
| AttributeError | ZeroDivisionError.

Inductive result (A : Type) : Type :=
| Ok (a : A)
| Raise (e : exn).
Arguments Ok {A} a.
Arguments Raise {A} e.

#[export] Instance result_ret : MRet result := @Ok.
#[export] Instance result_bind : MBind result := fun A B f m =>
  match m with
  | Ok a => f a
  | Raise e => Raise e
  end.

(** [try: body except Exception: handler] for a body that yields a value. *)
Definition try_except {A : Type} (body : result A) (handler : exn -> A) : A :=
  match body with
  | Ok a => a
  | Raise e => handler e
  end.

(** Scalar values found in the dictionaries: numbers, text and [None]. *)
Inductive pyval : Type :=
| PyNum (q : Q)
| PyStr (s : string)
| PyNone.

(** Conversions between text and numbers, left to the interpreter:
    [float_of_str s] is [float(s)] ([None] when it raises [ValueError])
    and [repr_float q] is the text of a number in an f-string. *)
Class Runtime : Type := {
  float_of_str : string -> option Q;
  repr_float : Q -> string
}.

(** [d.get(k, dflt)] *)
Definition dict_get (d : gmap string pyval) (k : string) (dflt : pyval) : pyval :=
  default dflt (d !! k).

(** [d[k]] *)
Definition getitem (d : gmap string pyval) (k : string) : result pyval :=
  match d !! k with
  | Some v => Ok v
  | None => Raise KeyError
  end.

(** A value used as an operand of [<], [>], [/] against a number:
    text and [None] raise [TypeError]. *)
Definition operand (v : pyval) : result Q :=
  match v with
  | PyNum q => Ok q
  | PyStr _ | PyNone => Raise TypeError
  end.

(** [float(v)] *)
Definition float `{Runtime} (v : pyval) : result Q :=
  match v with
  | PyNum q => Ok q
  | PyStr s =>
      match float_of_str s with
      | Some q => Ok q
      | None => Raise ValueError
      end
  | PyNone => Raise TypeError
  end.

(** [f"{v}"] *)
Definition format `{Runtime} (v : pyval) : string :=
  match v with
  | PyNum q => repr_float (Qred q)
  | PyStr s => s
  | PyNone => "None"
  end.

(** [isinstance(v, (int, float))] *)
Definition is_number (v : pyval) : bool :=
  match v with
  | PyNum _ => true
  | PyStr _ | PyNone => false
  end.

(** [x < y] on numbers. *)
Definition Qltb (x y : Q) : bool := negb (Qle_bool y x).

(** [min(a, b)]: the first argument unless the second is smaller. *)
Definition min (a b : Q) : Q := if Qltb b a then b else a.

(** [max(a, b)]: the first argument unless the second is larger. *)
Definition max (a b : Q) : Q := if Qltb a b then b else a.

(** [sum(l)] *)
Definition sum (l : list Q) : Q := foldl Qplus 0 l.

(** [len(l)] as a number. *)
Definition len {A : Type} (l : list A) : Q := inject_Z (Z.of_nat (length l)).

(** [deque(maxlen=n).append(x)]: a full buffer drops from the left. *)
Definition deque_append {A : Type} (maxlen : nat) (x : A) (d : list A) : list A :=
  let d' := d ++ [x] in
  drop (length d' - maxlen)%nat d'.

(** [deque(maxlen=n).extend(xs)] appends one element at a time. *)
Definition deque_extend {A : Type} (maxlen : nat) (xs d : list A) : list A :=
  foldl (fun acc x => deque_append maxlen x acc) d xs.

End Py.

Import Py.

(** ** pandas Series of floats, as far as [calculate_rsi] uses them

    An element is a finite number, an infinity or NaN.  The sign of a
    zero is not tracked: in [calculate_rsi] a zero divisor only meets a
    positive or a zero dividend, and both signs of the resulting
    infinity lead to the same RSI. *)

Module Pandas.

Inductive float64 : Type :=
| Finite (q : Q)
| PosInf
| NegInf
| NaN.

Definition fneg (x : float64) : float64 :=
  match x with
  | Finite q => Finite (- q)
  | PosInf => NegInf
  | NegInf => PosInf
  | NaN => NaN
  end.

Definition fadd (x y : float64) : float64 :=
  match x, y with
  | NaN, _ | _, NaN => NaN
  | Finite a, Finite b => Finite (a + b)
  | PosInf, NegInf | NegInf, PosInf => NaN
  | PosInf, _ | _, PosInf => PosInf
  | NegInf, _ | _, NegInf => NegInf
  end.

Definition fsub (x y : float64) : float64 := fadd x (fneg y).

(** Division does not raise on a Series: a zero divisor gives an
    infinity, or NaN for 0 / 0. *)
Definition fdiv (x y : float64) : float64 :=
  match x, y with
  | NaN, _ | _, NaN => NaN
  | Finite a, Finite b =>
      if Qeq_bool b 0 then
        if Qltb 0 a then PosInf
        else if Qltb a 0 then NegInf
        else NaN
      else Finite (a / b)
  | Finite _, (PosInf | NegInf) => Finite 0
  | (PosInf | NegInf), (PosInf | NegInf) => NaN
  | PosInf, Finite b => if Qltb b 0 then NegInf else PosInf
  | NegInf, Finite b => if Qltb b 0 then PosInf else NegInf
  end.

(** [x > 0] and [x < 0]; a comparison with NaN is false. *)
Definition gt0 (x : float64) : bool :=
  match x with
  | Finite q => Qltb 0 q
  | PosInf => true
  | NegInf | NaN => false
  end.

Definition lt0 (x : float64) : bool :=
  match x with
  | Finite q => Qltb q 0
  | NegInf => true
  | PosInf | NaN => false
  end.

(** [s.diff()]: NaN first, then each element minus the one before. *)
Definition diff (s : list Q) : list float64 :=
  match s with
  | [] => []
  | _ :: rest => NaN :: zip_with (fun prev cur => Finite (cur - prev)) s rest
  end.

(** [s.where(cond, other)]: keep where [cond] holds, else [other]. *)
Definition where_ (cond : float64 -> bool) (other : float64)
    (s : list float64) : list float64 :=
  (fun x => if cond x then x else other) <$> s.

Definition finite_value (x : float64) : option Q :=
  match x with
  | Finite q => Some q
  | PosInf | NegInf | NaN => None
  end.

(** The mean of one full window; NaN when an element is missing (and,
    which finite prices never reach, when one is infinite). *)
Definition window_mean (w : list float64) : float64 :=
  match mapM finite_value w with
  | Some (q :: qs) => Finite (sum (q :: qs) / len (q :: qs))
  | Some [] | None => NaN
  end.

(** [s.rolling(window=window).mean()]: NaN until [window] elements are
    there, then the mean of the last [window] of them. *)
Definition rolling_mean (window : nat) (s : list float64) : list float64 :=
  imap (fun i _ =>
          if (S i <? window)%nat then NaN
          else window_mean (take window (drop (S i - window) s)))
       s.

(** [s.iloc[-1]] *)
Definition iloc_last (s : list float64) : result float64 :=
  match last s with
  | Some x => Ok x
  | None => Raise IndexError
  end.

End Pandas.

(** ** [MarketAnalyzer] *)

Module MarketAnalyzer.

Inductive Action : Type := BUY | SELL | HOLD.

(** The dictionary returned by [generate_trading_signals]; its five
    keys are fixed. *)
Record TradingSignal : Type := {
  action : Action;
  confidence : Q;
  signal_strength : Q;
  risk_score : Q;
  liquidity_score : Q
}.

Definition generate_trading_signals
    (technical risk liquidity : gmap string pyval) : TradingSignal :=
  try_except
    (let signal_strength := 0.0 in
     (* Technical factors *)
     rsi ← operand (dict_get technical "rsi" (PyNum 50));
     let signal_strength :=
       if Qltb rsi 30 then signal_strength + 0.4
       else if Qltb 70 rsi then signal_strength - 0.4
       else signal_strength in
     macd ← operand (dict_get technical "macd" (PyNum 0));
     let signal_strength :=
       if Qltb 0 macd then signal_strength + 0.2
       else signal_strength - 0.2 in
     (* Risk factors *)
     var ← operand (dict_get risk "value_at_risk" (PyNum 0));
     let risk_score := 0.3 * (1 - min 1 (var / 0.1)) in
     let signal_strength := signal_strength + risk_score in
     (* Liquidity factors *)
     depth ← operand (dict_get liquidity "depth_2_percent" (PyNum 0));
     let liquidity_score := 0.3 * min 1 (depth / 100000) in
     let signal_strength := signal_strength + liquidity_score in
     (* Generate signal *)
     let action :=
       if Qltb 0.3 signal_strength then BUY
       else if Qltb signal_strength (-0.3) then SELL
       else HOLD in
     mret {| action := action;
             confidence := Qabs signal_strength;
             signal_strength := signal_strength;
             risk_score := risk_score;
             liquidity_score := liquidity_score |})
    (fun _ =>
       {| action := HOLD;
          confidence := 0;
          signal_strength := 0;
          risk_score := 0;
          liquidity_score := 0 |}).

(** [calculate_rsi]; a negative [period] makes [rolling] raise. *)
Definition calculate_rsi (prices : list Q) (period : Z) : Pandas.float64 :=
  try_except
    (let delta := Pandas.diff prices in
     window ← (if (period <? 0)%Z then Raise ValueError
               else Ok (Z.to_nat period));
     let gain :=
       Pandas.rolling_mean window
         (Pandas.where_ Pandas.gt0 (Pandas.Finite 0) delta) in
     let loss :=
       Pandas.rolling_mean window
         (Pandas.fneg <$> Pandas.where_ Pandas.lt0 (Pandas.Finite 0) delta) in
     let rs := zip_with Pandas.fdiv gain loss in
     let rsi :=
       (fun x => Pandas.fsub (Pandas.Finite 100)
                   (Pandas.fdiv (Pandas.Finite 100)
                      (Pandas.fadd (Pandas.Finite 1) x))) <$> rs in
     Pandas.iloc_last rsi)
    (fun _ => Pandas.Finite 50.0).

(** The default of [period]. *)
Definition default_period : Z := 14.

End MarketAnalyzer.

(** ** [HedgeFundAgent] *)

Module HedgeFundAgent.

(** [self.portfolio]: a dictionary with the three keys set in [__init__]. *)
Record Portfolio : Type := {
  cash : Q;
  positions : gmap string Q;
  total_value : Q
}.

(** [__init__]: all of the initial capital is cash. *)
Definition init_portfolio (initial_capital : Q) : Portfolio :=
  {| cash := initial_capital;
     positions := ∅;
     total_value := initial_capital |}.

(** [calculate_trade_size]; the [token] argument is not used by the body.
    A [liquidity] entry that is not a number makes [liquidity > 0] raise. *)
Definition calculate_trade_size
    (portfolio : Portfolio) (token : string) (confidence : Q)
    (market_data : gmap string pyval) : result Q :=
  (* Base position size (% of portfolio) *)
  let max_position := total_value portfolio * 0.2 in
  (* Scale by confidence *)
  let position_size := max_position * confidence in
  (* Scale by liquidity *)
  liquidity ← operand (dict_get market_data "liquidity" (PyNum 0));
  let position_size :=
    if Qltb 0 liquidity then min position_size (liquidity * 0.1)
    else position_size in
  (* Ensure we have enough cash for buys *)
  let position_size :=
    if Qltb (cash portfolio) position_size then cash portfolio
    else position_size in
  mret position_size.

(** A trade as [generate_trades] builds it; [token] comes from
    [trading_pairs : List[str]] and [amount] from [calculate_trade_size]. *)
Record Trade : Type := {
  token : string;
  action : string;
  amount : Q;
  confidence : Q;
  reasoning : string
}.

(** What [jupiter.execute_trade] reports, as far as the agent reads it. *)
Record ExecutionResult : Type := {
  success : bool;
  executed_price : Q
}.

(** The object an [async def] returns when it is called: the body has
    not run, and runs only when the object is awaited. *)
Inductive coroutine (A : Type) : Type :=
| Coroutine (body : unit -> result A).
Arguments Coroutine {A} body.

(** [await c] *)
Definition await {A : Type} (c : coroutine A) : result A :=
  match c with
  | Coroutine body => body tt
  end.

(** [float(c)] on a coroutine object: it has no [__float__], so the call
    raises [TypeError] whatever the body would compute. *)
Definition float_of_coroutine {A : Type} (c : coroutine A) : result Q :=
  Raise TypeError.

Section Prices.

(** [await self.jupiter.get_price(token)]: the price service, which may
    raise. *)
Variable jupiter_get_price : string -> result Q.

(** [async def get_current_price]: the price, or 0.0 when the service
    raises or answers a falsy price. *)
Definition get_current_price (token : string) : coroutine Q :=
  Coroutine (fun _ =>
    mret (try_except
            (price ← jupiter_get_price token;
             mret (if Qeq_bool price 0 then 0.0 else price))
            (fun _ => 0.0))).

(** One turn of the loop of [calculate_total_value]: the coroutine is
    passed to [float] without being awaited. *)
Definition add_position_value (token : string) (amount total : Q) : Q :=
  try_except
    (price ← float_of_coroutine (get_current_price token);
     mret (total + amount * price))
    (fun _ => total).

Definition calculate_total_value (portfolio : Portfolio) : Portfolio :=
  let total := cash portfolio in
  let total := map_fold add_position_value total (positions portfolio) in
  {| cash := cash portfolio;
     positions := positions portfolio;
     total_value := total |}.

(** [update_portfolio]: every action other than ['buy'] takes the
    selling branch. *)
Definition update_portfolio
    (portfolio : Portfolio) (trade : Trade) (result : ExecutionResult)
    : Portfolio :=
  let token := token trade in
  let amount := amount trade in
  let price := executed_price result in
  let portfolio :=
    if String.eqb (action trade) "buy" then
      {| cash := cash portfolio - amount * price;
         positions :=
           <[token := default 0 (positions portfolio !! token) + amount]>
             (positions portfolio);
         total_value := total_value portfolio |}
    else
      {| cash := cash portfolio + amount * price;
         positions :=
           <[token := default 0 (positions portfolio !! token) - amount]>
             (positions portfolio);
         total_value := total_value portfolio |} in
  (* Update total value *)
  calculate_total_value portfolio.

(** The total the specification describes: cash plus every held
    quantity at its awaited current price. *)
Definition revalued_total (portfolio : Portfolio) : Q :=
  map_fold
    (fun token amount total =>
       try_except
         (price ← await (get_current_price token);
          mret (total + amount * price))
         (fun _ => total))
    (cash portfolio) (positions portfolio).

End Prices.

End HedgeFundAgent.

(** ** [MemorySystem] *)

Module Memory.

Record MemoryEntry : Type := {
  timestamp : string;
  type : string;
  data : gmap string pyval;
  importance : Q;
  metadata : option (gmap string pyval)
}.

(** [self.metrics]; [total_trades] starts at 0 and is only incremented. *)
Record Metrics : Type := {
  trades : list (gmap string pyval);
  win_rate : Q;
  avg_profit : Q;
  total_trades : nat
}.

(** The fields of a [MemorySystem].  [max_size] is the [maxlen] of a
    deque, hence not negative; the two deques are lists, oldest first. *)
Record MemorySystem : Type := {
  max_size : nat;
  importance_threshold : Q;
  consolidation_interval : Z;
  short_term : list MemoryEntry;
  long_term : list MemoryEntry;
  metrics : Metrics
}.

(** [maxlen] of [short_term], a literal in [__init__]. *)
Definition short_capacity : nat := 100.

Definition __init__
    (max_size : nat) (importance_threshold : Q) (consolidation_interval : Z)
    : MemorySystem :=
  {| max_size := max_size;
     importance_threshold := importance_threshold;
     consolidation_interval := consolidation_interval;
     short_term := [];
     long_term := [];
     metrics := {| trades := []; win_rate := 0.0; avg_profit := 0.0;
                   total_trades := 0 |} |}.

(** [MemorySystem()] *)
Definition default_system : MemorySystem := __init__ 1000 0.5 100.

Definition set_short_term (sys : MemorySystem) (l : list MemoryEntry)
    : MemorySystem :=
  {| max_size := max_size sys;
     importance_threshold := importance_threshold sys;
     consolidation_interval := consolidation_interval sys;
     short_term := l;
     long_term := long_term sys;
     metrics := metrics sys |}.

Definition set_long_term (sys : MemorySystem) (l : list MemoryEntry)
    : MemorySystem :=
  {| max_size := max_size sys;
     importance_threshold := importance_threshold sys;
     consolidation_interval := consolidation_interval sys;
     short_term := short_term sys;
     long_term := l;
     metrics := metrics sys |}.

Definition set_metrics (sys : MemorySystem) (m : Metrics) : MemorySystem :=
  {| max_size := max_size sys;
     importance_threshold := importance_threshold sys;
     consolidation_interval := consolidation_interval sys;
     short_term := short_term sys;
     long_term := long_term sys;
     metrics := m |}.

Section WithRuntime.

Context `{Runtime}.

Definition _calculate_importance
    (entry_type : string) (data : gmap string pyval) : result Q :=
  let importance := 0.5 in
  importance ←
    (if String.eqb entry_type "trade" then
       size ← float (dict_get data "size" (PyNum 0));
       let trade_size := Qabs size in
       profit ← float (dict_get data "profit" (PyNum 0));
       let importance := importance + min 0.3 (trade_size / 10000) in
       let importance := importance + min 0.2 (Qabs profit / 1000) in
       mret importance
     else if String.eqb entry_type "error" then
       mret (importance + 0.3)
     else if String.eqb entry_type "analysis" then
       confidence ← float (dict_get data "confidence" (PyNum 0));
       risk_score ← float (dict_get data "risk_score" (PyNum 0));
       let importance := importance + 0.2 * confidence in
       let importance := importance + 0.2 * risk_score in
       mret importance
     else mret importance);
  mret (min 1.0 importance).

(** [_update_metrics]: the metrics it leaves behind, and whether it
    returned or raised on the way. *)
Definition _update_metrics
    (m : Metrics) (trade_data : gmap string pyval) : Metrics * result unit :=
  let m := {| trades := trades m ++ [trade_data];
              win_rate := win_rate m;
              avg_profit := avg_profit m;
              total_trades := S (total_trades m) |} in
  let n := inject_Z (Z.of_nat (total_trades m)) in
  let new_win_rate :=
    match trade_data !! "profit" with
    | Some v =>
        profit ← float v;
        if Qltb 0 profit
        then mret ((win_rate m * (n - 1) + 1) / n)
        else mret (win_rate m * (n - 1) / n)
    | None => mret (win_rate m)
    end in
  match new_win_rate with
  | Raise e => (m, Raise e)
  | Ok w =>
      let m := {| trades := trades m;
                  win_rate := w;
                  avg_profit := avg_profit m;
                  total_trades := total_trades m |} in
      match mapM (fun t => float (dict_get t "profit" (PyNum 0))) (trades m) with
      | Raise e => (m, Raise e)
      | Ok profits =>
          ({| trades := trades m;
              win_rate := win_rate m;
              avg_profit :=
                match profits with
                | [] => 0
                | _ => sum profits / len profits
                end;
              total_trades := total_trades m |}, Ok tt)
      end
  end.

(** What [merged[key]] holds while [_merge_memory_data] runs: the
    numbers collected so far (the list is created empty and filled in
    the same turn of the loop, so it has a first element), or the value
    that was not a number and replaced whatever was there. *)
Inductive merged_value : Type :=
| Collected (first : Q) (rest : list Q)
| Replaced (v : pyval).

(** One turn of the inner loop.  Appending to a slot that holds text or
    [None] raises [AttributeError]. *)
Definition merge_item
    (key : string) (value : pyval) (merged : gmap string merged_value)
    : result (gmap string merged_value) :=
  match value with
  | PyNum q =>
      match merged !! key with
      | None => Ok (<[key := Collected q []]> merged)
      | Some (Collected first rest) =>
          Ok (<[key := Collected first (rest ++ [q])]> merged)
      | Some (Replaced _) => Raise AttributeError
      end
  | PyStr _ | PyNone => Ok (<[key := Replaced value]> merged)
  end.

(** The second loop: a list of numbers becomes its mean. *)
Definition average_collected (v : merged_value) : pyval :=
  match v with
  | Collected first rest =>
      PyNum (sum (first :: rest) / len (first :: rest))
  | Replaced v => v
  end.

Definition _merge_memory_data (memories : list MemoryEntry)
    : result (gmap string pyval) :=
  merged ←
    foldl (fun acc memory =>
             map_fold (fun key value acc =>
                         merged ← acc; merge_item key value merged)
                      acc (data memory))
          (Ok ∅) memories;
  mret (average_collected <$> merged).

(** The key under which [_consolidate_memories] files an entry. *)
Definition group_key (memory : MemoryEntry) : string :=
  type memory +:+ "_" +:+ format (dict_get (data memory) "token" (PyStr "")).

(** [groups], a dictionary in insertion order: file [memory] under
    [key], after the entries already there. *)
Fixpoint group_add
    (key : string) (memory : MemoryEntry)
    (groups : list (string * list MemoryEntry))
    : list (string * list MemoryEntry) :=
  match groups with
  | [] => [(key, [memory])]
  | (k, group) :: rest =>
      if String.eqb k key then (k, group ++ [memory]) :: rest
      else (k, group) :: group_add key memory rest
  end.

(** [max(...)] over a generator; it raises on an empty one. *)
Definition max_of (l : list Q) : result Q :=
  match l with
  | [] => Raise ValueError
  | x :: rest => Ok (foldl max x rest)
  end.

(** The loop over [groups.values()]: only a group of more than one
    entry appends to [consolidated].  [now k] is the clock at its
    [k]-th reading within the call. *)
Fixpoint consolidate_groups
    (now : nat -> string) (groups : list (list MemoryEntry))
    (consolidated : list MemoryEntry) : result (list MemoryEntry) :=
  match groups with
  | [] => Ok consolidated
  | group :: rest =>
      if (1 <? length group)%nat then
        consolidated_data ← _merge_memory_data group;
        importance ← max_of (Memory.importance <$> group);
        first ← match group with
                | m :: _ => Ok m
                | [] => Raise IndexError
                end;
        consolidate_groups now rest
          (consolidated ++
           [{| timestamp := now (length consolidated);
               type := type first;
               data := consolidated_data;
               importance := importance;
               metadata := None |}])
      else consolidate_groups now rest consolidated
  end.

Definition _consolidate_memories
    (now : nat -> string) (sys : MemorySystem) : MemorySystem :=
  try_except
    (let groups :=
       foldl (fun groups memory => group_add (group_key memory) memory groups)
             [] (short_term sys) in
     consolidated ← consolidate_groups now (snd <$> groups) [];
     mret (set_short_term sys (deque_extend short_capacity consolidated [])))
    (fun _ => sys).

(** [add]; [now 0] stamps the entry and consolidation reads the clock
    from [now 1] on. *)
Definition add
    (now : nat -> string) (entry_type : string) (data : gmap string pyval)
    (metadata : option (gmap string pyval)) (sys : MemorySystem)
    : MemorySystem :=
  match _calculate_importance entry_type data with
  | Raise _ => sys
  | Ok importance =>
      let entry := {| timestamp := now 0%nat;
                      type := entry_type;
                      data := data;
                      importance := importance;
                      metadata := metadata |} in
      let sys :=
        set_short_term sys (deque_append short_capacity entry (short_term sys)) in
      let sys :=
        if Qle_bool (importance_threshold sys) importance
        then set_long_term sys (deque_append (max_size sys) entry (long_term sys))
        else sys in
      let '(sys, outcome) :=
        if String.eqb entry_type "trade"
        then let '(m, outcome) := _update_metrics (metrics sys) data in
             (set_metrics sys m, outcome)
        else (sys, Ok tt) in
      match outcome with
      | Raise _ => sys
      | Ok _ =>
          if (consolidation_interval sys <=? Z.of_nat (length (short_term sys)))%Z
          then _consolidate_memories (fun k => now (S k)) sys
          else sys
      end
  end.

(** One call of [add], with the clock it reads. *)
Record AddCall : Type := {
  call_now : nat -> string;
  call_type : string;
  call_data : gmap string pyval;
  call_metadata : option (gmap string pyval)
}.

(** A sequence of [add] calls, first call first. *)
Definition add_all (calls : list AddCall) (sys : MemorySystem) : MemorySystem :=
  foldl (fun sys c => add (call_now c) (call_type c) (call_data c)
                          (call_metadata c) sys)
        sys calls.

End WithRuntime.

End Memory.

(** ** [MemorySystem]: the read side *)

Module MemoryQueries.

(** [l[start:]] for an integer [start]: a negative [start] counts from
    the end, and both ends are clipped to the list. *)
Definition slice_from {A : Type} (start : Z) (l : list A) : list A :=
  let n := Z.of_nat (length l) in
  let start :=
    if (start <? 0)%Z then Z.max 0 (start + n) else Z.min start n in
  drop (Z.to_nat start) l.

(** [get_recent_memories]: [list(self.short_term)[-limit:]]. *)
Definition get_recent_memories (sys : Memory.MemorySystem) (limit : Z)
    : list Memory.MemoryEntry :=
  slice_from (- limit) (Memory.short_term sys).

(** The default of [limit]. *)
Definition default_recent_limit : Z := 10.

(** [get_performance_metrics] *)
Definition get_performance_metrics (sys : Memory.MemorySystem) : Memory.Metrics :=
  Memory.metrics sys.

End MemoryQueries.

(** ** [MarketAnalyzer]: indicators beside the RSI *)

Module MarketIndicators.

Section WithRuntime.

Context `{Runtime}.

(** [calculate_liquidity_risk]; any exception answers 1.0. *)
Definition calculate_liquidity_risk (metrics : gmap string pyval) : Q :=
  try_except
    (volume ← float (dict_get metrics "volume" (PyNum 0));
     liquidity ← float (dict_get metrics "liquidity" (PyNum 0));
     if Qltb 0 volume then mret (min 1.0 (liquidity / volume))
     else mret 1.0)
    (fun _ => 1.0).

End WithRuntime.

End MarketIndicators.

(** ** [CryptoBacktesterSimplified] *)

Module Backtester.

(** [self.portfolio]: the cash and the balance of each trading pair. *)
Record Portfolio : Type := {
  cash : Q;
  tokens : gmap string Q
}.

Record TradeExecution : Type := {
  timestamp : string;
  token : string;
  action : string;
  quantity : Q;
  price : Q
}.

(** [__init__]: all capital in cash, a zero balance for every pair. *)
Definition init_portfolio (initial_capital : Q) (trading_pairs : list string)
    : Portfolio :=
  {| cash := initial_capital;
     tokens := list_to_map ((fun pair => (pair, 0)) <$> trading_pairs) |}.

Definition set_cash (p : Portfolio) (c : Q) : Portfolio :=
  {| cash := c; tokens := tokens p |}.

Definition set_balance (p : Portfolio) (token : string) (b : Q) : Portfolio :=
  {| cash := cash p; tokens := <[token := b]> (tokens p) |}.

(** [execute_trade]: the portfolio it leaves, and what it returns or
    raises.  [tokens[token]] raises [KeyError] for a token that is not a
    trading pair; in the buying branch the cash has been taken by then. *)
Definition execute_trade
    (now : string) (portfolio : Portfolio)
    (token action : string) (quantity current_price : Q)
    : Portfolio * result (option TradeExecution) :=
  if Qle_bool quantity 0 then (portfolio, Ok None)
  else
    let executed_price := current_price in
    let executed :=
      {| timestamp := now; token := token; action := action;
         quantity := quantity; price := executed_price |} in
    if String.eqb action "buy" then
      let total_cost := quantity * executed_price in
      if Qle_bool total_cost (cash portfolio) then
        let portfolio := set_cash portfolio (cash portfolio - total_cost) in
        match tokens portfolio !! token with
        | Some balance =>
            (set_balance portfolio token (balance + quantity),
             Ok (Some executed))
        | None => (portfolio, Raise KeyError)
        end
      else (portfolio, Ok None)
    else if String.eqb action "sell" then
      match tokens portfolio !! token with
      | Some balance =>
          if Qle_bool quantity balance then
            let revenue := quantity * executed_price in
            let portfolio := set_cash portfolio (cash portfolio + revenue) in
            (set_balance portfolio token (balance - quantity),
             Ok (Some executed))
          else (portfolio, Ok None)
      | None => (portfolio, Raise KeyError)
      end
    else (portfolio, Ok None).

End Backtester.

(** ** Dictionaries in insertion order *)

(** First value filed under a key of an association list. *)
Fixpoint alist_get {A : Type} (key : string) (l : list (string * A)) : option A :=
  match l with
  | [] => None
  | (k, v) :: rest => if String.eqb k key then Some v else alist_get key rest
  end.

(** [d[key] = value]: a key already there keeps its place. *)
Fixpoint alist_set {A : Type} (key : string) (value : A) (l : list (string * A))
    : list (string * A) :=
  match l with
  | [] => [(key, value)]
  | (k, v) :: rest =>
      if String.eqb k key then (k, value) :: rest
      else (k, v) :: alist_set key value rest
  end.

(** ** [BaseAgent] and its [MemoryState] *)

Module BaseAgent.

(** [self.size] and [self.memory], oldest entry first. *)
Record MemoryState (A : Type) : Type := {
  size : Z;
  memory : list A
}.
Arguments size {A} _.
Arguments memory {A} _.

(** [MemoryState(size)] *)
Definition new_memory {A : Type} (size : Z) : MemoryState A :=
  {| size := size; memory := [] |}.

(** [add]: the state it leaves, and whether it returned.  [pop(0)] on an
    empty list raises [IndexError] before anything is appended. *)
Definition add {A : Type} (entry : A) (st : MemoryState A)
    : MemoryState A * result unit :=
  if (size st <=? Z.of_nat (length (memory st)))%Z then
    match memory st with
    | [] => (st, Raise IndexError)
    | _ :: rest => ({| size := size st; memory := rest ++ [entry] |}, Ok tt)
    end
  else ({| size := size st; memory := memory st ++ [entry] |}, Ok tt).

(** [get_recent]: [self.memory[-n:]]. *)
Definition get_recent {A : Type} (n : Z) (st : MemoryState A) : list A :=
  MemoryQueries.slice_from (- n) (memory st).

(** The default of [n]. *)
Definition default_recent : Z := 5.

(** A value of the dictionary [think] returns: a scalar, or the response
    of the model handed back as it came. *)
Inductive thought_value (response : Type) : Type :=
| Scalar (v : pyval)
| RawResponse (r : response).
Arguments Scalar {response} v.
Arguments RawResponse {response} r.

(** [think].  [chat_completion] is the call of the model for this
    context, [content] is [response["choices"][0]["message"]["content"]]
    and [str] the text of an exception; [now] is the clock at the one
    reading the call makes. *)
Definition think {context response : Type}
    (chat_completion : context -> result response)
    (content : response -> result pyval)
    (str : exn -> string)
    (now : string) (ctx : context) : gmap string (thought_value response) :=
  try_except
    (response ← chat_completion ctx;
     match content response with
     | Ok thought =>
         mret {[ "thought" := Scalar thought;
                 "timestamp" := Scalar (PyStr now) ]}
     | Raise KeyError | Raise IndexError =>
         mret {[ "error" := Scalar (PyStr "Failed to parse LLM response");
                 "raw_response" := RawResponse response;
                 "timestamp" := Scalar (PyStr now) ]}
     | Raise e => Raise e
     end)
    (fun e =>
       {[ "error" := Scalar (PyStr (str e));
          "timestamp" := Scalar (PyStr now) ]}).

End BaseAgent.

(** ** [HedgeFundAgent]: analysing the market and proposing trades *)

Module TradeGeneration.

Definition DEFAULT_MARKET_DATA : gmap string pyval :=
  {[ "price" := PyNum 0.0;
     "volume" := PyNum 0.0;
     "liquidity" := PyNum 0.0;
     "holders" := PyNum 0;
     "transactions" := PyNum 0;
     "error" := PyStr "Using default data due to API error" ]}.

(** The truth value of a scalar: [None], zero and the empty text are
    false. *)
Definition truthy (v : pyval) : bool :=
  match v with
  | PyNum q => negb (Qeq_bool q 0)
  | PyStr s => negb (String.eqb s "")
  | PyNone => false
  end.

Section Agent.

(** What the model answers. *)
Variable response : Type.

(** A trade as the two generators build it. *)
Record Proposal : Type := {
  token : string;
  action : string;
  amount : Q;
  confidence : Q;
  reasoning : BaseAgent.thought_value response
}.

(** The dictionary [analyze_market] returns; [market_data] is in
    insertion order. *)
Record Analysis : Type := {
  market_data : list (string * gmap string pyval);
  analysis : BaseAgent.thought_value response;
  timestamp : string;
  trades : list Proposal
}.

(** The two contexts the agent hands to [think]. *)
Inductive Context : Type :=
| market_analysis
    (data : list (string * gmap string pyval))
    (portfolio : HedgeFundAgent.Portfolio) (timestamp : string)
| trade_decision
    (token : string) (data : gmap string pyval)
    (analysis : BaseAgent.thought_value response)
    (portfolio : HedgeFundAgent.Portfolio).

Context `{Runtime}.

(** One turn of the loop of [generate_trades_from_analysis].
    [data['price']] raises [KeyError] without the key, and a comparison
    of text or [None] with a number raises [TypeError]. *)
Definition propose_from_change
    (portfolio : HedgeFundAgent.Portfolio) (token : string)
    (data : gmap string pyval) (trades : list Proposal)
    : result (list Proposal) :=
  if truthy (dict_get data "error" PyNone) then mret trades
  else
    (* Default conservative position size (1% of portfolio) *)
    let position_size := HedgeFundAgent.total_value portfolio * 0.01 in
    price ← (v ← getitem data "price"; operand v);
    if Qltb 0 price then
      let price_24h_change := dict_get data "price_change_24h" (PyNum 0) in
      change ← operand price_24h_change;
      if Qltb 5 change then
        mret (trades ++
              [{| token := token;
                  action := "sell";
                  amount := position_size;
                  confidence := 0.6;
                  reasoning :=
                    BaseAgent.Scalar
                      (PyStr ("Price up " +:+ format price_24h_change
                              +:+ "% in 24h")) |}])
      else if Qltb change (-5) then
        mret (trades ++
              [{| token := token;
                  action := "buy";
                  amount := position_size;
                  confidence := 0.6;
                  reasoning :=
                    BaseAgent.Scalar
                      (PyStr ("Price down " +:+ format price_24h_change
                              +:+ "% in 24h")) |}])
      else mret trades
    else mret trades.

Definition generate_trades_from_analysis
    (portfolio : HedgeFundAgent.Portfolio) (analysed : Analysis)
    : result (list Proposal) :=
  foldl (fun acc '(token, data) =>
           trades ← acc; propose_from_change portfolio token data trades)
        (Ok []) (market_data analysed).

(** [await self.data_tools.get_token_metrics(token)] at the [i]-th turn
    of the loop: the attributes of the object it answers, or what it
    raises. *)
Variable get_token_metrics : nat -> string -> result (gmap string pyval).

(** The model at the [k]-th call of [think], the reading of its
    response, the text of an exception, and the clock at its [k]-th
    reading. *)
Variable chat_completion : nat -> Context -> result response.
Variable content : response -> result pyval.
Variable str : exn -> string.
Variable now : nat -> string.

(** [metrics.x if hasattr(metrics, 'x') else 0.0], for the five keys. *)
Definition metrics_entry (metrics : gmap string pyval) : gmap string pyval :=
  {[ "price" := dict_get metrics "price" (PyNum 0.0);
     "volume" := dict_get metrics "volume" (PyNum 0.0);
     "liquidity" := dict_get metrics "liquidity" (PyNum 0.0);
     "holders" := dict_get metrics "holders" (PyNum 0);
     "transactions" := dict_get metrics "transactions" (PyNum 0) ]}.

(** The first loop of [analyze_market]. *)
Definition collect_market_data (tokens : list string)
    : list (string * gmap string pyval) :=
  foldl (fun market_data '(i, token) =>
           alist_set token
             (try_except
                (metrics ← get_token_metrics i token;
                 mret (metrics_entry metrics))
                (fun _ => DEFAULT_MARKET_DATA))
             market_data)
        [] (imap pair tokens).

Definition analyze_market
    (portfolio : HedgeFundAgent.Portfolio) (tokens : list string) : Analysis :=
  let market_data := collect_market_data tokens in
  (* Generate thought about market conditions *)
  let thinking :=
    BaseAgent.think (chat_completion 0%nat) content str (now 1%nat)
      (market_analysis market_data portfolio (now 0%nat)) in
  let result :=
    {| market_data := market_data;
       analysis :=
         default (BaseAgent.Scalar (PyStr "")) (thinking !! "thought");
       timestamp := now 2%nat;
       trades := [] |} in
  (* Try to generate trades from analysis *)
  let trades :=
    try_except (generate_trades_from_analysis portfolio result)
               (fun _ => []) in
  {| market_data := market_data;
     analysis := analysis result;
     timestamp := timestamp result;
     trades := trades |}.

(** A value of a thought as the factor of a product with a number. *)
Definition thought_operand (v : BaseAgent.thought_value response) : result Q :=
  match v with
  | BaseAgent.Scalar v => operand v
  | BaseAgent.RawResponse _ => Raise TypeError
  end.

(** One turn of the loop of [generate_trades], the [k]-th. *)
Definition decide_trade
    (portfolio : HedgeFundAgent.Portfolio) (analysed : Analysis)
    (k : nat) (token : string) (trades : list Proposal)
    : result (list Proposal) :=
  let token_data := default ∅ (alist_get token (market_data analysed)) in
  match token_data !! "error" with
  | Some _ => mret trades
  | None =>
      (* Get trade decision *)
      let decision :=
        BaseAgent.think (chat_completion k) content str (now k)
          (trade_decision token token_data
             (analysis analysed) portfolio) in
      match decision !! "action" with
      | Some (BaseAgent.Scalar (PyStr a)) =>
          if String.eqb a "buy" || String.eqb a "sell" then
            confidence ←
              thought_operand
                (default (BaseAgent.Scalar (PyNum 0.5))
                         (decision !! "confidence"));
            amount ←
              HedgeFundAgent.calculate_trade_size portfolio token confidence
                token_data;
            mret (trades ++
                  [{| token := token;
                      action := a;
                      amount := amount;
                      confidence := confidence;
                      reasoning :=
                        default (BaseAgent.Scalar (PyStr ""))
                                (decision !! "reasoning") |}])
          else mret trades
      | _ => mret trades
      end
  end.

Definition generate_trades
    (portfolio : HedgeFundAgent.Portfolio) (trading_pairs : list string)
    (analysed : Analysis) : result (list Proposal) :=
  foldl (fun acc '(k, token) =>
           trades ← acc; decide_trade portfolio analysed k token trades)
        (Ok []) (imap pair trading_pairs).

End Agent.

Arguments token {response} _.
Arguments action {response} _.
Arguments amount {response} _.
Arguments confidence {response} _.
Arguments reasoning {response} _.
Arguments market_data {response} _.
Arguments analysis {response} _.
Arguments timestamp {response} _.
Arguments trades {response} _.
Arguments generate_trades_from_analysis {response H} portfolio analysed.
Arguments analyze_market {response H}
  get_token_metrics chat_completion content str now portfolio tokens.
Arguments generate_trades {response}
  chat_completion content str now portfolio trading_pairs analysed.

End TradeGeneration.

(** ** [BasicMarketScanner] *)

Module BasicMarketScanner.

(** [x == 0] on a float; NaN equals nothing. *)
Definition eq0 (x : Pandas.float64) : bool :=
  match x with
  | Pandas.Finite q => Qeq_bool q 0
  | Pandas.PosInf | Pandas.NegInf | Pandas.NaN => false
  end.

(** [_calculate_simple_rsi]; a negative [period] makes [rolling] raise,
    and an empty series makes [iloc[-1]] raise. *)
Definition _calculate_simple_rsi (prices : list Q) (period : Z)
    : Pandas.float64 :=
  try_except
    (let delta := Pandas.diff prices in
     let up_days := Pandas.where_ Pandas.gt0 (Pandas.Finite 0) delta in
     let down_days :=
       Pandas.fneg <$> Pandas.where_ Pandas.lt0 (Pandas.Finite 0) delta in
     window ← (if (period <? 0)%Z then Raise ValueError
               else Ok (Z.to_nat period));
     let avg_gain := Pandas.rolling_mean window up_days in
     let avg_loss := Pandas.rolling_mean window down_days in
     last_loss ← Pandas.iloc_last avg_loss;
     if eq0 last_loss then mret (Pandas.Finite 100.0)
     else
       let rs := zip_with Pandas.fdiv avg_gain avg_loss in
       let rsi :=
         (fun x => Pandas.fsub (Pandas.Finite 100)
                     (Pandas.fdiv (Pandas.Finite 100)
                        (Pandas.fadd (Pandas.Finite 1) x))) <$> rs in
       Pandas.iloc_last rsi)
    (fun _ => Pandas.Finite 50.0).

End BasicMarketScanner.

(** ** [MarketAnalyzer]: drawdown and MACD *)

Module MarketSeries.

(** [s.expanding(min_periods=1).max()]: the largest element so far. *)
Fixpoint expanding_max_from (best : Q) (s : list Q) : list Q :=
  match s with
  | [] => []
  | x :: rest =>
      let best := max best x in
      best :: expanding_max_from best rest
  end.

Definition expanding_max (s : list Q) : list Q :=
  match s with
  | [] => []
  | x :: rest => x :: expanding_max_from x rest
  end.

(** [x < y] on floats; a comparison with NaN is false. *)
Definition flt (x y : Pandas.float64) : bool :=
  match x, y with
  | Pandas.Finite a, Pandas.Finite b => Qltb a b
  | Pandas.NegInf, (Pandas.Finite _ | Pandas.PosInf) => true
  | Pandas.Finite _, Pandas.PosInf => true
  | _, _ => false
  end.

(** [s.min()]: the smallest element that is not NaN, and NaN when there
    is none. *)
Definition series_min (s : list Pandas.float64) : Pandas.float64 :=
  foldl (fun best x =>
           match x, best with
           | Pandas.NaN, _ => best
           | _, Pandas.NaN => x
           | _, _ => if flt x best then x else best
           end)
        Pandas.NaN s.

(** [calculate_max_drawdown]: nothing in the body raises on a Series of
    numbers, a zero maximum included. *)
Definition calculate_max_drawdown (prices : list Q) : Pandas.float64 :=
  try_except
    (let rolling_max := expanding_max prices in
     let drawdown :=
       zip_with (fun price peak =>
                   Pandas.fdiv (Pandas.Finite (price - peak))
                     (Pandas.Finite peak))
                prices rolling_max in
     mret (series_min drawdown))
    (fun _ => Pandas.Finite 0.0).

(** [s.ewm(span=span, adjust=False).mean()] on a series without gaps:
    the first element as it is, then [(1 - alpha) * previous + alpha * x]
    with [alpha = 2 / (span + 1)].  A span below 1 raises. *)
Fixpoint ewm_from (alpha : Q) (previous : Q) (s : list Q) : list Q :=
  match s with
  | [] => []
  | x :: rest =>
      let y := (1 - alpha) * previous + alpha * x in
      y :: ewm_from alpha y rest
  end.

Definition ewm_mean (span : Z) (s : list Q) : result (list Q) :=
  if (span <? 1)%Z then Raise ValueError
  else
    let alpha := 2 / (inject_Z span + 1) in
    Ok (match s with
        | [] => []
        | x :: rest => x :: ewm_from alpha x rest
        end).

(** [s.iloc[-1]] *)
Definition iloc_last {A : Type} (s : list A) : result A :=
  match last s with
  | Some x => Ok x
  | None => Raise IndexError
  end.

(** The dictionary [calculate_macd] returns. *)
Record Macd : Type := {
  macd : Q;
  signal : Q;
  histogram : Q
}.

Definition calculate_macd
    (prices : list Q) (fast_period slow_period signal_period : Z) : Macd :=
  try_except
    (fast_ema ← ewm_mean fast_period prices;
     slow_ema ← ewm_mean slow_period prices;
     let macd := zip_with Qminus fast_ema slow_ema in
     signal ← ewm_mean signal_period macd;
     let histogram := zip_with Qminus macd signal in
     last_macd ← iloc_last macd;
     last_signal ← iloc_last signal;
     last_histogram ← iloc_last histogram;
     mret {| macd := last_macd;
             signal := last_signal;
             histogram := last_histogram |})
    (fun _ => {| macd := 0; signal := 0; histogram := 0 |}).

(** The defaults of the three periods. *)
Definition default_fast_period : Z := 12.
Definition default_slow_period : Z := 26.
Definition default_signal_period : Z := 9.

End MarketSeries.

(** ** [MarketAnalyzer]: the signal engine with its roundings

    The body of [generate_trading_signals] once more, with the rounding
    to a float written out: every literal that is not an integer and the
    result of every [+], [-], [*] and [/] on floats goes through [rnd];
    comparisons, [min] and [abs] are exact.  The inputs are floats.
    With the identity for [rnd] this is
    [MarketAnalyzer.generate_trading_signals]. *)

Module RoundedSignals.

Section Rounding.

(** The float a number is rounded to. *)
Variable rnd : Q -> Q.

Definition generate_trading_signals
    (technical risk liquidity : gmap string pyval)
    : MarketAnalyzer.TradingSignal :=
  try_except
    (let signal_strength := 0.0 in
     (* Technical factors *)
     rsi ← operand (dict_get technical "rsi" (PyNum 50));
     let signal_strength :=
       if Qltb rsi 30 then rnd (signal_strength + rnd 0.4)
       else if Qltb 70 rsi then rnd (signal_strength - rnd 0.4)
       else signal_strength in
     macd ← operand (dict_get technical "macd" (PyNum 0));
     let signal_strength :=
       if Qltb 0 macd then rnd (signal_strength + rnd 0.2)
       else rnd (signal_strength - rnd 0.2) in
     (* Risk factors *)
     var ← operand (dict_get risk "value_at_risk" (PyNum 0));
     let risk_score :=
       rnd (rnd 0.3 * rnd (1 - min 1 (rnd (var / rnd 0.1)))) in
     let signal_strength := rnd (signal_strength + risk_score) in
     (* Liquidity factors *)
     depth ← operand (dict_get liquidity "depth_2_percent" (PyNum 0));
     let liquidity_score := rnd (rnd 0.3 * min 1 (rnd (depth / 100000))) in
     let signal_strength := rnd (signal_strength + liquidity_score) in
     (* Generate signal *)
     let action :=
       if Qltb (rnd 0.3) signal_strength then MarketAnalyzer.BUY
       else if Qltb signal_strength (- rnd 0.3) then MarketAnalyzer.SELL
       else MarketAnalyzer.HOLD in
     mret {| MarketAnalyzer.action := action;
             MarketAnalyzer.confidence := Qabs signal_strength;
             MarketAnalyzer.signal_strength := signal_strength;
             MarketAnalyzer.risk_score := risk_score;
             MarketAnalyzer.liquidity_score := liquidity_score |})
    (fun _ =>
       {| MarketAnalyzer.action := MarketAnalyzer.HOLD;
          MarketAnalyzer.confidence := 0;
          MarketAnalyzer.signal_strength := 0;
          MarketAnalyzer.risk_score := 0;
          MarketAnalyzer.liquidity_score := 0 |}).

End Rounding.

End RoundedSignals.

(** * Auxiliary notions and worked inputs

    The notions the statements below are phrased with, and the concrete
    inputs of the worked examples. *)

Import MarketAnalyzer.
Import Pandas.

(** Inputs on which every weight adds up: an oversold RSI, a positive
    MACD histogram, no value at risk and a deep book. *)
Definition bullish_technical : gmap string pyval :=
  {[ "rsi" := PyNum 25; "macd" := PyNum 1 ]}.

Definition calm_risk : gmap string pyval :=
  {[ "value_at_risk" := PyNum 0 ]}.

Definition deep_liquidity : gmap string pyval :=
  {[ "depth_2_percent" := PyNum 100000 ]}.

(** The book of the sizing examples: 1000 in cash and nothing held. *)
Definition thousand_in_cash : HedgeFundAgent.Portfolio :=
  HedgeFundAgent.init_portfolio 1000.

(** A confirmed buy of 2 SOL filled at 10, while the price service
    quotes 10 for every token. *)
Definition buy_two_sol : HedgeFundAgent.Trade :=
  {| HedgeFundAgent.token := "SOL";
     HedgeFundAgent.action := "buy";
     HedgeFundAgent.amount := 2;
     HedgeFundAgent.confidence := 0.6;
     HedgeFundAgent.reasoning := "" |}.

Definition filled_at_ten : HedgeFundAgent.ExecutionResult :=
  {| HedgeFundAgent.success := true;
     HedgeFundAgent.executed_price := 10 |}.

Definition quotes_ten (token : string) : result Q := Ok 10.

(** A runtime for the worked examples: none of them converts text to a
    number or formats a number, so what it answers is never looked at. *)
Definition text_free_runtime : Runtime :=
  {| float_of_str := fun _ => None; repr_float := fun _ => "" |}.

(** The number of trades after an update, as a number. *)
Definition trades_after (m : Memory.Metrics) : Q :=
  inject_Z (Z.of_nat (S (Memory.total_trades m))).

(** The entry [add] builds. *)
Definition entry_of
    (now : nat -> string) (entry_type : string) (data : gmap string pyval)
    (metadata : option (gmap string pyval)) (importance : Q)
    : Memory.MemoryEntry :=
  {| Memory.timestamp := now 0%nat;
     Memory.type := entry_type;
     Memory.data := data;
     Memory.importance := importance;
     Memory.metadata := metadata |}.

(** A call whose entry stays below the threshold of [sys]. *)
Definition below_threshold `{Runtime} (sys : Memory.MemorySystem) (c : Memory.AddCall) : Prop :=
  exists importance,
    Memory._calculate_importance (Memory.call_type c) (Memory.call_data c)
      = Ok importance /\
    importance < Memory.importance_threshold sys.

(** The clock of the worked examples stands still. *)
Definition steady_clock (k : nat) : string := "2024-01-01T00:00:00".

(** ['observation'] entries score the base importance, 0.5. *)
Definition plain_observation : Memory.AddCall :=
  {| Memory.call_now := steady_clock;
     Memory.call_type := "observation";
     Memory.call_data := ∅;
     Memory.call_metadata := None |}.

(** An analysis with a negative confidence scores 0.3. *)
Definition doubtful_analysis : Memory.AddCall :=
  {| Memory.call_now := steady_clock;
     Memory.call_type := "analysis";
     Memory.call_data := {[ "token" := PyStr "SOL"; "confidence" := PyNum (-1) ]};
     Memory.call_metadata := None |}.

(** A trade large and profitable enough to score 1. *)
Definition big_win : gmap string pyval :=
  {[ "token" := PyStr "SOL"; "size" := PyNum 5000; "profit" := PyNum 500 ]}.

(** A buffer with one analysis of SOL and two trades of BTC. *)
Definition lone_analysis : Memory.MemoryEntry :=
  {| Memory.timestamp := "2024-01-01T00:00:00";
     Memory.type := "analysis";
     Memory.data := {[ "token" := PyStr "SOL"; "confidence" := PyNum 0.9 ]};
     Memory.importance := 0.68;
     Memory.metadata := None |}.

Definition first_trade : Memory.MemoryEntry :=
  {| Memory.timestamp := "2024-01-01T00:01:00";
     Memory.type := "trade";
     Memory.data := {[ "token" := PyStr "BTC"; "size" := PyNum 100 ]};
     Memory.importance := 0.51;
     Memory.metadata := None |}.

Definition second_trade : Memory.MemoryEntry :=
  {| Memory.timestamp := "2024-01-01T00:02:00";
     Memory.type := "trade";
     Memory.data := {[ "token" := PyStr "BTC"; "size" := PyNum 300 ]};
     Memory.importance := 0.53;
     Memory.metadata := None |}.

Definition mixed_buffer : Memory.MemorySystem :=
  Memory.set_short_term Memory.default_system
    [lone_analysis; first_trade; second_trade].

(** No price change is infinite. *)
Definition not_infinite (x : float64) : Prop :=
  match x with
  | Finite _ | NaN => True
  | PosInf | NegInf => False
  end.

(** The gain and the loss a price change stands for; the missing first
    change counts as none. *)
Definition gain_of (d : float64) : Q :=
  match d with
  | Finite q => if Qltb 0 q then q else 0
  | PosInf | NegInf | NaN => 0
  end.

Definition loss_of (d : float64) : Q :=
  match d with
  | Finite q => if Qltb q 0 then - q else - 0
  | PosInf | NegInf | NaN => - 0
  end.

(** The RSI of an average gain and an average loss. *)
Definition rsi_of (gain loss : float64) : float64 :=
  fsub (Finite 100) (fdiv (Finite 100) (fadd (Finite 1) (fdiv gain loss))).

(** A value within [lo, hi]; NaN and the infinities are in no interval. *)
Definition within (lo hi : Q) (x : float64) : Prop :=
  match x with
  | Finite q => lo <= q <= hi
  | PosInf | NegInf | NaN => False
  end.

(** A price change that is a number other than zero. *)
Definition moved (d : float64) : Prop :=
  exists q, d = Finite q /\ ~ q == 0.

(** The price changes [rolling] averages for the last element. *)
Definition last_changes (prices : list Q) (period : Z) : list float64 :=
  drop (length prices - Z.to_nat period) (diff prices).

(** Fourteen prices, each one above the one before. *)
Definition rising_prices : list Q :=
  (fun n => inject_Z (Z.of_nat n)) <$> seq 1 14.

(** Inputs whose strength is exactly 0.3 (0.2 + 0 + 0.1) and exactly
    -0.3 (-0.4 - 0.2 + 0.3 + 0). *)
Definition rising_macd : gmap string pyval := {[ "macd" := PyNum 1 ]}.

Definition risk_at_cap : gmap string pyval :=
  {[ "value_at_risk" := PyNum 0.1 ]}.

Definition third_of_depth : gmap string pyval :=
  {[ "depth_2_percent" := PyNum (100000 # 3) ]}.

Definition overbought : gmap string pyval :=
  {[ "rsi" := PyNum 75; "macd" := PyNum (-1) ]}.

(** A winning trade. *)
Definition small_win : gmap string pyval := {[ "profit" := PyNum 3 ]}.

(** The entries a sequence of [add] calls sends to the long-term
    buffer: those whose importance is computed and reaches the
    threshold, in the order of the calls. *)
Definition important_entries `{Runtime}
    (importance_threshold : Q) (calls : list Memory.AddCall)
    : list Memory.MemoryEntry :=
  omap (fun c =>
          match Memory._calculate_importance (Memory.call_type c)
                  (Memory.call_data c) with
          | Ok importance =>
              if Qle_bool importance_threshold importance
              then Some (entry_of (Memory.call_now c) (Memory.call_type c)
                           (Memory.call_data c) (Memory.call_metadata c)
                           importance)
              else None
          | Raise _ => None
          end)
       calls.

(** Whether a call reaches [_update_metrics]: a trade whose importance
    is computed. *)
Definition reaches_update_metrics `{Runtime} (c : Memory.AddCall) : bool :=
  String.eqb (Memory.call_type c) "trade" &&
  match Memory._calculate_importance (Memory.call_type c)
          (Memory.call_data c) with
  | Ok _ => true
  | Raise _ => false
  end.

Definition recorded_trades `{Runtime} (calls : list Memory.AddCall)
    : list Memory.AddCall :=
  List.filter reaches_update_metrics calls.

(** The groups [_consolidate_memories] builds from a buffer. *)
Definition groups_of `{Runtime} (buffer : list Memory.MemoryEntry)
    : list (string * list Memory.MemoryEntry) :=
  foldl (fun groups memory =>
           Memory.group_add (Memory.group_key memory) memory groups)
        [] buffer.

(** The group filed under [key]: the entries of the buffer with that
    key, in buffer order. *)
Definition members_of `{Runtime}
    (key : string) (buffer : list Memory.MemoryEntry)
    : list Memory.MemoryEntry :=
  filter (fun m => Memory.group_key m = key) buffer.

(** [e] is what [_consolidate_memories] makes of [group]: it carries the
    type of the first member, the merged data, the largest importance
    and no metadata. *)
Definition merged_from
    (group : list Memory.MemoryEntry) (e : Memory.MemoryEntry) : Prop :=
  (1 < length group)%nat /\
  (exists first rest,
     group = first :: rest /\ Memory.type e = Memory.type first) /\
  Memory._merge_memory_data group = Ok (Memory.data e) /\
  (exists m, m ∈ group /\ Memory.importance e = Memory.importance m) /\
  Forall (fun m => Memory.importance m <= Memory.importance e) group /\
  Memory.metadata e = None.

(** What one entry does to the slot of a key in [_merge_memory_data]:
    nothing when it lacks the key, one more number in the list, or a
    replacement by a value that is not a number. *)
Definition slot_step
    (slot : option Memory.merged_value) (value : option pyval)
    : result (option Memory.merged_value) :=
  match value with
  | None => Ok slot
  | Some (PyNum q) =>
      match slot with
      | None => Ok (Some (Memory.Collected q []))
      | Some (Memory.Collected first rest) =>
          Ok (Some (Memory.Collected first (rest ++ [q])))
      | Some (Memory.Replaced _) => Raise AttributeError
      end
  | Some v => Ok (Some (Memory.Replaced v))
  end.

(** The slot of [key] after the entries of a group, one after the other. *)
Definition slot_of (key : string) (memories : list Memory.MemoryEntry)
    (slot : option Memory.merged_value) : result (option Memory.merged_value) :=
  foldl (fun acc memory =>
           slot ← acc; slot_step slot (Memory.data memory !! key))
        (Ok slot) memories.

(** A backtest book: 100 in cash, 5 SOL, no other pair. *)
Definition sol_book : Backtester.Portfolio :=
  {| Backtester.cash := 100; Backtester.tokens := {[ "SOL" := 5 ]} |}.

(** Token metrics with a volume and a liquidity. *)
Definition thin_market : gmap string pyval :=
  {[ "volume" := PyNum 200; "liquidity" := PyNum 50 ]}.

(** No overdraft and no short balance. *)
Definition solvent (p : Backtester.Portfolio) : Prop :=
  0 <= Backtester.cash p /\
  forall token balance,
    Backtester.tokens p !! token = Some balance -> 0 <= balance.

(** What [generate_trades_from_analysis] may propose from the market
    data: 1% of the total value at confidence 0.6, for a token whose
    entry has no truthy error and a positive price; a sale when the
    24-hour change is above 5, a purchase when it is below -5. *)
Definition contrarian {response : Type}
    (portfolio : HedgeFundAgent.Portfolio)
    (market_data : list (string * gmap string pyval))
    (t : TradeGeneration.Proposal response) : Prop :=
  TradeGeneration.amount t = HedgeFundAgent.total_value portfolio * 0.01 /\
  TradeGeneration.confidence t = 0.6 /\
  exists data price change,
    (TradeGeneration.token t, data) ∈ market_data /\
    TradeGeneration.truthy (dict_get data "error" PyNone) = false /\
    data !! "price" = Some (PyNum price) /\ 0 < price /\
    dict_get data "price_change_24h" (PyNum 0) = PyNum change /\
    ((TradeGeneration.action t = "sell" /\ 5 < change) \/
     (TradeGeneration.action t = "buy" /\ change < -5)).

(** SOL up 6% and JUP down 7% in a day, BONK flat. *)
Definition moving_market : TradeGeneration.Analysis unit :=
  {| TradeGeneration.market_data :=
       [("SOL", {[ "price" := PyNum 90; "price_change_24h" := PyNum 6 ]});
        ("BONK", {[ "price" := PyNum 1 ]});
        ("JUP", {[ "price" := PyNum 2; "price_change_24h" := PyNum (-7) ]})];
     TradeGeneration.analysis := BaseAgent.Scalar (PyStr "");
     TradeGeneration.timestamp := "2024-01-01T00:00:00";
     TradeGeneration.trades := [] |}.

(** A run of [MemoryState.add] calls, first call first; it stops at the
    first call that raises. *)
Definition add_each {A : Type} (entries : list A) (st : BaseAgent.MemoryState A)
    : BaseAgent.MemoryState A * result unit :=
  foldl (fun run entry =>
           match run.2 with
           | Ok _ => BaseAgent.add entry run.1
           | Raise e => run
           end)
        (st, Ok tt) entries.

(** Half the distance between 1 and the next float: 2^-53. *)
Definition roundoff : Q := 1 # 9007199254740992.

(** What the proofs about rounded arithmetic use of rounding to the
    nearest float: it keeps the order, it keeps zero, and up to 2 in
    absolute value it moves a number by no more than [roundoff]. *)
Definition rounds_to_nearest (rnd : Q -> Q) : Prop :=
  (forall x y, x <= y -> rnd x <= rnd y) /\
  rnd 0 == 0 /\
  (forall x, -2 <= x <= 2 -> Qabs (rnd x - x) <= roundoff).

(** The highest of the prices up to a place. *)
Definition highest_so_far (prices : list Q) (j : nat) (peak : Q) : Prop :=
  (exists i, (i <= j)%nat /\ prices !! i = Some peak) /\
  (forall i p, (i <= j)%nat -> prices !! i = Some p -> p <= peak).

(** * Properties *)

(** ** Facts about the runtime fragment *)

Section RuntimeFacts.

Lemma Qltb_lt (x y : Q) : Qltb x y = true <-> x < y.
Proof.
  unfold Qltb. rewrite negb_true_iff.
  split.
  - intros Hb. apply Qnot_le_lt. intros Hle.
    apply Qle_bool_iff in Hle. congruence.
  - intros Hlt. destruct (Qle_bool y x) eqn:E; [|reflexivity].
    apply Qle_bool_iff in E. lra.
Qed.

Lemma Qltb_ge (x y : Q) : Qltb x y = false <-> y <= x.
Proof.
  unfold Qltb. rewrite negb_false_iff. apply Qle_bool_iff.
Qed.

Lemma min_cases (a b : Q) :
  (b < a /\ min a b = b) \/ (a <= b /\ min a b = a).
Proof.
  unfold min. destruct (Qltb b a) eqn:E.
  - left. split; [by apply Qltb_lt | reflexivity].
  - right. split; [by apply Qltb_ge | reflexivity].
Qed.

Lemma max_cases (a b : Q) :
  (a < b /\ max a b = b) \/ (b <= a /\ max a b = a).
Proof.
  unfold max. destruct (Qltb a b) eqn:E.
  - left. split; [by apply Qltb_lt | reflexivity].
  - right. split; [by apply Qltb_ge | reflexivity].
Qed.

End RuntimeFacts.

(** Case analysis on every comparison and [min]/[max] of a goal, leaving
    linear facts for [lra]. *)
Ltac no_nested_cmp t :=
  lazymatch t with
  | context [Qltb _ _] => fail
  | context [min _ _] => fail
  | context [max _ _] => fail
  | _ => idtac
  end.

Ltac split_cmp :=
  repeat match goal with
  | |- context [min ?a ?b] =>
      no_nested_cmp a; no_nested_cmp b;
      let H := fresh "H" in
      let E := fresh "E" in
      destruct (min_cases a b) as [[H E]|[H E]]; rewrite E; clear E
  | |- context [max ?a ?b] =>
      no_nested_cmp a; no_nested_cmp b;
      let H := fresh "H" in
      let E := fresh "E" in
      destruct (max_cases a b) as [[H E]|[H E]]; rewrite E; clear E
  | |- context [Qltb ?x ?y] =>
      no_nested_cmp x; no_nested_cmp y;
      let E := fresh "E" in
      destruct (Qltb x y) eqn:E;
      [apply Qltb_lt in E | apply Qltb_ge in E]
  end.

(** ** Trading signals *)

(** Every run of [generate_trading_signals] ends in one of two shapes:
    the [except] branch, or the scored signal for some strength. *)
Lemma generate_trading_signals_shape
    (technical risk liquidity : gmap string pyval) :
  let s := generate_trading_signals technical risk liquidity in
  confidence s = Qabs (signal_strength s) /\
  action s =
    (if Qltb 0.3 (signal_strength s) then BUY
     else if Qltb (signal_strength s) (-0.3) then SELL
     else HOLD).
Proof.
  unfold generate_trading_signals.
  destruct (dict_get technical "rsi" (PyNum 50)) as [rsi| |];
    destruct (dict_get technical "macd" (PyNum 0)) as [macd| |];
    destruct (dict_get risk "value_at_risk" (PyNum 0)) as [var| |];
    destruct (dict_get liquidity "depth_2_percent" (PyNum 0)) as [depth| |];
    cbn; split; reflexivity.
Qed.

(** C1: the signal is BUY exactly when its strength exceeds 0.3, SELL
    exactly when the strength is below -0.3, and HOLD otherwise, so a
    strength of exactly 0.3 or -0.3 gives HOLD; the confidence is the
    absolute value of the strength. *)
Theorem generate_trading_signals_thresholds
    (technical risk liquidity : gmap string pyval) :
  let s := generate_trading_signals technical risk liquidity in
  (0.3 < signal_strength s <-> action s = BUY) /\
  (signal_strength s < -0.3 <-> action s = SELL) /\
  (~ 0.3 < signal_strength s /\ ~ signal_strength s < -0.3 <->
   action s = HOLD) /\
  (signal_strength s == 0.3 -> action s = HOLD) /\
  (signal_strength s == -0.3 -> action s = HOLD) /\
  confidence s == Qabs (signal_strength s).
Proof.
  intros s.
  destruct (generate_trading_signals_shape technical risk liquidity)
    as [Hconf Hact].
  fold s in Hconf, Hact. rewrite Hconf, Hact.
  generalize (signal_strength s) as x. intros x.
  destruct (Qltb 0.3 x) eqn:Hbuy;
    [apply Qltb_lt in Hbuy | apply Qltb_ge in Hbuy];
    (destruct (Qltb x (-0.3)) eqn:Hsell;
     [apply Qltb_lt in Hsell | apply Qltb_ge in Hsell]);
    repeat split; intros; try discriminate; try reflexivity; try lra.
  all: try (exfalso; lra).
  all: try (destruct H; lra).
Qed.

(** The strength as the sum of its four terms, when no lookup raises. *)
Lemma generate_trading_signals_numeric
    (technical risk liquidity : gmap string pyval) (rsi macd var depth : Q) :
  dict_get technical "rsi" (PyNum 50) = PyNum rsi ->
  dict_get technical "macd" (PyNum 0) = PyNum macd ->
  dict_get risk "value_at_risk" (PyNum 0) = PyNum var ->
  dict_get liquidity "depth_2_percent" (PyNum 0) = PyNum depth ->
  signal_strength (generate_trading_signals technical risk liquidity) =
    (if Qltb 0 macd
     then (if Qltb rsi 30 then 0.0 + 0.4
           else if Qltb 70 rsi then 0.0 - 0.4 else 0.0) + 0.2
     else (if Qltb rsi 30 then 0.0 + 0.4
           else if Qltb 70 rsi then 0.0 - 0.4 else 0.0) - 0.2)
    + 0.3 * (1 - min 1 (var / 0.1))
    + 0.3 * min 1 (depth / 100000).
Proof.
  intros Hrsi Hmacd Hvar Hdepth. unfold generate_trading_signals.
  rewrite Hrsi, Hmacd, Hvar, Hdepth. cbn.
  destruct (Qltb 0 macd); reflexivity.
Qed.

(** When a lookup yields text or [None] the [except] branch answers. *)
Lemma generate_trading_signals_except
    (technical risk liquidity : gmap string pyval) :
  (forall q, dict_get technical "rsi" (PyNum 50) <> PyNum q) \/
  (forall q, dict_get technical "macd" (PyNum 0) <> PyNum q) \/
  (forall q, dict_get risk "value_at_risk" (PyNum 0) <> PyNum q) \/
  (forall q, dict_get liquidity "depth_2_percent" (PyNum 0) <> PyNum q) ->
  generate_trading_signals technical risk liquidity =
    {| action := HOLD; confidence := 0; signal_strength := 0;
       risk_score := 0; liquidity_score := 0 |}.
Proof.
  unfold generate_trading_signals.
  destruct (dict_get technical "rsi" (PyNum 50)) as [rsi| |];
    destruct (dict_get technical "macd" (PyNum 0)) as [macd| |];
    destruct (dict_get risk "value_at_risk" (PyNum 0)) as [var| |];
    destruct (dict_get liquidity "depth_2_percent" (PyNum 0)) as [depth| |];
    cbn; try reflexivity.
  intros [H|[H|[H|H]]]; exfalso; eapply H; reflexivity.
Qed.

(** C4, as stated, fails: the four weights add up to more than 1. *)
Lemma generate_trading_signals_confidence_exceeds_one :
  1 < confidence
        (generate_trading_signals bullish_technical calm_risk deep_liquidity)
  /\
  ~ (0 <= confidence
            (generate_trading_signals bullish_technical calm_risk
               deep_liquidity) <= 1).
Proof.
  split.
  - vm_compute. reflexivity.
  - vm_compute. intros [_ H]. apply H. reflexivity.
Qed.

(** With the identity for the rounding, the rounded engine is the exact
    one. *)
Lemma generate_trading_signals_unrounded
    (technical risk liquidity : gmap string pyval) :
  RoundedSignals.generate_trading_signals (fun x => x) technical risk
    liquidity
  = generate_trading_signals technical risk liquidity.
Proof. reflexivity. Qed.

Section RoundingFacts.

Variable rnd : Q -> Q.

Hypothesis Hrnd : rounds_to_nearest rnd.

Lemma rnd_near (x : Q) :
  -2 <= x /\ x <= 2 -> x - roundoff <= rnd x /\ rnd x <= x + roundoff.
Proof.
  intros [Hlo Hhi]. destruct Hrnd as (_ & _ & Hnear).
  specialize (Hnear x (conj Hlo Hhi)). revert Hnear.
  apply Qabs_case; intros; lra.
Qed.

Lemma rnd_nonneg (x : Q) : 0 <= x -> 0 <= rnd x.
Proof.
  intros Hx. destruct Hrnd as (Hmono & Hzero & _).
  pose proof (Hmono 0 x Hx). lra.
Qed.

(** The rounded engine ends in the [except] branch or in a signal whose
    confidence is the absolute value of its strength. *)
Lemma rounded_signals_shape (technical risk liquidity : gmap string pyval) :
  let s :=
    RoundedSignals.generate_trading_signals rnd technical risk liquidity in
  confidence s = Qabs (signal_strength s).
Proof.
  unfold RoundedSignals.generate_trading_signals.
  destruct (dict_get technical "rsi" (PyNum 50)) as [rsi| |];
    destruct (dict_get technical "macd" (PyNum 0)) as [macd| |];
    destruct (dict_get risk "value_at_risk" (PyNum 0)) as [var| |];
    destruct (dict_get liquidity "depth_2_percent" (PyNum 0)) as [depth| |];
    reflexivity.
Qed.

Lemma no_signal_bound : Qabs 0 <= 1.2 + 16 * roundoff.
Proof. vm_compute. discriminate. Qed.

(** Replace the innermost rounded term of the goal by a number within
    [roundoff] of what is rounded; a product of two bounded factors is
    bounded first. *)
Ltac near_step :=
  match goal with
  | |- context [rnd (?a * ?b)] =>
      is_var a; is_var b;
      let H := fresh "Hprod" in
      assert (H : - (1 # 9007199254740992) <= a * b /\
                  a * b <= 0.3 + 2 * (1 # 9007199254740992))
        by (split; nra);
      revert H; generalize (a * b); intros ? H
  | |- context [rnd ?t] =>
      lazymatch t with
      | context [rnd _] => fail
      | _ => idtac
      end;
      let H := fresh "Hnear" in
      pose proof (rnd_near t ltac:(split; lra)) as H;
      unfold roundoff in H; revert H; generalize (rnd t); intros ? H
  end.

Lemma rounded_confidence_bound
    (technical risk liquidity : gmap string pyval) :
  (forall var, dict_get risk "value_at_risk" (PyNum 0) = PyNum var ->
               0 <= var) ->
  (forall depth,
     dict_get liquidity "depth_2_percent" (PyNum 0) = PyNum depth ->
     0 <= depth) ->
  Qabs (signal_strength
          (RoundedSignals.generate_trading_signals rnd technical risk
             liquidity))
  <= 1.2 + 16 * roundoff.
Proof.
  intros Hvar Hdepth. unfold RoundedSignals.generate_trading_signals.
  destruct (dict_get technical "rsi" (PyNum 50)) as [rsi| |];
    destruct (dict_get technical "macd" (PyNum 0)) as [macd| |];
    destruct (dict_get risk "value_at_risk" (PyNum 0)) as [var| |];
    destruct (dict_get liquidity "depth_2_percent" (PyNum 0)) as [depth| |];
    cbv [try_except mbind result_bind operand mret result_ret
         signal_strength];
    try exact no_signal_bound.
  specialize (Hvar var eq_refl). specialize (Hdepth depth eq_refl).
  unfold roundoff.
  (* the literals *)
  pose proof (rnd_near 0.4 ltac:(split; lra)) as H4.
  pose proof (rnd_near 0.2 ltac:(split; lra)) as H2.
  pose proof (rnd_near 0.3 ltac:(split; lra)) as H3.
  pose proof (rnd_near 0.1 ltac:(split; lra)) as H1.
  unfold roundoff in H4, H2, H3, H1.
  revert H4 H2 H3 H1.
  generalize (rnd 0.4) (rnd 0.2) (rnd 0.3) (rnd 0.1).
  intros a4 a2 a3 a1 H4 H2 H3 H1.
  (* the two quotients, of which only the sign matters *)
  assert (Hv : 0 <= rnd (var / a1))
    by (apply rnd_nonneg, Qle_shift_div_l; lra).
  assert (Hd : 0 <= rnd (depth / 100000))
    by (apply rnd_nonneg, Qle_shift_div_l; lra).
  revert Hv Hd. generalize (rnd (var / a1)) (rnd (depth / 100000)).
  intros v d Hv Hd.
  split_cmp; repeat near_step; apply Qabs_case; intros; lra.
Qed.

End RoundingFacts.

(** C4, amended: the confidence is the absolute value of the strength,
    hence never negative.  The four weights add up to 1.2, not 1:
    whenever the value at risk and the depth are each absent, not a
    number, or not negative, however large the depth, the confidence is
    at most 1.2 up to the rounding of the float operations, that is at
    most 1.2 + 16 * 2^-53 for every rounding to the nearest float. *)
Theorem generate_trading_signals_confidence_range
    (rnd : Q -> Q) (technical risk liquidity : gmap string pyval) :
  rounds_to_nearest rnd ->
  let s :=
    RoundedSignals.generate_trading_signals rnd technical risk liquidity in
  0 <= confidence s /\
  confidence s == Qabs (signal_strength s) /\
  ((forall var, dict_get risk "value_at_risk" (PyNum 0) = PyNum var ->
                0 <= var) ->
   (forall depth,
      dict_get liquidity "depth_2_percent" (PyNum 0) = PyNum depth ->
      0 <= depth) ->
   confidence s <= 1.2 + 16 * roundoff).
Proof.
  intros Hrnd s.
  pose proof (rounded_signals_shape rnd technical risk liquidity) as Hconf.
  cbv zeta in Hconf. fold s in Hconf. rewrite Hconf.
  split; [apply Qabs_nonneg|]. split; [reflexivity|].
  intros Hvar Hdepth.
  apply (rounded_confidence_bound rnd Hrnd technical risk liquidity
           Hvar Hdepth).
Qed.

(** With a negative value at risk nothing bounds the confidence. *)
Lemma generate_trading_signals_confidence_unbounded (bound : Q) :
  0 <= bound ->
  bound <
  confidence
    (generate_trading_signals ∅
       {[ "value_at_risk" := PyNum (- (bound + 1)) ]} ∅).
Proof.
  intros Hb.
  destruct (generate_trading_signals_shape ∅
              {[ "value_at_risk" := PyNum (- (bound + 1)) ]} ∅) as [Hc _].
  rewrite Hc.
  rewrite (generate_trading_signals_numeric _ _ _ 50 0 (- (bound + 1)) 0)
    by reflexivity.
  assert (Hv : - (bound + 1) / 0.1 == - (10 * (bound + 1))) by field.
  assert (Hd : 0 / 100000 == 0) by field.
  revert Hv Hd. generalize (- (bound + 1) / 0.1) (0 / 100000).
  intros v d Hv Hd.
  split_cmp; apply Qabs_case; intros; lra.
Qed.

(** ** Position sizing *)

(** With a numeric (or absent) liquidity the body runs to its end. *)
Lemma calculate_trade_size_numeric
    (portfolio : HedgeFundAgent.Portfolio) (token : string) (confidence : Q)
    (market_data : gmap string pyval) (liquidity : Q) :
  dict_get market_data "liquidity" (PyNum 0) = PyNum liquidity ->
  HedgeFundAgent.calculate_trade_size portfolio token confidence market_data =
  Ok (let position_size :=
        HedgeFundAgent.total_value portfolio * 0.2 * confidence in
      let position_size :=
        if Qltb 0 liquidity then min position_size (liquidity * 0.1)
        else position_size in
      if Qltb (HedgeFundAgent.cash portfolio) position_size
      then HedgeFundAgent.cash portfolio
      else position_size).
Proof.
  intros Hliq. unfold HedgeFundAgent.calculate_trade_size.
  rewrite Hliq. reflexivity.
Qed.

(** C2, as stated, fails: a confidence of 1.2, which the signal engine
    can produce, sizes the trade at 240, above 0.2 * 1000. *)
Lemma calculate_trade_size_exceeds_position_cap :
  exists size,
    HedgeFundAgent.calculate_trade_size thousand_in_cash "SOL" 1.2 ∅ = Ok size /\
    size == 240 /\
    ~ size <= 0.2 * HedgeFundAgent.total_value thousand_in_cash.
Proof.
  eexists. split; [reflexivity|]. split.
  - vm_compute. reflexivity.
  - vm_compute. intros H. apply H. reflexivity.
Qed.

(** C2, amended: with a numeric or absent liquidity the size is at most
    the cash and, when liquidity > 0, at most 0.1 * liquidity, for every
    confidence and portfolio; it is at most 0.2 * total_value when
    total_value >= 0 and confidence <= 1; it is at least 0 when
    total_value, confidence and cash are not negative, and exactly 0
    when moreover cash = 0. *)
Theorem calculate_trade_size_bounds
    (portfolio : HedgeFundAgent.Portfolio) (token : string) (confidence : Q)
    (market_data : gmap string pyval) (liquidity : Q) :
  dict_get market_data "liquidity" (PyNum 0) = PyNum liquidity ->
  exists size,
    HedgeFundAgent.calculate_trade_size portfolio token confidence market_data
      = Ok size /\
    size <= HedgeFundAgent.cash portfolio /\
    (0 < liquidity -> size <= 0.1 * liquidity) /\
    (0 <= HedgeFundAgent.total_value portfolio -> confidence <= 1 ->
     size <= 0.2 * HedgeFundAgent.total_value portfolio) /\
    (0 <= HedgeFundAgent.total_value portfolio -> 0 <= confidence ->
     0 <= HedgeFundAgent.cash portfolio -> 0 <= size) /\
    (0 <= HedgeFundAgent.total_value portfolio -> 0 <= confidence ->
     HedgeFundAgent.cash portfolio == 0 -> size == 0).
Proof.
  intros Hliq. eexists. split.
  - apply calculate_trade_size_numeric. exact Hliq.
  - destruct portfolio as [cash positions total]. cbn [HedgeFundAgent.cash
      HedgeFundAgent.total_value].
    assert (Hle : 0 <= total -> confidence <= 1 ->
                  total * 0.2 * confidence <= 0.2 * total) by (intros; nra).
    assert (Hge : 0 <= total -> 0 <= confidence ->
                  0 <= total * 0.2 * confidence) by (intros; nra).
    revert Hle Hge. generalize (total * 0.2 * confidence). intros p Hle Hge.
    cbv zeta. repeat split; intros;
      try pose proof (Hle ltac:(assumption) ltac:(assumption));
      try pose proof (Hge ltac:(assumption) ltac:(assumption));
      split_cmp; lra.
Qed.

(** The bounds at a sized trade: 1000 in cash, confidence 0.5 and a
    liquidity of 500. *)
Lemma calculate_trade_size_bounds_witness :
  exists size,
    HedgeFundAgent.calculate_trade_size thousand_in_cash "SOL" 0.5
      {[ "liquidity" := PyNum 500 ]} = Ok size /\
    size <= 1000 /\ size <= 0.1 * 500 /\ size <= 0.2 * 1000 /\ 0 <= size.
Proof.
  assert (Hget : dict_get {[ "liquidity" := PyNum 500 ]} "liquidity" (PyNum 0)
                 = PyNum 500) by reflexivity.
  destruct (calculate_trade_size_bounds thousand_in_cash "SOL" 0.5
              {[ "liquidity" := PyNum 500 ]} 500 Hget)
    as (size & Hrun & Hcash & Hliq & Hcap & Hpos & _).
  exists size. split; [exact Hrun|]. split; [exact Hcash|].
  split; [apply Hliq; reflexivity|].
  split; [apply Hcap; vm_compute; discriminate|].
  apply Hpos; vm_compute; discriminate.
Defined.

(** C8: total_value = 1000, cash = 1000, liquidity = 500 and confidence
    0.8 give max_position 200, position_size 160, the liquidity clamp
    min(160, 50) = 50 and the cash clamp to 50: the size is 50. *)
Theorem calculate_trade_size_scenario (token : string) :
  1000 * 0.2 == 200 /\
  1000 * 0.2 * 0.8 == 160 /\
  min (1000 * 0.2 * 0.8) (500 * 0.1) == 50 /\
  Qltb 1000 (min (1000 * 0.2 * 0.8) (500 * 0.1)) = false /\
  exists size,
    HedgeFundAgent.calculate_trade_size thousand_in_cash token 0.8
      {[ "liquidity" := PyNum 500 ]} = Ok size /\
    size == 50.
Proof.
  repeat split; try reflexivity.
  eexists. split.
  - apply (calculate_trade_size_numeric _ _ _ _ 500). reflexivity.
  - reflexivity.
Qed.

(** ** Applying a fill to the portfolio *)

Section PortfolioFacts.

Variable jupiter_get_price : string -> result Q.

(** No position is ever revalued: [float] of the un-awaited coroutine
    raises on every turn of the loop, and the handler keeps the total. *)
Lemma calculate_total_value_is_cash (portfolio : HedgeFundAgent.Portfolio) :
  HedgeFundAgent.total_value
    (HedgeFundAgent.calculate_total_value jupiter_get_price portfolio)
  = HedgeFundAgent.cash portfolio.
Proof.
  unfold HedgeFundAgent.calculate_total_value. cbn.
  generalize (HedgeFundAgent.cash portfolio) as c. intros c.
  apply (map_fold_weak_ind (fun total _ => total = c)).
  - reflexivity.
  - intros token amount m total _ IH. exact IH.
Qed.

(** A buy takes [amount * price] out of the cash and adds [amount] to
    the position. *)
Lemma update_portfolio_buy
    (portfolio : HedgeFundAgent.Portfolio) (trade : HedgeFundAgent.Trade)
    (result : HedgeFundAgent.ExecutionResult) :
  HedgeFundAgent.action trade = "buy" ->
  let after :=
    HedgeFundAgent.update_portfolio jupiter_get_price portfolio trade result in
  HedgeFundAgent.cash after =
    HedgeFundAgent.cash portfolio
    - HedgeFundAgent.amount trade * HedgeFundAgent.executed_price result /\
  HedgeFundAgent.positions after !! HedgeFundAgent.token trade =
    Some (default 0 (HedgeFundAgent.positions portfolio
                       !! HedgeFundAgent.token trade)
          + HedgeFundAgent.amount trade) /\
  (forall other, other <> HedgeFundAgent.token trade ->
     HedgeFundAgent.positions after !! other =
     HedgeFundAgent.positions portfolio !! other).
Proof.
  intros Hbuy. unfold HedgeFundAgent.update_portfolio. rewrite Hbuy. cbn.
  split; [reflexivity|]. split.
  - apply lookup_insert_eq.
  - intros other Hne. apply lookup_insert_ne. congruence.
Qed.

(** Any other action adds [amount * price] to the cash and takes
    [amount] off the position, below zero if need be. *)
Lemma update_portfolio_sell
    (portfolio : HedgeFundAgent.Portfolio) (trade : HedgeFundAgent.Trade)
    (result : HedgeFundAgent.ExecutionResult) :
  HedgeFundAgent.action trade <> "buy" ->
  let after :=
    HedgeFundAgent.update_portfolio jupiter_get_price portfolio trade result in
  HedgeFundAgent.cash after =
    HedgeFundAgent.cash portfolio
    + HedgeFundAgent.amount trade * HedgeFundAgent.executed_price result /\
  HedgeFundAgent.positions after !! HedgeFundAgent.token trade =
    Some (default 0 (HedgeFundAgent.positions portfolio
                       !! HedgeFundAgent.token trade)
          - HedgeFundAgent.amount trade) /\
  (forall other, other <> HedgeFundAgent.token trade ->
     HedgeFundAgent.positions after !! other =
     HedgeFundAgent.positions portfolio !! other).
Proof.
  intros Hsell. unfold HedgeFundAgent.update_portfolio.
  destruct (String.eqb_spec (HedgeFundAgent.action trade) "buy") as [E|_];
    [contradiction|].
  cbn. split; [reflexivity|]. split.
  - apply lookup_insert_eq.
  - intros other Hne. apply lookup_insert_ne. congruence.
Qed.

(** After an update the recorded total is the cash alone. *)
Lemma update_portfolio_total_is_cash
    (portfolio : HedgeFundAgent.Portfolio) (trade : HedgeFundAgent.Trade)
    (result : HedgeFundAgent.ExecutionResult) :
  let after :=
    HedgeFundAgent.update_portfolio jupiter_get_price portfolio trade result in
  HedgeFundAgent.total_value after = HedgeFundAgent.cash after.
Proof.
  unfold HedgeFundAgent.update_portfolio. cbv zeta.
  rewrite calculate_total_value_is_cash.
  destruct (String.eqb _ _); reflexivity.
Qed.

End PortfolioFacts.

(** C7: the buy moves 20 from cash into 2 SOL, as claimed; the total
    then recorded is the cash, 980, while cash plus the position at its
    looked-up price is 1000: the holding is left out although its
    price lookup succeeds. *)
Theorem update_portfolio_total_value_drops_holdings :
  let after :=
    HedgeFundAgent.update_portfolio quotes_ten thousand_in_cash buy_two_sol
      filled_at_ten in
  HedgeFundAgent.cash after == 980 /\
  (exists held,
     HedgeFundAgent.positions after !! "SOL" = Some held /\ held == 2) /\
  HedgeFundAgent.total_value after == 980 /\
  HedgeFundAgent.revalued_total quotes_ten after == 1000 /\
  ~ HedgeFundAgent.total_value after
    == HedgeFundAgent.revalued_total quotes_ten after.
Proof.
  cbv zeta. split; [reflexivity|]. split.
  - eexists. split; [reflexivity|]. reflexivity.
  - split; [reflexivity|]. split; [reflexivity|].
    vm_compute. discriminate.
Qed.

(** ** Importance of a memory entry *)

Lemma min_Qmin (a b : Q) : min a b == Qmin a b.
Proof.
  destruct (min_cases a b) as [[Hlt ->]|[Hle ->]].
  - symmetry. apply Q.min_r. lra.
  - symmetry. apply Q.min_l. exact Hle.
Qed.

Lemma min_le_l (a b : Q) : min a b <= a.
Proof. destruct (min_cases a b) as [[? ->]|[? ->]]; lra. Qed.

Lemma min_le_r (a b : Q) : min a b <= b.
Proof. destruct (min_cases a b) as [[? ->]|[? ->]]; lra. Qed.

Lemma Qabs_div_nonneg (x d : Q) : 0 < d -> 0 <= Qabs x / d.
Proof.
  intros Hd. apply Qle_shift_div_l; [exact Hd|].
  pose proof (Qabs_nonneg x). lra.
Qed.

Section ImportanceFacts.

Context `{Runtime}.

Lemma _calculate_importance_trade (data : gmap string pyval) (size profit : Q) :
  float (dict_get data "size" (PyNum 0)) = Ok size ->
  float (dict_get data "profit" (PyNum 0)) = Ok profit ->
  Memory._calculate_importance "trade" data =
  Ok (min 1.0 (0.5 + min 0.3 (Qabs size / 10000)
                   + min 0.2 (Qabs profit / 1000))).
Proof.
  intros Hsize Hprofit. unfold Memory._calculate_importance.
  cbn [String.eqb Ascii.eqb Bool.eqb]. rewrite Hsize, Hprofit. reflexivity.
Qed.

Lemma _calculate_importance_error (data : gmap string pyval) :
  Memory._calculate_importance "error" data = Ok (min 1.0 (0.5 + 0.3)).
Proof. reflexivity. Qed.

Lemma _calculate_importance_analysis
    (data : gmap string pyval) (confidence risk_score : Q) :
  float (dict_get data "confidence" (PyNum 0)) = Ok confidence ->
  float (dict_get data "risk_score" (PyNum 0)) = Ok risk_score ->
  Memory._calculate_importance "analysis" data =
  Ok (min 1.0 (0.5 + 0.2 * confidence + 0.2 * risk_score)).
Proof.
  intros Hconf Hrisk. unfold Memory._calculate_importance.
  cbn [String.eqb Ascii.eqb Bool.eqb]. rewrite Hconf, Hrisk. reflexivity.
Qed.

Lemma _calculate_importance_other (entry_type : string) (data : gmap string pyval) :
  entry_type <> "trade" -> entry_type <> "error" -> entry_type <> "analysis" ->
  Memory._calculate_importance entry_type data = Ok (min 1.0 0.5).
Proof.
  intros Ht He Ha. unfold Memory._calculate_importance.
  destruct (String.eqb_spec entry_type "trade"); [contradiction|].
  destruct (String.eqb_spec entry_type "error"); [contradiction|].
  destruct (String.eqb_spec entry_type "analysis"); [contradiction|].
  reflexivity.
Qed.

(** Whatever the type, a computed importance is at most 1. *)
Lemma _calculate_importance_le_1
    (entry_type : string) (data : gmap string pyval) (importance : Q) :
  Memory._calculate_importance entry_type data = Ok importance ->
  importance <= 1.
Proof.
  unfold Memory._calculate_importance.
  match goal with
  | |- context [mbind _ ?m] => destruct m as [x|e]
  end; cbn; [|discriminate].
  intros [= <-]. pose proof (min_le_l 1.0 x). lra.
Qed.

End ImportanceFacts.

(** C9, as stated, fails: the importance of an analysis with confidence
    -10 is -1.5, below 0; only the upper end is clamped. *)
Lemma _calculate_importance_negative :
  exists importance,
    Memory._calculate_importance (H := text_free_runtime) "analysis"
      {[ "confidence" := PyNum (-10) ]} = Ok importance /\
    importance == -1.5 /\
    ~ (0 <= importance <= 1).
Proof.
  eexists. split; [reflexivity|]. split; [reflexivity|].
  intros [Hge _]. vm_compute in Hge. apply Hge. reflexivity.
Qed.

(** C9, amended: on data whose fields convert to numbers the importance
    is min(1, 0.5 + t), with t = min(|size|/10000, 0.3) +
    min(|profit|/1000, 0.2) for a trade, 0.3 for an error,
    0.2 * confidence + 0.2 * risk_score for an analysis and 0 for any
    other type.  It is at most 1 always and at least 0.5 for a trade,
    an error, another type, and an analysis whose confidence and
    risk_score are not negative; the lower end is not clamped. *)
Theorem _calculate_importance_formula `{Runtime}
    (entry_type : string) (data : gmap string pyval) :
  (forall importance,
     Memory._calculate_importance entry_type data = Ok importance ->
     importance <= 1) /\
  (entry_type = "trade" ->
   forall size profit,
     float (dict_get data "size" (PyNum 0)) = Ok size ->
     float (dict_get data "profit" (PyNum 0)) = Ok profit ->
     exists importance,
       Memory._calculate_importance entry_type data = Ok importance /\
       importance ==
         Qmin 1 (0.5 + Qmin (Qabs size / 10000) 0.3
                     + Qmin (Qabs profit / 1000) 0.2) /\
       0.5 <= importance <= 1) /\
  (entry_type = "error" ->
   exists importance,
     Memory._calculate_importance entry_type data = Ok importance /\
     importance == 0.5 + 0.3) /\
  (entry_type = "analysis" ->
   forall confidence risk_score,
     float (dict_get data "confidence" (PyNum 0)) = Ok confidence ->
     float (dict_get data "risk_score" (PyNum 0)) = Ok risk_score ->
     exists importance,
       Memory._calculate_importance entry_type data = Ok importance /\
       importance == Qmin 1 (0.5 + 0.2 * confidence + 0.2 * risk_score) /\
       importance <= 1 /\
       (0 <= confidence -> 0 <= risk_score -> 0.5 <= importance)) /\
  (entry_type <> "trade" -> entry_type <> "error" ->
   entry_type <> "analysis" ->
   exists importance,
     Memory._calculate_importance entry_type data = Ok importance /\
     importance == 0.5).
Proof.
  split; [intros importance; apply _calculate_importance_le_1|].
  split; [|split; [|split]].
  - intros -> size profit Hsize Hprofit. eexists.
    split; [apply (_calculate_importance_trade _ _ _ Hsize Hprofit)|].
    pose proof (Qabs_div_nonneg size 10000 ltac:(lra)) as Hs.
    pose proof (Qabs_div_nonneg profit 1000 ltac:(lra)) as Hp.
    revert Hs Hp. generalize (Qabs size / 10000) (Qabs profit / 1000).
    intros s p Hs Hp. split.
    + rewrite !min_Qmin. rewrite (Q.min_comm 0.3 s), (Q.min_comm 0.2 p).
      apply Q.min_compat; reflexivity.
    + split_cmp; lra.
  - intros ->. eexists. split; [apply _calculate_importance_error|].
    reflexivity.
  - intros -> confidence risk_score Hconf Hrisk. eexists.
    split; [apply (_calculate_importance_analysis _ _ _ Hconf Hrisk)|].
    split; [rewrite min_Qmin; apply Q.min_compat; reflexivity|].
    split; [pose proof (min_le_l 1.0 (0.5 + 0.2 * confidence + 0.2 * risk_score)); lra|].
    intros Hc Hr. split_cmp; lra.
  - intros Ht He Ha. eexists.
    split; [apply (_calculate_importance_other _ _ Ht He Ha)|].
    reflexivity.
Qed.

(** ** Running win rate *)

Section MetricsFacts.

Context `{Runtime}.

Lemma trades_after_ge_1 (m : Memory.Metrics) : 1 <= trades_after m.
Proof.
  unfold trades_after. change 1 with (inject_Z 1).
  rewrite <- Zle_Qle. lia.
Qed.

(** The win rate [_update_metrics] leaves, whether it returns or raises. *)
Lemma _update_metrics_win_rate
    (m : Memory.Metrics) (trade_data : gmap string pyval) :
  Memory.win_rate (Memory._update_metrics m trade_data).1 =
  match trade_data !! "profit" with
  | Some v =>
      match float v with
      | Ok profit =>
          if Qltb 0 profit
          then (Memory.win_rate m * (trades_after m - 1) + 1) / trades_after m
          else Memory.win_rate m * (trades_after m - 1) / trades_after m
      | Raise _ => Memory.win_rate m
      end
  | None => Memory.win_rate m
  end.
Proof.
  unfold Memory._update_metrics, trades_after.
  cbn [Memory.total_trades Memory.win_rate Memory.trades].
  destruct (trade_data !! "profit") as [v|].
  - destruct (float v) as [profit|e]; cbn [mbind result_bind]; [|reflexivity].
    destruct (Qltb 0 profit); cbn [mret result_ret];
      match goal with
      | |- context [mapM ?f ?l] => destruct (mapM f l)
      end; reflexivity.
  - cbn [mret result_ret].
    match goal with
    | |- context [mapM ?f ?l] => destruct (mapM f l)
    end; reflexivity.
Qed.

Lemma _update_metrics_total_trades
    (m : Memory.Metrics) (trade_data : gmap string pyval) :
  Memory.total_trades (Memory._update_metrics m trade_data).1 =
  S (Memory.total_trades m).
Proof.
  unfold Memory._update_metrics.
  cbn [Memory.total_trades Memory.win_rate Memory.trades].
  match goal with
  | |- context [match ?w with Ok _ => _ | Raise _ => _ end] =>
      destruct w; [|reflexivity]
  end.
  match goal with
  | |- context [mapM ?f ?l] => destruct (mapM f l)
  end; reflexivity.
Qed.

(** A mean of a rate in [0, 1] with one more 0 or 1 stays in [0, 1]. *)
Lemma running_mean_bounded (w n indicator : Q) :
  0 <= w <= 1 -> 1 <= n -> 0 <= indicator <= 1 ->
  0 <= (w * (n - 1) + indicator) / n <= 1.
Proof.
  intros [Hw0 Hw1] Hn [Hi0 Hi1].
  assert (H0 : 0 <= w * (n - 1)) by nra.
  assert (H1 : w * (n - 1) <= n - 1) by nra.
  split.
  - apply Qle_shift_div_l; lra.
  - apply Qle_shift_div_r; lra.
Qed.

Lemma _update_metrics_win_rate_bounded
    (m : Memory.Metrics) (trade_data : gmap string pyval) :
  0 <= Memory.win_rate m <= 1 ->
  0 <= Memory.win_rate (Memory._update_metrics m trade_data).1 <= 1.
Proof.
  intros Hw. rewrite _update_metrics_win_rate.
  pose proof (trades_after_ge_1 m) as Hn.
  destruct (trade_data !! "profit") as [v|]; [|exact Hw].
  destruct (float v) as [profit|e]; [|exact Hw].
  destruct (Qltb 0 profit).
  - apply running_mean_bounded; [exact Hw | exact Hn | lra].
  - pose proof (running_mean_bounded (Memory.win_rate m)
                  (trades_after m) 0 Hw Hn ltac:(lra)) as Hb.
    assert (E : Memory.win_rate m * (trades_after m - 1) / trades_after m ==
                (Memory.win_rate m * (trades_after m - 1) + 0) / trades_after m)
      by (apply Qmult_comp; [ring | reflexivity]).
    rewrite E. exact Hb.
Qed.

(** Consolidation touches the short-term buffer only. *)
Lemma _consolidate_memories_frame (now : nat -> string) (sys : Memory.MemorySystem) :
  Memory.metrics (Memory._consolidate_memories now sys) = Memory.metrics sys /\
  Memory.long_term (Memory._consolidate_memories now sys) = Memory.long_term sys /\
  Memory.max_size (Memory._consolidate_memories now sys) = Memory.max_size sys /\
  Memory.importance_threshold (Memory._consolidate_memories now sys)
    = Memory.importance_threshold sys /\
  Memory.consolidation_interval (Memory._consolidate_memories now sys)
    = Memory.consolidation_interval sys.
Proof.
  unfold Memory._consolidate_memories.
  match goal with
  | |- context [mbind _ ?c] => destruct c
  end; cbn; repeat split; reflexivity.
Qed.

(** The metrics [add] leaves: those of [_update_metrics] for a trade
    whose importance was computed, the old ones otherwise. *)
Lemma add_metrics
    (now : nat -> string) (entry_type : string) (data : gmap string pyval)
    (metadata : option (gmap string pyval)) (sys : Memory.MemorySystem) :
  Memory.metrics (Memory.add now entry_type data metadata sys) =
  match Memory._calculate_importance entry_type data with
  | Ok _ =>
      if String.eqb entry_type "trade"
      then (Memory._update_metrics (Memory.metrics sys) data).1
      else Memory.metrics sys
  | Raise _ => Memory.metrics sys
  end.
Proof.
  unfold Memory.add.
  destruct (Memory._calculate_importance entry_type data) as [importance|e];
    [|reflexivity].
  destruct (Qle_bool _ _); destruct (String.eqb entry_type "trade");
    cbn [Memory.metrics Memory.set_short_term Memory.set_long_term];
    try destruct (Memory._update_metrics _ data) as [m [u|e]];
    cbn [Memory.metrics Memory.set_metrics fst];
    try reflexivity;
    match goal with
    | |- context [Z.leb ?a ?b] => destruct (Z.leb a b)
    end;
    try reflexivity;
    rewrite (proj1 (_consolidate_memories_frame _ _)); reflexivity.
Qed.

Lemma add_win_rate_bounded
    (now : nat -> string) (entry_type : string) (data : gmap string pyval)
    (metadata : option (gmap string pyval)) (sys : Memory.MemorySystem) :
  0 <= Memory.win_rate (Memory.metrics sys) <= 1 ->
  0 <= Memory.win_rate
         (Memory.metrics (Memory.add now entry_type data metadata sys)) <= 1.
Proof.
  intros Hw. rewrite add_metrics.
  destruct (Memory._calculate_importance entry_type data); [|exact Hw].
  destruct (String.eqb entry_type "trade"); [|exact Hw].
  apply _update_metrics_win_rate_bounded. exact Hw.
Qed.

Lemma add_all_win_rate_bounded
    (calls : list Memory.AddCall) (sys : Memory.MemorySystem) :
  0 <= Memory.win_rate (Memory.metrics sys) <= 1 ->
  0 <= Memory.win_rate (Memory.metrics (Memory.add_all calls sys)) <= 1.
Proof.
  revert sys. induction calls as [|c calls IH]; intros sys Hw; [exact Hw|].
  cbn. apply IH. apply add_win_rate_bounded. exact Hw.
Qed.

End MetricsFacts.

(** C10: from a fresh store the win rate stays in [0, 1] over every
    sequence of additions, and over every sequence of updates applied
    to the fresh metrics; an update with a profit field replaces it by
    (win_rate * (n - 1) + indicator) / n for the new number of trades
    n, and an update without one leaves it as it was. *)
Theorem _update_metrics_win_rate_in_unit_interval `{Runtime}
    (max_size : nat) (importance_threshold : Q) (consolidation_interval : Z) :
  let fresh :=
    Memory.__init__ max_size importance_threshold consolidation_interval in
  Memory.win_rate (Memory.metrics fresh) == 0 /\
  Memory.total_trades (Memory.metrics fresh) = 0%nat /\
  (forall calls : list Memory.AddCall,
     0 <= Memory.win_rate (Memory.metrics (Memory.add_all calls fresh)) <= 1) /\
  (forall updates : list (gmap string pyval),
     0 <= Memory.win_rate
            (foldl (fun m trade_data => (Memory._update_metrics m trade_data).1)
                   (Memory.metrics fresh) updates) <= 1) /\
  (forall (m : Memory.Metrics) (trade_data : gmap string pyval) (v : pyval)
          (profit : Q),
     trade_data !! "profit" = Some v -> float v = Ok profit ->
     let m' := (Memory._update_metrics m trade_data).1 in
     let n := inject_Z (Z.of_nat (Memory.total_trades m')) in
     Memory.total_trades m' = S (Memory.total_trades m) /\
     Memory.win_rate m' ==
       (Memory.win_rate m * (n - 1) + (if Qltb 0 profit then 1 else 0)) / n) /\
  (forall (m : Memory.Metrics) (trade_data : gmap string pyval),
     trade_data !! "profit" = None ->
     Memory.win_rate (Memory._update_metrics m trade_data).1 =
     Memory.win_rate m).
Proof.
  intros fresh.
  assert (Hfresh : 0 <= Memory.win_rate (Memory.metrics fresh) <= 1)
    by (cbn; lra).
  split; [reflexivity|]. split; [reflexivity|]. split; [|split; [|split]].
  - intros calls. apply add_all_win_rate_bounded. exact Hfresh.
  - intros updates. revert Hfresh. generalize (Memory.metrics fresh).
    induction updates as [|d updates IH]; intros m Hm; [exact Hm|].
    cbn. apply IH. apply _update_metrics_win_rate_bounded. exact Hm.
  - intros m trade_data v profit Hv Hp. cbv zeta.
    rewrite _update_metrics_total_trades. split; [reflexivity|].
    rewrite _update_metrics_win_rate, Hv, Hp. fold (trades_after m).
    destruct (Qltb 0 profit); [reflexivity|].
    apply Qmult_comp; [ring | reflexivity].
  - intros m trade_data Hv. rewrite _update_metrics_win_rate, Hv. reflexivity.
Qed.

(** ** The two bounded buffers *)

Section DequeFacts.

Context {A : Type}.

Lemma deque_append_length (maxlen : nat) (x : A) (d : list A) :
  length (deque_append maxlen x d) = Nat.min maxlen (S (length d)).
Proof.
  unfold deque_append. rewrite length_drop, length_app. cbn. lia.
Qed.

Lemma deque_append_le (maxlen : nat) (x : A) (d : list A) :
  (length (deque_append maxlen x d) <= maxlen)%nat.
Proof. rewrite deque_append_length. lia. Qed.

(** Room left: the element goes to the right end, nothing is dropped. *)
Lemma deque_append_room (maxlen : nat) (x : A) (d : list A) :
  (length d < maxlen)%nat -> deque_append maxlen x d = d ++ [x].
Proof.
  intros Hlt. unfold deque_append. rewrite length_app. cbn.
  replace (length d + 1 - maxlen)%nat with 0%nat by lia. reflexivity.
Qed.

(** Full buffer: the oldest element, and only it, is dropped. *)
Lemma deque_append_full (maxlen : nat) (x : A) (d : list A) :
  (0 < maxlen)%nat -> length d = maxlen ->
  deque_append maxlen x d = drop 1 d ++ [x].
Proof.
  intros Hpos Hlen. unfold deque_append. rewrite length_app. cbn.
  replace (length d + 1 - maxlen)%nat with 1%nat by lia.
  apply drop_app_le. lia.
Qed.

Lemma deque_extend_le (maxlen : nat) (xs d : list A) :
  (length d <= maxlen)%nat ->
  (length (deque_extend maxlen xs d) <= maxlen)%nat.
Proof.
  unfold deque_extend. revert d.
  induction xs as [|x xs IH]; intros d Hd; [exact Hd|].
  cbn. apply IH. apply deque_append_le.
Qed.

End DequeFacts.

Section BufferFacts.

Context `{Runtime}.

Lemma _consolidate_memories_short_le (now : nat -> string) (sys : Memory.MemorySystem) :
  (length (Memory.short_term sys) <= Memory.short_capacity)%nat ->
  (length (Memory.short_term (Memory._consolidate_memories now sys))
   <= Memory.short_capacity)%nat.
Proof.
  intros Hle. unfold Memory._consolidate_memories.
  match goal with
  | |- context [mbind _ ?c] => destruct c as [consolidated|e]
  end; cbn [mbind result_bind mret result_ret try_except]; [|exact Hle].
  cbn [Memory.short_term Memory.set_short_term].
  apply deque_extend_le. cbn. lia.
Qed.

(** Case analysis along the body of [add], once the importance is known. *)
Ltac add_simpl :=
  cbn [Memory.set_metrics Memory.set_short_term Memory.set_long_term
       Memory.short_term Memory.long_term Memory.max_size
       Memory.importance_threshold Memory.consolidation_interval
       Memory.metrics].

Ltac add_cases :=
  cbv zeta; add_simpl;
  match goal with
  | |- context [Qle_bool ?t ?i] => destruct (Qle_bool t i) eqn:?
  end;
  match goal with
  | |- context [String.eqb ?t "trade"] => destruct (String.eqb t "trade")
  end;
  try match goal with
  | |- context [Memory._update_metrics ?m ?d] =>
      destruct (Memory._update_metrics m d) as [? [?|?]]
  end;
  add_simpl;
  try match goal with
  | |- context [Z.leb ?a ?b] => destruct (Z.leb a b) eqn:?
  end.

(** [add] leaves the configuration alone. *)
Lemma add_config
    (now : nat -> string) (entry_type : string) (data : gmap string pyval)
    (metadata : option (gmap string pyval)) (sys : Memory.MemorySystem) :
  Memory.max_size (Memory.add now entry_type data metadata sys)
    = Memory.max_size sys /\
  Memory.importance_threshold (Memory.add now entry_type data metadata sys)
    = Memory.importance_threshold sys /\
  Memory.consolidation_interval (Memory.add now entry_type data metadata sys)
    = Memory.consolidation_interval sys.
Proof.
  unfold Memory.add.
  destruct (Memory._calculate_importance entry_type data) as [importance|e];
    [|repeat split; reflexivity].
  add_cases;
    rewrite ?(proj1 (proj2 (proj2 (_consolidate_memories_frame _ _)))),
            ?(proj1 (proj2 (proj2 (proj2 (_consolidate_memories_frame _ _))))),
            ?(proj2 (proj2 (proj2 (proj2 (_consolidate_memories_frame _ _)))));
    repeat split; reflexivity.
Qed.

(** The long-term buffer after [add]: the entry is appended exactly when
    its importance reaches the threshold. *)
Lemma add_long_term
    (now : nat -> string) (entry_type : string) (data : gmap string pyval)
    (metadata : option (gmap string pyval)) (sys : Memory.MemorySystem)
    (importance : Q) :
  Memory._calculate_importance entry_type data = Ok importance ->
  Memory.long_term (Memory.add now entry_type data metadata sys) =
  if Qle_bool (Memory.importance_threshold sys) importance
  then deque_append (Memory.max_size sys)
         (entry_of now entry_type data metadata importance)
         (Memory.long_term sys)
  else Memory.long_term sys.
Proof.
  intros Himp. unfold Memory.add. rewrite Himp.
  add_cases;
    rewrite ?(proj1 (proj2 (_consolidate_memories_frame _ _)));
    reflexivity.
Qed.

(** The short-term buffer after [add] when consolidation is not due. *)
Lemma add_short_term
    (now : nat -> string) (entry_type : string) (data : gmap string pyval)
    (metadata : option (gmap string pyval)) (sys : Memory.MemorySystem)
    (importance : Q) :
  Memory._calculate_importance entry_type data = Ok importance ->
  (Z.of_nat (Nat.min Memory.short_capacity (S (length (Memory.short_term sys))))
   < Memory.consolidation_interval sys)%Z ->
  Memory.short_term (Memory.add now entry_type data metadata sys) =
  deque_append Memory.short_capacity
    (entry_of now entry_type data metadata importance)
    (Memory.short_term sys).
Proof.
  intros Himp Hint. unfold Memory.add. rewrite Himp.
  add_cases; try reflexivity;
    match goal with
    | E : (_ <=? _)%Z = true |- _ =>
        apply Z.leb_le in E; rewrite deque_append_length in E; lia
    end.
Qed.

Lemma add_caps
    (now : nat -> string) (entry_type : string) (data : gmap string pyval)
    (metadata : option (gmap string pyval)) (sys : Memory.MemorySystem) :
  (length (Memory.short_term sys) <= Memory.short_capacity)%nat ->
  (length (Memory.long_term sys) <= Memory.max_size sys)%nat ->
  (length (Memory.short_term (Memory.add now entry_type data metadata sys))
   <= Memory.short_capacity)%nat /\
  (length (Memory.long_term (Memory.add now entry_type data metadata sys))
   <= Memory.max_size (Memory.add now entry_type data metadata sys))%nat.
Proof.
  intros Hshort Hlong.
  rewrite (proj1 (add_config now entry_type data metadata sys)).
  destruct (Memory._calculate_importance entry_type data) as [importance|e]
    eqn:Himp.
  - split.
    + unfold Memory.add. rewrite Himp.
      add_cases;
        try apply _consolidate_memories_short_le;
        cbn [Memory.set_metrics Memory.set_short_term Memory.set_long_term
             Memory.short_term];
        apply deque_append_le.
    + rewrite (add_long_term _ _ _ _ _ _ Himp).
      destruct (Qle_bool _ _); [apply deque_append_le | exact Hlong].
  - unfold Memory.add. rewrite Himp. split; assumption.
Qed.

Lemma add_all_caps (calls : list Memory.AddCall) (sys : Memory.MemorySystem) :
  (length (Memory.short_term sys) <= Memory.short_capacity)%nat ->
  (length (Memory.long_term sys) <= Memory.max_size sys)%nat ->
  (length (Memory.short_term (Memory.add_all calls sys))
   <= Memory.short_capacity)%nat /\
  (length (Memory.long_term (Memory.add_all calls sys))
   <= Memory.max_size (Memory.add_all calls sys))%nat.
Proof.
  revert sys. induction calls as [|c calls IH]; intros sys Hs Hl;
    [split; assumption|].
  cbn. apply IH; apply add_caps; assumption.
Qed.

End BufferFacts.

Section LowImportance.

Context `{Runtime}.

(** With consolidation out of reach and nothing important coming in, the
    short-term buffer fills up to its capacity and the long-term buffer
    stays as it is. *)
Lemma add_all_below_threshold
    (calls : list Memory.AddCall) (sys : Memory.MemorySystem) :
  (Z.of_nat Memory.short_capacity < Memory.consolidation_interval sys)%Z ->
  (length (Memory.short_term sys) <= Memory.short_capacity)%nat ->
  Forall (below_threshold sys) calls ->
  Memory.long_term (Memory.add_all calls sys) = Memory.long_term sys /\
  length (Memory.short_term (Memory.add_all calls sys)) =
  Nat.min Memory.short_capacity
    (length (Memory.short_term sys) + length calls).
Proof.
  revert sys. induction calls as [|c calls IH]; intros sys Hint Hlen Hlow.
  - cbn [Memory.add_all foldl length]. split; [reflexivity|]. lia.
  - apply Forall_cons in Hlow as [(importance & Himp & Hlt) Hlow].
    cbn [Memory.add_all foldl].
    set (sys1 := Memory.add (Memory.call_now c) (Memory.call_type c)
                   (Memory.call_data c) (Memory.call_metadata c) sys).
    destruct (add_config (Memory.call_now c) (Memory.call_type c)
                (Memory.call_data c) (Memory.call_metadata c) sys)
      as (_ & Hthr & Hci).
    fold sys1 in Hthr, Hci.
    assert (Hlong : Memory.long_term sys1 = Memory.long_term sys).
    { unfold sys1. rewrite (add_long_term _ _ _ _ _ _ Himp).
      destruct (Qle_bool _ _) eqn:E; [|reflexivity].
      apply Qle_bool_iff in E. lra. }
    assert (Hshort : length (Memory.short_term sys1) =
                     Nat.min Memory.short_capacity
                       (S (length (Memory.short_term sys)))).
    { unfold sys1. rewrite (add_short_term _ _ _ _ _ _ Himp).
      - apply deque_append_length.
      - lia. }
    destruct (IH sys1) as [IHlong IHshort].
    + rewrite Hci. exact Hint.
    + rewrite Hshort. lia.
    + eapply Forall_impl; [exact Hlow|].
      intros c' (i' & Hi' & Hlt'). exists i'. split; [exact Hi'|].
      rewrite Hthr. exact Hlt'.
    + fold (Memory.add_all calls sys1). split.
      * rewrite IHlong. exact Hlong.
      * rewrite IHshort, Hshort. cbn [length]. lia.
Qed.

(** One entry of importance 1 put into a fresh store is in both
    buffers, unless the configuration itself keeps it out. *)
Lemma add_important_entry
    (now : nat -> string) (entry_type : string) (data : gmap string pyval)
    (metadata : option (gmap string pyval)) (importance : Q)
    (max_size : nat) (importance_threshold : Q) (consolidation_interval : Z) :
  Memory._calculate_importance entry_type data = Ok importance ->
  importance == 1 ->
  (1 <= max_size)%nat -> importance_threshold <= 1 ->
  (1 < consolidation_interval)%Z ->
  let sys :=
    Memory.add now entry_type data metadata
      (Memory.__init__ max_size importance_threshold consolidation_interval) in
  Memory.short_term sys = [entry_of now entry_type data metadata importance] /\
  Memory.long_term sys = [entry_of now entry_type data metadata importance].
Proof.
  intros Himp Hone Hmax Hthr Hint sys. subst sys. split.
  - rewrite (add_short_term _ _ _ _ _ _ Himp); [reflexivity|].
    cbn. lia.
  - rewrite (add_long_term _ _ _ _ _ _ Himp).
    cbn [Memory.__init__ Memory.importance_threshold Memory.max_size
         Memory.long_term].
    destruct (Qle_bool importance_threshold importance) eqn:E.
    + rewrite deque_append_room by (cbn; lia). reflexivity.
    + exfalso. assert (Hle : importance_threshold <= importance) by lra.
      apply Qle_bool_iff in Hle. congruence.
Qed.

End LowImportance.

Section Eviction.

Context `{Runtime}.

Lemma add_all_config (calls : list Memory.AddCall) (sys : Memory.MemorySystem) :
  Memory.max_size (Memory.add_all calls sys) = Memory.max_size sys /\
  Memory.importance_threshold (Memory.add_all calls sys)
    = Memory.importance_threshold sys /\
  Memory.consolidation_interval (Memory.add_all calls sys)
    = Memory.consolidation_interval sys.
Proof.
  revert sys. induction calls as [|c calls IH]; intros sys;
    [repeat split; reflexivity|].
  cbn [Memory.add_all foldl].
  destruct (IH (Memory.add (Memory.call_now c) (Memory.call_type c)
                  (Memory.call_data c) (Memory.call_metadata c) sys))
    as (Hm & Ht & Hc).
  destruct (add_config (Memory.call_now c) (Memory.call_type c)
              (Memory.call_data c) (Memory.call_metadata c) sys)
    as (Hm' & Ht' & Hc').
  unfold Memory.add_all in Hm, Ht, Hc.
  rewrite Hm, Ht, Hc, Hm', Ht', Hc'. repeat split; reflexivity.
Qed.

(** A full short-term buffer drops its oldest entry, and only it, when
    consolidation is out of reach. *)
Lemma add_evicts_oldest_short_term
    (now : nat -> string) (entry_type : string) (data : gmap string pyval)
    (metadata : option (gmap string pyval)) (sys : Memory.MemorySystem)
    (importance : Q) :
  Memory._calculate_importance entry_type data = Ok importance ->
  length (Memory.short_term sys) = Memory.short_capacity ->
  (Z.of_nat Memory.short_capacity < Memory.consolidation_interval sys)%Z ->
  Memory.short_term (Memory.add now entry_type data metadata sys) =
  drop 1 (Memory.short_term sys)
  ++ [entry_of now entry_type data metadata importance].
Proof.
  intros Himp Hlen Hint.
  rewrite (add_short_term _ _ _ _ _ _ Himp) by lia.
  apply deque_append_full; [unfold Memory.short_capacity; lia | exact Hlen].
Qed.

(** A full long-term buffer drops its oldest entry, and only it, for an
    entry that reaches the threshold. *)
Lemma add_evicts_oldest_long_term
    (now : nat -> string) (entry_type : string) (data : gmap string pyval)
    (metadata : option (gmap string pyval)) (sys : Memory.MemorySystem)
    (importance : Q) :
  Memory._calculate_importance entry_type data = Ok importance ->
  Memory.importance_threshold sys <= importance ->
  length (Memory.long_term sys) = Memory.max_size sys ->
  (0 < Memory.max_size sys)%nat ->
  Memory.long_term (Memory.add now entry_type data metadata sys) =
  drop 1 (Memory.long_term sys)
  ++ [entry_of now entry_type data metadata importance].
Proof.
  intros Himp Hthr Hlen Hpos.
  rewrite (add_long_term _ _ _ _ _ _ Himp).
  apply Qle_bool_iff in Hthr. rewrite Hthr.
  apply deque_append_full; assumption.
Qed.

End Eviction.

(** C6, as stated, fails: with the default consolidation interval of 100
    the hundredth insertion consolidates the buffer, so after 101
    low-importance insertions the short-term buffer holds 2 entries, not
    100; so it is with a threshold of 0.9, and with the default store. *)
Lemma add_consolidation_shrinks_short_term :
  (let calls := replicate 101 plain_observation in
   let fresh := Memory.__init__ 1000 0.9 100 in
   let sys := Memory.add_all (H := text_free_runtime) calls fresh in
   length calls = (Memory.short_capacity + 1)%nat /\
   Forall (below_threshold (H := text_free_runtime) fresh) calls /\
   length (Memory.short_term sys) = 2%nat /\
   length (Memory.short_term sys) <> Memory.short_capacity) /\
  (let calls := replicate 101 doubtful_analysis in
   let sys :=
     Memory.add_all (H := text_free_runtime) calls Memory.default_system in
   length calls = (Memory.short_capacity + 1)%nat /\
   Forall (below_threshold (H := text_free_runtime) Memory.default_system)
     calls /\
   length (Memory.short_term sys) = 2%nat /\
   length (Memory.short_term sys) <> Memory.short_capacity).
Proof.
  split; cbv zeta.
  - split; [reflexivity|]. split.
    + apply Forall_replicate. eexists. split; [reflexivity|].
      vm_compute. reflexivity.
    + split; [vm_compute; reflexivity | vm_compute; discriminate].
  - split; [reflexivity|]. split.
    + apply Forall_replicate. eexists. split; [reflexivity|].
      vm_compute. reflexivity.
    + split; [vm_compute; reflexivity | vm_compute; discriminate].
Qed.

(** C6, amended: over every sequence of [add] calls on a fresh store the
    short-term buffer holds at most 100 entries and the long-term buffer
    at most max_size, and an insertion into a full buffer drops exactly
    the oldest entry.  When consolidation_interval > 100, after 100 + k
    insertions that all stay below the threshold the short-term length
    is 100 and the long-term buffer is empty.  When
    consolidation_interval > 1, max_size >= 1 and the threshold is at
    most 1, one entry of importance 1 is in both buffers. *)
Theorem add_buffers_bounded `{Runtime}
    (max_size : nat) (importance_threshold : Q) (consolidation_interval : Z) :
  let fresh :=
    Memory.__init__ max_size importance_threshold consolidation_interval in
  (forall calls : list Memory.AddCall,
     (length (Memory.short_term (Memory.add_all calls fresh)) <= 100)%nat /\
     (length (Memory.long_term (Memory.add_all calls fresh)) <= max_size)%nat) /\
  (forall now entry_type data metadata sys importance,
     Memory._calculate_importance entry_type data = Ok importance ->
     (length (Memory.short_term sys) = 100%nat ->
      (100 < Memory.consolidation_interval sys)%Z ->
      Memory.short_term (Memory.add now entry_type data metadata sys) =
      drop 1 (Memory.short_term sys)
      ++ [entry_of now entry_type data metadata importance]) /\
     (length (Memory.long_term sys) = Memory.max_size sys ->
      (0 < Memory.max_size sys)%nat ->
      Memory.importance_threshold sys <= importance ->
      Memory.long_term (Memory.add now entry_type data metadata sys) =
      drop 1 (Memory.long_term sys)
      ++ [entry_of now entry_type data metadata importance])) /\
  ((100 < consolidation_interval)%Z ->
   forall (calls : list Memory.AddCall) (k : nat),
     Forall (below_threshold fresh) calls ->
     length calls = (100 + k)%nat ->
     length (Memory.short_term (Memory.add_all calls fresh)) = 100%nat /\
     Memory.long_term (Memory.add_all calls fresh) = []) /\
  ((1 < consolidation_interval)%Z -> (1 <= max_size)%nat ->
   importance_threshold <= 1 ->
   forall now entry_type data metadata importance,
     Memory._calculate_importance entry_type data = Ok importance ->
     importance == 1 ->
     Memory.short_term (Memory.add now entry_type data metadata fresh) =
       [entry_of now entry_type data metadata importance] /\
     Memory.long_term (Memory.add now entry_type data metadata fresh) =
       [entry_of now entry_type data metadata importance]).
Proof.
  intros fresh. split; [|split; [|split]].
  - intros calls.
    destruct (add_all_caps calls fresh) as [Hs Hl]; [cbn; lia..|].
    rewrite (proj1 (add_all_config calls fresh)) in Hl.
    split; [exact Hs | exact Hl].
  - intros now entry_type data metadata sys importance Himp. split.
    + intros Hlen Hint. apply add_evicts_oldest_short_term; assumption.
    + intros Hlen Hpos Hthr. apply add_evicts_oldest_long_term; assumption.
  - intros Hint calls k Hlow Hlen.
    destruct (add_all_below_threshold calls fresh) as [Hlong Hshort];
      [exact Hint | cbn; lia | exact Hlow |].
    split; [|exact Hlong].
    rewrite Hshort, Hlen. cbn. lia.
  - intros Hint Hmax Hthr now entry_type data metadata importance Himp Hone.
    apply add_important_entry; assumption.
Qed.

(** The default store after one trade of importance 1: the entry is in
    both buffers. *)
Lemma add_buffers_bounded_witness :
  exists importance,
    importance == 1 /\
    Memory.short_term
      (Memory.add (H := text_free_runtime) steady_clock "trade" big_win None
         Memory.default_system)
    = [entry_of steady_clock "trade" big_win None importance] /\
    Memory.long_term
      (Memory.add (H := text_free_runtime) steady_clock "trade" big_win None
         Memory.default_system)
    = [entry_of steady_clock "trade" big_win None importance].
Proof.
  eexists. split; [|
    apply (proj2 (proj2 (proj2
             (add_buffers_bounded (H := text_free_runtime) 1000 0.5 100))));
    [reflexivity | unfold lt; repeat constructor | vm_compute; discriminate
    | reflexivity | vm_compute; reflexivity]].
  vm_compute. reflexivity.
Defined.

(** ** Consolidation *)

Section ConsolidationFacts.

Context `{Runtime}.

(** A buffer of one entry is emptied: its group has one member, and
    only groups of more than one member put anything back. *)
Lemma _consolidate_memories_lone_entry
    (now : nat -> string) (sys : Memory.MemorySystem) (memory : Memory.MemoryEntry) :
  Memory.short_term sys = [memory] ->
  Memory.short_term (Memory._consolidate_memories now sys) = [].
Proof.
  intros Hbuf. unfold Memory._consolidate_memories. rewrite Hbuf. reflexivity.
Qed.

End ConsolidationFacts.

(** C3: the analysis is alone in its group; after consolidation the
    buffer holds the merged trade (mean size 200, importance 0.53) and
    nothing else: the solitary analysis is gone. *)
Theorem _consolidate_memories_drops_lone_entry :
  let after :=
    Memory._consolidate_memories (H := text_free_runtime) steady_clock
      mixed_buffer in
  filter (fun m => Memory.group_key (H := text_free_runtime) m
                   = Memory.group_key (H := text_free_runtime) lone_analysis)
         (Memory.short_term mixed_buffer) = [lone_analysis] /\
  (exists merged,
     Memory.short_term after = [merged] /\
     Memory.type merged = "trade" /\
     Memory.data merged !! "token" = Some (PyStr "BTC") /\
     (exists size, Memory.data merged !! "size" = Some (PyNum size) /\
                   size == 200) /\
     Memory.importance merged == 0.53) /\
  Forall (fun m => Memory.type m <> Memory.type lone_analysis)
    (Memory.short_term after) /\
  ~ In lone_analysis (Memory.short_term after).
Proof.
  cbv zeta. split; [vm_compute; reflexivity|]. split.
  - eexists. split; [vm_compute; reflexivity|].
    split; [reflexivity|]. split; [vm_compute; reflexivity|]. split.
    + eexists. split; [vm_compute; reflexivity|]. reflexivity.
    + reflexivity.
  - assert (Hall : Forall (fun m => Memory.type m <> Memory.type lone_analysis)
                     (Memory.short_term
                        (Memory._consolidate_memories (H := text_free_runtime)
                           steady_clock mixed_buffer))).
    { vm_compute. repeat constructor. discriminate. }
    split; [exact Hall|].
    intros Hin. rewrite Forall_forall in Hall.
    apply (Hall lone_analysis); [|reflexivity].
    apply list_elem_of_In. exact Hin.
Qed.

(** ** Relative strength index *)

Section SeriesFacts.

Lemma diff_length (s : list Q) : length (diff s) = length s.
Proof.
  destruct s as [|p rest]; [reflexivity|].
  cbn [diff length]. rewrite length_zip_with. cbn [length]. lia.
Qed.

Lemma diff_not_infinite (s : list Q) : Forall not_infinite (diff s).
Proof.
  destruct s as [|p rest]; [constructor|].
  cbn [diff]. constructor; [exact I|].
  apply Forall_forall. intros x Hx.
  apply list_elem_of_lookup in Hx as [i Hi].
  apply lookup_zip_with_Some in Hi as (a & b & -> & _ & _). exact I.
Qed.

Lemma rolling_mean_length (window : nat) (s : list float64) :
  length (rolling_mean window s) = length s.
Proof. apply length_imap. Qed.

(** The last rolling mean over a series long enough is the mean of its
    last [window] elements. *)
Lemma rolling_mean_last (window : nat) (s : list float64) :
  (1 <= window <= length s)%nat ->
  last (rolling_mean window s) =
  Some (window_mean (drop (length s - window) s)).
Proof.
  intros [Hw Hlen]. rewrite last_lookup, rolling_mean_length.
  unfold rolling_mean. rewrite list_lookup_imap.
  destruct (s !! Nat.pred (length s)) as [x|] eqn:Hx.
  - cbn [fmap option_fmap option_map]. f_equal.
    replace (S (Nat.pred (length s))) with (length s) by lia.
    destruct (Nat.ltb_spec (length s) window) as [Hlt|_]; [lia|].
    f_equal. apply take_ge. rewrite length_drop. lia.
  - apply lookup_ge_None in Hx. lia.
Qed.

(** On a series shorter than the window the last rolling mean is NaN. *)
Lemma rolling_mean_last_short (window : nat) (s : list float64) :
  (0 < length s < window)%nat ->
  last (rolling_mean window s) = Some NaN.
Proof.
  intros [Hpos Hlt]. rewrite last_lookup, rolling_mean_length.
  unfold rolling_mean. rewrite list_lookup_imap.
  destruct (s !! Nat.pred (length s)) as [x|] eqn:Hx.
  - cbn [fmap option_fmap option_map]. f_equal.
    replace (S (Nat.pred (length s))) with (length s) by lia.
    destruct (Nat.ltb_spec (length s) window) as [_|Hge]; [reflexivity|lia].
  - apply lookup_ge_None in Hx. lia.
Qed.

Lemma zip_with_last {A B C : Type} (f : A -> B -> C)
    (l : list A) (k : list B) (x : A) (y : B) :
  length l = length k -> last l = Some x -> last k = Some y ->
  last (zip_with f l k) = Some (f x y).
Proof.
  intros Hlen Hx Hy.
  rewrite last_lookup in Hx. rewrite last_lookup in Hy. rewrite last_lookup.
  rewrite length_zip_with, <- Hlen, Nat.min_id.
  apply lookup_zip_with_Some. exists x, y.
  split; [reflexivity|]. split; [exact Hx|]. rewrite Hlen. exact Hy.
Qed.

Lemma mapM_finite_value (l : list Q) :
  mapM finite_value (Finite <$> l) = Some l.
Proof.
  induction l as [|q l IH]; [reflexivity|].
  cbn. rewrite IH. reflexivity.
Qed.

Lemma window_mean_finite (q : Q) (l : list Q) :
  window_mean (Finite <$> (q :: l)) = Finite (sum (q :: l) / len (q :: l)).
Proof. unfold window_mean. rewrite mapM_finite_value. reflexivity. Qed.

Lemma foldl_Qplus_ge (l : list Q) (a : Q) :
  Forall (fun q => 0 <= q) l -> a <= foldl Qplus a l.
Proof.
  revert a. induction l as [|q l IH]; intros a Hall; cbn; [lra|].
  apply Forall_cons in Hall as [Hq Hall].
  specialize (IH (a + q) Hall). lra.
Qed.

Lemma foldl_Qplus_gt (l : list Q) (a : Q) :
  Forall (fun q => 0 <= q) l -> Exists (fun q => 0 < q) l ->
  a < foldl Qplus a l.
Proof.
  revert a. induction l as [|q l IH]; intros a Hall Hex; cbn.
  - inversion Hex.
  - apply Forall_cons in Hall as [Hq Hall].
    apply Exists_cons in Hex as [Hpos|Hex].
    + pose proof (foldl_Qplus_ge l (a + q) Hall). lra.
    + specialize (IH (a + q) Hall Hex). lra.
Qed.

Lemma len_pos {A : Type} (x : A) (l : list A) : 0 < len (x :: l).
Proof.
  unfold len. change 0 with (inject_Z 0). rewrite <- Zlt_Qlt.
  cbn [length]. lia.
Qed.

(** The mean of numbers that are not negative is not negative, and is
    positive when one of them is. *)
Lemma mean_nonneg (q : Q) (l : list Q) :
  Forall (fun q => 0 <= q) (q :: l) ->
  0 <= sum (q :: l) / len (q :: l) /\
  (Exists (fun q => 0 < q) (q :: l) -> 0 < sum (q :: l) / len (q :: l)).
Proof.
  intros Hall. pose proof (len_pos q l) as Hlen. split.
  - apply Qle_shift_div_l; [exact Hlen|].
    pose proof (foldl_Qplus_ge (q :: l) 0 Hall). unfold sum. lra.
  - intros Hex. apply Qlt_shift_div_l; [exact Hlen|].
    pose proof (foldl_Qplus_gt (q :: l) 0 Hall Hex). unfold sum. lra.
Qed.

End SeriesFacts.

Section RsiFacts.

Lemma where_gt0_gain (s : list float64) :
  Forall not_infinite s ->
  where_ gt0 (Finite 0) s = Finite <$> (gain_of <$> s).
Proof.
  intros Hs. unfold where_. rewrite <- list_fmap_compose.
  apply Forall_fmap_ext_1. eapply Forall_impl; [exact Hs|].
  intros [q| | |] Hx; try contradiction; cbn; [|reflexivity].
  destruct (Qltb 0 q); reflexivity.
Qed.

Lemma where_lt0_loss (s : list float64) :
  Forall not_infinite s ->
  fneg <$> where_ lt0 (Finite 0) s = Finite <$> (loss_of <$> s).
Proof.
  intros Hs. unfold where_. rewrite <- !list_fmap_compose.
  apply Forall_fmap_ext_1. eapply Forall_impl; [exact Hs|].
  intros [q| | |] Hx; try contradiction; cbn; [|reflexivity].
  destruct (Qltb q 0); reflexivity.
Qed.

Lemma gain_of_nonneg (d : float64) : 0 <= gain_of d.
Proof. destruct d as [q| | |]; cbn; split_cmp; lra. Qed.

Lemma loss_of_nonneg (d : float64) : 0 <= loss_of d.
Proof. destruct d as [q| | |]; cbn; split_cmp; lra. Qed.

Lemma gain_or_loss (q : Q) :
  ~ q == 0 -> 0 < gain_of (Finite q) \/ 0 < loss_of (Finite q).
Proof.
  intros Hq. cbn. split_cmp; try (left; lra); try (right; lra).
Qed.

Lemma rsi_of_within (gain loss : Q) :
  0 <= gain -> 0 <= loss -> 0 < gain \/ 0 < loss ->
  within 0 100 (rsi_of (Finite gain) (Finite loss)).
Proof.
  intros Hg Hl Hmove. unfold rsi_of.
  cbn [fdiv].
  destruct (Qeq_bool loss 0) eqn:El.
  - apply Qeq_bool_iff in El.
    assert (Hpos : 0 < gain) by (destruct Hmove; lra).
    apply Qltb_lt in Hpos. rewrite Hpos. cbn. lra.
  - apply Qeq_bool_neq in El.
    assert (Hlpos : 0 < loss).
    { destruct (Qlt_le_dec 0 loss) as [?|Hle]; [assumption|].
      exfalso. apply El. lra. }
    assert (Hrs : 0 <= gain / loss) by (apply Qle_shift_div_l; lra).
    revert Hrs. generalize (gain / loss). intros rs Hrs.
    cbn [fadd fdiv].
    destruct (Qeq_bool (1 + rs) 0) eqn:E1.
    + apply Qeq_bool_iff in E1. lra.
    + cbn.
      assert (H0 : 0 < 100 / (1 + rs)) by (apply Qlt_shift_div_l; lra).
      assert (H1 : 100 / (1 + rs) <= 100) by (apply Qle_shift_div_r; lra).
      lra.
Qed.

Lemma rsi_of_flat (gain loss : Q) :
  gain == 0 -> loss == 0 -> rsi_of (Finite gain) (Finite loss) = NaN.
Proof.
  intros Hg Hl. unfold rsi_of. cbn [fdiv].
  apply Qeq_bool_iff in Hl. rewrite Hl.
  assert (E1 : Qltb 0 gain = false) by (apply Qltb_ge; lra).
  assert (E2 : Qltb gain 0 = false) by (apply Qltb_ge; lra).
  rewrite E1, E2. reflexivity.
Qed.

Lemma rsi_of_nan_l (loss : float64) : rsi_of NaN loss = NaN.
Proof. reflexivity. Qed.

(** What [calculate_rsi] answers on a series that is not empty: the RSI
    of the last rolling means. *)
Lemma calculate_rsi_last (prices : list Q) (period : Z) (gain loss : float64) :
  (0 <= period)%Z ->
  let delta := diff prices in
  last (rolling_mean (Z.to_nat period) (where_ gt0 (Finite 0) delta))
    = Some gain ->
  last (rolling_mean (Z.to_nat period)
          (fneg <$> where_ lt0 (Finite 0) delta)) = Some loss ->
  calculate_rsi prices period = rsi_of gain loss.
Proof.
  intros Hp delta Hgain Hloss. unfold calculate_rsi.
  destruct (Z.ltb_spec period 0) as [Hneg|_]; [lia|].
  cbn [mbind result_bind]. fold delta.
  unfold iloc_last. rewrite fmap_last.
  rewrite (zip_with_last fdiv _ _ gain loss); [reflexivity| |exact Hgain|exact Hloss].
  rewrite !rolling_mean_length. unfold where_. rewrite !length_fmap.
  reflexivity.
Qed.

End RsiFacts.

Section RsiRange.

Lemma last_changes_length (prices : list Q) (period : Z) :
  (Z.to_nat period <= length prices)%nat ->
  length (last_changes prices period) = Z.to_nat period.
Proof.
  intros Hlen. unfold last_changes. rewrite length_drop, diff_length. lia.
Qed.

(** The last rolling means of the gains and of the losses. *)
Lemma calculate_rsi_means (prices : list Q) (period : Z) :
  (1 <= period)%Z -> (Z.to_nat period <= length prices)%nat ->
  exists d rest,
    last_changes prices period = d :: rest /\
    calculate_rsi prices period =
    rsi_of
      (Finite (sum (gain_of <$> d :: rest) / len (gain_of <$> d :: rest)))
      (Finite (sum (loss_of <$> d :: rest) / len (loss_of <$> d :: rest))).
Proof.
  intros Hp Hlen.
  pose proof (last_changes_length prices period Hlen) as Hw.
  destruct (last_changes prices period) as [|d rest] eqn:Hchanges;
    [cbn in Hw; lia|].
  exists d, rest. split; [reflexivity|].
  pose proof (diff_not_infinite prices) as Hfin.
  pose proof (diff_length prices) as Hdl.
  apply calculate_rsi_last; [lia| |].
  - rewrite (where_gt0_gain _ Hfin).
    rewrite rolling_mean_last by (rewrite !length_fmap; lia).
    rewrite !length_fmap, Hdl, <- !fmap_drop.
    fold (last_changes prices period). rewrite Hchanges.
    f_equal. rewrite (fmap_cons gain_of).
    apply (window_mean_finite (gain_of d) (gain_of <$> rest)).
  - rewrite (where_lt0_loss _ Hfin).
    rewrite rolling_mean_last by (rewrite !length_fmap; lia).
    rewrite !length_fmap, Hdl, <- !fmap_drop.
    fold (last_changes prices period). rewrite Hchanges.
    f_equal. rewrite (fmap_cons loss_of).
    apply (window_mean_finite (loss_of d) (loss_of <$> rest)).
Qed.

Lemma calculate_rsi_empty (period : Z) :
  calculate_rsi [] period = Finite 50.0.
Proof.
  unfold calculate_rsi. destruct (period <? 0)%Z; reflexivity.
Qed.

(** Fewer prices than the window, but at least one: the answer is NaN,
    not the fallback. *)
Lemma calculate_rsi_short (prices : list Q) (period : Z) :
  (0 < length prices < Z.to_nat period)%nat ->
  calculate_rsi prices period = NaN.
Proof.
  intros Hlen.
  pose proof (diff_length prices) as Hdl.
  rewrite (calculate_rsi_last prices period NaN NaN); [reflexivity|lia| |].
  - apply rolling_mean_last_short. unfold where_. rewrite length_fmap. lia.
  - apply rolling_mean_last_short. unfold where_.
    rewrite !length_fmap. lia.
Qed.

Lemma calculate_rsi_moving (prices : list Q) (period : Z) :
  (1 <= period)%Z -> (Z.to_nat period <= length prices)%nat ->
  Exists moved (last_changes prices period) ->
  within 0 100 (calculate_rsi prices period).
Proof.
  intros Hp Hlen Hmoved.
  destruct (calculate_rsi_means prices period Hp Hlen)
    as (d & rest & Hchanges & ->).
  rewrite Hchanges in Hmoved.
  assert (Hg : Forall (fun q => 0 <= q) (gain_of <$> d :: rest)).
  { apply Forall_fmap, Forall_forall. intros x _. apply gain_of_nonneg. }
  assert (Hl : Forall (fun q => 0 <= q) (loss_of <$> d :: rest)).
  { apply Forall_fmap, Forall_forall. intros x _. apply loss_of_nonneg. }
  rewrite (fmap_cons gain_of), (fmap_cons loss_of).
  destruct (mean_nonneg (gain_of d) (gain_of <$> rest)) as [Hg0 Hgpos];
    [rewrite <- fmap_cons; exact Hg|].
  destruct (mean_nonneg (loss_of d) (loss_of <$> rest)) as [Hl0 Hlpos];
    [rewrite <- fmap_cons; exact Hl|].
  apply rsi_of_within; [exact Hg0 | exact Hl0 |].
  apply Exists_exists in Hmoved as (x & Hin & q & -> & Hq).
  destruct (gain_or_loss q Hq) as [Hgain|Hloss].
  - left. apply Hgpos. rewrite <- fmap_cons.
    apply Exists_fmap, Exists_exists.
    exists (Finite q). split; [exact Hin | exact Hgain].
  - right. apply Hlpos. rewrite <- fmap_cons.
    apply Exists_fmap, Exists_exists.
    exists (Finite q). split; [exact Hin | exact Hloss].
Qed.

End RsiRange.

(** C5, as stated, fails: a single price gives NaN, neither 50.0 nor a
    value in [0, 100]; fourteen rising prices, fewer than period + 1,
    give 100; fifteen equal prices give NaN. *)
Lemma calculate_rsi_not_neutral :
  (length [100] < Z.to_nat (default_period + 1))%nat /\
  calculate_rsi [100] default_period = NaN /\
  calculate_rsi [100] default_period <> Finite 50.0 /\
  ~ within 0 100 (calculate_rsi [100] default_period) /\
  (length rising_prices < Z.to_nat (default_period + 1))%nat /\
  (exists rsi, calculate_rsi rising_prices default_period = Finite rsi /\
               rsi == 100 /\ ~ rsi == 50.0) /\
  calculate_rsi (replicate 15 100) default_period = NaN /\
  ~ within 0 100 (calculate_rsi (replicate 15 100) default_period).
Proof.
  split; [vm_compute; lia|].
  split; [reflexivity|].
  split; [discriminate|].
  split; [intros Hin; exact Hin|].
  split; [vm_compute; lia|].
  split.
  - eexists. split; [vm_compute; reflexivity|].
    split; [reflexivity | discriminate].
  - split; [vm_compute; reflexivity|].
    intros Hin. vm_compute in Hin. exact Hin.
Qed.

(** C5, amended: [calculate_rsi] answers exactly 50.0 on the empty
    series; on a series of at least [period] prices (period >= 1) with a
    price change other than zero among those of its last window, it
    answers a value in [0, 100]. *)
Theorem calculate_rsi_range (prices : list Q) (period : Z) :
  calculate_rsi [] period = Finite 50.0 /\
  ((1 <= period)%Z -> (Z.to_nat period <= length prices)%nat ->
   Exists moved (last_changes prices period) ->
   within 0 100 (calculate_rsi prices period)).
Proof.
  split; [apply calculate_rsi_empty | apply calculate_rsi_moving].
Qed.

(** Four prices and a window of two: the last changes are +2 and -1. *)
Lemma calculate_rsi_range_witness :
  within 0 100 (calculate_rsi [5; 1; 3; 2] 2).
Proof.
  apply (proj2 (calculate_rsi_range [5; 1; 3; 2] 2)).
  - lia.
  - cbn. lia.
  - apply Exists_cons_hd. exists (3 - 1). split; [reflexivity|].
    vm_compute. discriminate.
Defined.

(** ** Worked instances *)

(** The two boundaries: a strength of exactly 0.3 and of exactly -0.3
    both give HOLD. *)
Lemma generate_trading_signals_thresholds_witness :
  action (generate_trading_signals rising_macd risk_at_cap third_of_depth)
    = HOLD /\
  action (generate_trading_signals overbought calm_risk ∅) = HOLD.
Proof.
  split.
  - apply (proj1 (proj2 (proj2 (proj2
             (generate_trading_signals_thresholds rising_macd risk_at_cap
                third_of_depth))))).
    vm_compute. reflexivity.
  - apply (proj1 (proj2 (proj2 (proj2 (proj2
             (generate_trading_signals_thresholds overbought calm_risk ∅)))))).
    vm_compute. reflexivity.
Defined.

(** All four weights at once, computed without rounding error: the
    confidence is within the bound. *)
Lemma generate_trading_signals_confidence_range_witness :
  confidence
    (RoundedSignals.generate_trading_signals (fun x => x) bullish_technical
       calm_risk deep_liquidity)
  <= 1.2 + 16 * roundoff.
Proof.
  assert (Hid : rounds_to_nearest (fun x => x)).
  { split; [intros x y Hxy; exact Hxy|]. split; [reflexivity|].
    intros x _. unfold roundoff. apply Qabs_case; intros; lra. }
  apply (proj2 (proj2
           (generate_trading_signals_confidence_range (fun x => x)
              bullish_technical calm_risk deep_liquidity Hid))).
  - intros var Hvar. vm_compute in Hvar. injection Hvar as <-.
    vm_compute. discriminate.
  - intros depth Hdepth. vm_compute in Hdepth. injection Hdepth as <-.
    vm_compute. discriminate.
Defined.

(** A trade of size 5000 with a profit of 500 scores
    min(1, 0.5 + 0.3 + 0.2). *)
Lemma _calculate_importance_formula_witness :
  exists importance,
    Memory._calculate_importance (H := text_free_runtime) "trade" big_win
      = Ok importance /\
    importance ==
      Qmin 1 (0.5 + Qmin (Qabs 5000 / 10000) 0.3 + Qmin (Qabs 500 / 1000) 0.2) /\
    0.5 <= importance <= 1.
Proof.
  apply (proj1 (proj2
           (_calculate_importance_formula (H := text_free_runtime)
              "trade" big_win)));
    reflexivity.
Defined.

(** The first trade, a win: one trade counted and a win rate of
    (0 * (1 - 1) + 1) / 1. *)
Lemma _update_metrics_win_rate_in_unit_interval_witness :
  let m' :=
    (Memory._update_metrics (H := text_free_runtime)
       (Memory.metrics Memory.default_system) small_win).1 in
  let n := inject_Z (Z.of_nat (Memory.total_trades m')) in
  Memory.total_trades m' = 1%nat /\
  Memory.win_rate m' ==
    (Memory.win_rate (Memory.metrics Memory.default_system) * (n - 1)
     + (if Qltb 0 3 then 1 else 0)) / n.
Proof.
  apply (proj1 (proj2 (proj2 (proj2 (proj2
           (_update_metrics_win_rate_in_unit_interval
              (H := text_free_runtime) 1000 0.5 100)))))
           (Memory.metrics Memory.default_system) small_win (PyNum 3) 3);
    reflexivity.
Defined.

(** * Further properties of the code *)

(** ** What the long-term buffer holds *)

Section LongTermContents.

Context `{Runtime}.

Lemma deque_append_as_drop {A : Type} (maxlen : nat) (x : A) (d : list A) :
  deque_append maxlen x d = drop (length d + 1 - maxlen) (d ++ [x]).
Proof. unfold deque_append. rewrite length_app. reflexivity. Qed.

(** Extending a buffer within its capacity keeps the newest [maxlen]
    elements of the whole sequence. *)
Lemma deque_extend_as_drop {A : Type} (maxlen : nat) (xs d : list A) :
  (length d <= maxlen)%nat ->
  deque_extend maxlen xs d = drop (length d + length xs - maxlen) (d ++ xs).
Proof.
  unfold deque_extend. revert d.
  induction xs as [|x xs IH]; intros d Hd.
  - cbn [foldl length]. rewrite app_nil_r.
    replace (length d + 0 - maxlen)%nat with 0%nat by lia. reflexivity.
  - cbn [foldl]. rewrite IH by apply deque_append_le.
    rewrite deque_append_length, deque_append_as_drop. cbn [length].
    destruct (decide (length d + 1 <= maxlen)%nat) as [Hroom|Hfull].
    + replace (length d + 1 - maxlen)%nat with 0%nat by lia.
      rewrite drop_0, <- app_assoc. cbn [app].
      f_equal. lia.
    + assert (Hlen : length d = maxlen) by lia.
      replace (length d + 1 - maxlen)%nat with 1%nat by lia.
      replace (Nat.min maxlen (S (length d)) + length xs - maxlen)%nat
        with (length xs) by lia.
      replace (length d + S (length xs) - maxlen)%nat
        with (1 + length xs)%nat by lia.
      rewrite <- (drop_drop (d ++ x :: xs)). f_equal.
      rewrite <- (drop_app_le (d ++ [x]) xs 1)
        by (rewrite length_app; cbn; lia).
      rewrite <- app_assoc. reflexivity.
Qed.

Lemma add_all_long_term_extend
    (calls : list Memory.AddCall) (sys : Memory.MemorySystem) :
  Memory.long_term (Memory.add_all calls sys) =
  deque_extend (Memory.max_size sys)
    (important_entries (Memory.importance_threshold sys) calls)
    (Memory.long_term sys).
Proof.
  revert sys. induction calls as [|c calls IH]; intros sys; [reflexivity|].
  cbn [Memory.add_all foldl]. fold (Memory.add_all calls).
  set (sys1 := Memory.add (Memory.call_now c) (Memory.call_type c)
                 (Memory.call_data c) (Memory.call_metadata c) sys).
  specialize (IH sys1). unfold Memory.add_all in IH. rewrite IH.
  destruct (add_config (Memory.call_now c) (Memory.call_type c)
              (Memory.call_data c) (Memory.call_metadata c) sys)
    as (Hm & Ht & _).
  fold sys1 in Hm, Ht. rewrite Hm, Ht.
  unfold important_entries. cbn [omap list_omap].
  destruct (Memory._calculate_importance (Memory.call_type c)
              (Memory.call_data c)) as [importance|e] eqn:Himp.
  - unfold sys1. rewrite (add_long_term _ _ _ _ _ _ Himp).
    destruct (Qle_bool _ _); reflexivity.
  - unfold sys1, Memory.add. rewrite Himp. reflexivity.
Qed.

End LongTermContents.

(** X1: after any sequence of [add] calls on a fresh store, the
    long-term buffer is exactly the newest [max_size] of the entries
    whose importance reached the threshold, oldest first, whatever
    consolidation did to the short-term buffer in between. *)
Theorem add_all_long_term_contents `{Runtime}
    (max_size : nat) (importance_threshold : Q) (consolidation_interval : Z)
    (calls : list Memory.AddCall) :
  let important := important_entries importance_threshold calls in
  Memory.long_term
    (Memory.add_all calls
       (Memory.__init__ max_size importance_threshold consolidation_interval))
  = drop (length important - max_size) important.
Proof.
  cbv zeta. rewrite add_all_long_term_extend.
  cbn [Memory.__init__ Memory.max_size Memory.importance_threshold
       Memory.long_term].
  rewrite deque_extend_as_drop by (cbn; lia). reflexivity.
Qed.

(** ** The trade ledger *)

Section TradeLedger.

Context `{Runtime}.

Lemma _update_metrics_trades
    (m : Memory.Metrics) (trade_data : gmap string pyval) :
  Memory.trades (Memory._update_metrics m trade_data).1 =
  Memory.trades m ++ [trade_data].
Proof.
  unfold Memory._update_metrics.
  cbn [Memory.total_trades Memory.win_rate Memory.trades].
  match goal with
  | |- context [match ?w with Ok _ => _ | Raise _ => _ end] =>
      destruct w; [|reflexivity]
  end.
  match goal with
  | |- context [mapM ?f ?l] => destruct (mapM f l)
  end; reflexivity.
Qed.

Lemma recorded_trades_cons (c : Memory.AddCall) (calls : list Memory.AddCall) :
  recorded_trades (c :: calls) =
  if reaches_update_metrics c then c :: recorded_trades calls
  else recorded_trades calls.
Proof. reflexivity. Qed.

Lemma add_all_ledger (calls : list Memory.AddCall) (sys : Memory.MemorySystem) :
  Memory.trades (Memory.metrics (Memory.add_all calls sys)) =
    Memory.trades (Memory.metrics sys)
    ++ (Memory.call_data <$> recorded_trades calls) /\
  Memory.total_trades (Memory.metrics (Memory.add_all calls sys)) =
    (Memory.total_trades (Memory.metrics sys)
     + length (recorded_trades calls))%nat.
Proof.
  revert sys. induction calls as [|c calls IH]; intros sys.
  - cbn. rewrite app_nil_r. split; [reflexivity | lia].
  - cbn [Memory.add_all foldl].
    destruct (IH (Memory.add (Memory.call_now c) (Memory.call_type c)
                    (Memory.call_data c) (Memory.call_metadata c) sys))
      as [IHt IHn].
    unfold Memory.add_all in IHt, IHn.
    rewrite IHt, IHn, add_metrics.
    rewrite recorded_trades_cons. unfold reaches_update_metrics.
    destruct (Memory._calculate_importance (Memory.call_type c)
                (Memory.call_data c)) as [importance|e].
    + destruct (String.eqb (Memory.call_type c) "trade"); cbn [andb].
      * rewrite _update_metrics_trades, _update_metrics_total_trades.
        cbn [fmap list_fmap length]. rewrite <- app_assoc.
        split; [reflexivity | lia].
      * split; reflexivity.
    + rewrite andb_false_r. split; reflexivity.
Qed.

End TradeLedger.

(** X2: after any sequence of [add] calls on a fresh store, the trade
    ledger holds the data of exactly the trade entries whose importance
    could be computed, in the order of the calls, and [total_trades] is
    their number, whether or not [_update_metrics] raised on the way. *)
Theorem add_all_trade_ledger `{Runtime}
    (max_size : nat) (importance_threshold : Q) (consolidation_interval : Z)
    (calls : list Memory.AddCall) :
  let sys :=
    Memory.add_all calls
      (Memory.__init__ max_size importance_threshold consolidation_interval) in
  Memory.trades (Memory.metrics sys)
    = Memory.call_data <$> recorded_trades calls /\
  Memory.total_trades (Memory.metrics sys) = length (recorded_trades calls) /\
  Memory.total_trades (Memory.metrics sys)
    = length (Memory.trades (Memory.metrics sys)).
Proof.
  cbv zeta.
  destruct (add_all_ledger calls
              (Memory.__init__ max_size importance_threshold
                 consolidation_interval)) as [Ht Hn].
  rewrite Ht, Hn. cbn. rewrite length_fmap. repeat split; reflexivity.
Qed.

(** ** Recent memories *)

Section RecentFacts.

Lemma slice_from_suffix {A : Type} (start : Z) (l : list A) :
  exists k, MemoryQueries.slice_from start l = drop k l.
Proof. unfold MemoryQueries.slice_from. eexists. reflexivity. Qed.

End RecentFacts.

(** X3: [get_recent_memories] returns the newest [limit] entries of the
    short-term buffer for a positive [limit] (all of them when there are
    fewer), but the whole buffer for [limit = 0], and the buffer without
    its oldest [-limit] entries for a negative [limit]. *)
Theorem get_recent_memories_slice (sys : Memory.MemorySystem) (limit : Z) :
  let recent := MemoryQueries.get_recent_memories sys limit in
  let buffer := Memory.short_term sys in
  ((0 < limit)%Z ->
   recent = drop (length buffer - Z.to_nat limit) buffer /\
   length recent = Nat.min (Z.to_nat limit) (length buffer)) /\
  (limit = 0%Z -> recent = buffer) /\
  ((limit < 0)%Z -> recent = drop (Z.to_nat (- limit)) buffer).
Proof.
  cbv zeta. unfold MemoryQueries.get_recent_memories, MemoryQueries.slice_from.
  split; [|split].
  - intros Hpos.
    destruct (Z.ltb_spec (- limit) 0) as [_|Hge]; [|lia].
    assert (E : Z.to_nat (Z.max 0 (- limit + Z.of_nat (length (Memory.short_term sys))))
                = (length (Memory.short_term sys) - Z.to_nat limit)%nat) by lia.
    rewrite E. split; [reflexivity|]. rewrite length_drop. lia.
  - intros ->. cbn. rewrite Z.min_l by lia. reflexivity.
  - intros Hneg.
    destruct (Z.ltb_spec (- limit) 0) as [Hlt|_]; [lia|].
    destruct (Z.min_spec (- limit) (Z.of_nat (length (Memory.short_term sys))))
      as [[_ ->]|[Hle ->]]; [reflexivity|].
    rewrite Nat2Z.id, !drop_ge by lia. reflexivity.
Qed.

(** Asking for the two newest of three entries, and for none. *)
Lemma get_recent_memories_slice_witness :
  MemoryQueries.get_recent_memories mixed_buffer 2
    = [first_trade; second_trade] /\
  MemoryQueries.get_recent_memories mixed_buffer 0
    = [lone_analysis; first_trade; second_trade].
Proof.
  split.
  - apply (proj1 (proj1 (get_recent_memories_slice mixed_buffer 2)
                    ltac:(reflexivity))).
  - apply (proj1 (proj2 (get_recent_memories_slice mixed_buffer 0))
             eq_refl).
Defined.

(** ** What consolidation leaves *)

Section ConsolidationShape.

Context `{Runtime}.

Lemma group_add_length
    (key : string) (memory : Memory.MemoryEntry)
    (groups : list (string * list Memory.MemoryEntry)) :
  (length (Memory.group_add key memory groups) <= S (length groups))%nat.
Proof.
  induction groups as [|[k g] groups IH]; cbn; [lia|].
  destruct (String.eqb k key); cbn; lia.
Qed.

Lemma groups_of_length (buffer : list Memory.MemoryEntry) :
  (length (groups_of buffer) <= length buffer)%nat.
Proof.
  unfold groups_of.
  assert (Hgen : forall groups,
            (length (foldl (fun groups memory =>
                       Memory.group_add (Memory.group_key memory) memory groups)
                     groups buffer)
             <= length groups + length buffer)%nat).
  { induction buffer as [|m buffer IH]; intros groups; cbn; [lia|].
    specialize (IH (Memory.group_add (Memory.group_key m) m groups)).
    pose proof (group_add_length (Memory.group_key m) m groups). lia. }
  apply (Hgen []).
Qed.

Lemma consolidate_groups_cons
    (now : nat -> string) (group : list Memory.MemoryEntry)
    (groups : list (list Memory.MemoryEntry))
    (consolidated : list Memory.MemoryEntry) :
  Memory.consolidate_groups now (group :: groups) consolidated =
  if (1 <? length group)%nat then
    consolidated_data ← Memory._merge_memory_data group;
    importance ← Memory.max_of (Memory.importance <$> group);
    first ← match group with
            | m :: _ => Ok m
            | [] => Raise IndexError
            end;
    Memory.consolidate_groups now groups
      (consolidated ++
       [{| Memory.timestamp := now (length consolidated);
           Memory.type := Memory.type first;
           Memory.data := consolidated_data;
           Memory.importance := importance;
           Memory.metadata := None |}])
  else Memory.consolidate_groups now groups consolidated.
Proof. reflexivity. Qed.

Lemma consolidate_groups_length
    (now : nat -> string) (groups : list (list Memory.MemoryEntry))
    (consolidated out : list Memory.MemoryEntry) :
  Memory.consolidate_groups now groups consolidated = Ok out ->
  (length consolidated <= length out <= length consolidated + length groups)%nat.
Proof.
  revert consolidated. induction groups as [|g groups IH];
    intros consolidated Hrun.
  - injection Hrun as <-. cbn. lia.
  - rewrite consolidate_groups_cons in Hrun.
    destruct (1 <? length g)%nat.
    + destruct (Memory._merge_memory_data g) as [d|e]; [|discriminate].
      destruct (Memory.max_of (Memory.importance <$> g)) as [i|e];
        [|discriminate].
      cbn [mbind result_bind] in Hrun.
      destruct g as [|m g']; [discriminate|].
      apply IH in Hrun. rewrite length_app in Hrun.
      cbn [length] in *. lia.
    + apply IH in Hrun. cbn [length]. lia.
Qed.

End ConsolidationShape.

(** X4: [_consolidate_memories] never makes the short-term buffer
    longer, whether it merges or gives up on an error, and leaves the
    long-term buffer, the metrics and the configuration as they were. *)
Theorem _consolidate_memories_shrinks `{Runtime}
    (now : nat -> string) (sys : Memory.MemorySystem) :
  let after := Memory._consolidate_memories now sys in
  (length (Memory.short_term after) <= length (Memory.short_term sys))%nat /\
  Memory.long_term after = Memory.long_term sys /\
  Memory.metrics after = Memory.metrics sys /\
  Memory.max_size after = Memory.max_size sys /\
  Memory.importance_threshold after = Memory.importance_threshold sys /\
  Memory.consolidation_interval after = Memory.consolidation_interval sys.
Proof.
  cbv zeta.
  destruct (_consolidate_memories_frame now sys) as (Hm & Hl & Hs & Ht & Hc).
  split; [|repeat split; assumption].
  unfold Memory._consolidate_memories. fold (groups_of (Memory.short_term sys)).
  destruct (Memory.consolidate_groups now (snd <$> groups_of (Memory.short_term sys)) [])
    as [out|e] eqn:Hrun; cbn [mbind result_bind mret result_ret try_except];
    [|lia].
  cbn [Memory.short_term Memory.set_short_term].
  apply consolidate_groups_length in Hrun.
  rewrite length_fmap in Hrun. cbn in Hrun.
  pose proof (groups_of_length (Memory.short_term sys)).
  rewrite deque_extend_as_drop by (cbn; lia).
  rewrite length_drop. cbn. lia.
Qed.

Section GroupFacts.

Context `{Runtime}.

Lemma alist_get_group_add_eq
    (key : string) (memory : Memory.MemoryEntry)
    (groups : list (string * list Memory.MemoryEntry)) :
  alist_get key (Memory.group_add key memory groups) =
  Some (default [] (alist_get key groups) ++ [memory]).
Proof.
  induction groups as [|[k g] groups IH]; cbn.
  - rewrite String.eqb_refl. reflexivity.
  - destruct (String.eqb k key) eqn:E; cbn; rewrite E; [reflexivity|].
    exact IH.
Qed.

Lemma alist_get_group_add_ne
    (key other : string) (memory : Memory.MemoryEntry)
    (groups : list (string * list Memory.MemoryEntry)) :
  other <> key ->
  alist_get other (Memory.group_add key memory groups) = alist_get other groups.
Proof.
  intros Hne. induction groups as [|[k g] groups IH]; cbn.
  - destruct (String.eqb_spec key other); [congruence | reflexivity].
  - destruct (String.eqb_spec k key) as [->|Hk]; cbn.
    + destruct (String.eqb_spec key other); [congruence | reflexivity].
    + destruct (String.eqb k other); [reflexivity | exact IH].
Qed.

Lemma group_add_keys
    (key : string) (memory : Memory.MemoryEntry)
    (groups : list (string * list Memory.MemoryEntry)) :
  NoDup groups.*1 -> NoDup (Memory.group_add key memory groups).*1 /\
  forall k, k ∈ (Memory.group_add key memory groups).*1 ->
            k = key \/ k ∈ groups.*1.
Proof.
  induction groups as [|[k g] groups IH]; cbn; intros Hnd.
  - split; [apply NoDup_singleton|].
    intros k Hk. apply list_elem_of_singleton in Hk. left. exact Hk.
  - apply NoDup_cons in Hnd as [Hk Hnd].
    destruct (String.eqb_spec k key) as [->|Hne]; cbn.
    + split; [apply NoDup_cons; split; assumption|].
      intros k' Hin. right. exact Hin.
    + destruct (IH Hnd) as [IHnd IHin]. split.
      * apply NoDup_cons. split; [|exact IHnd].
        intros Hin. apply IHin in Hin as [->|Hin]; [congruence|contradiction].
      * intros k' Hin. apply elem_of_cons in Hin as [->|Hin].
        -- right. apply elem_of_cons. left. reflexivity.
        -- apply IHin in Hin as [->|Hin]; [left; reflexivity|].
           right. apply elem_of_cons. right. exact Hin.
Qed.

Lemma alist_get_elem_of {A : Type} (key : string) (v : A) (l : list (string * A)) :
  NoDup l.*1 -> (key, v) ∈ l -> alist_get key l = Some v.
Proof.
  induction l as [|[k w] l IH]; cbn; intros Hnd Hin;
    [apply elem_of_nil in Hin; contradiction|].
  apply NoDup_cons in Hnd as [Hk Hnd].
  apply elem_of_cons in Hin as [[= <- <-]|Hin].
  - rewrite String.eqb_refl. reflexivity.
  - destruct (String.eqb_spec k key) as [->|_]; [|apply IH; assumption].
    exfalso. apply Hk. apply list_elem_of_fmap. exists (key, v).
    split; [reflexivity | exact Hin].
Qed.

Lemma groups_of_snoc (buffer : list Memory.MemoryEntry) (memory : Memory.MemoryEntry) :
  groups_of (buffer ++ [memory]) =
  Memory.group_add (Memory.group_key memory) memory (groups_of buffer).
Proof. unfold groups_of. rewrite foldl_app. reflexivity. Qed.

(** The groups are the classes of the buffer under [group_key], each
    in buffer order, and every key is filed once. *)
Lemma groups_of_spec (buffer : list Memory.MemoryEntry) :
  NoDup (groups_of buffer).*1 /\
  forall key,
    alist_get key (groups_of buffer) =
    match members_of key buffer with
    | [] => None
    | members => Some members
    end.
Proof.
  induction buffer as [|memory buffer IH] using rev_ind.
  - split; [constructor | reflexivity].
  - destruct IH as [IHnd IHget]. rewrite groups_of_snoc. split.
    + apply group_add_keys. exact IHnd.
    + intros key. unfold members_of. rewrite filter_app.
      fold (members_of key buffer).
      destruct (decide (key = Memory.group_key memory)) as [->|Hne].
      * rewrite alist_get_group_add_eq, IHget.
        rewrite filter_cons_True by reflexivity. rewrite filter_nil.
        destruct (members_of (Memory.group_key memory) buffer); reflexivity.
      * rewrite alist_get_group_add_ne by exact Hne. rewrite IHget.
        rewrite filter_cons_False by congruence. rewrite filter_nil, app_nil_r.
        reflexivity.
Qed.

Lemma groups_of_members (buffer : list Memory.MemoryEntry)
    (group : list Memory.MemoryEntry) :
  group ∈ (groups_of buffer).*2 ->
  exists key, group = members_of key buffer.
Proof.
  intros Hin. apply list_elem_of_fmap in Hin as ([key g] & -> & Hin).
  destruct (groups_of_spec buffer) as [Hnd Hget].
  pose proof (alist_get_elem_of key g _ Hnd Hin) as Hg.
  rewrite Hget in Hg. exists key. cbn.
  destruct (members_of key buffer); congruence.
Qed.

Lemma foldl_max_spec (l : list Q) (x : Q) :
  (foldl max x l = x \/ foldl max x l ∈ l) /\
  x <= foldl max x l /\
  Forall (fun y => y <= foldl max x l) l.
Proof.
  revert x. induction l as [|y l IH]; intros x; cbn.
  - split; [left; reflexivity|]. split; [lra | constructor].
  - destruct (IH (max x y)) as (Hmem & Hge & Hall).
    destruct (max_cases x y) as [[Hlt E]|[Hle E]]; rewrite E in *.
    + split.
      * right. apply elem_of_cons.
        destruct Hmem as [->|Hin]; [left; reflexivity | right; exact Hin].
      * split; [lra|]. constructor; [exact Hge | exact Hall].
    + split.
      * destruct Hmem as [->|Hin]; [left; reflexivity|].
        right. apply elem_of_cons. right. exact Hin.
      * split; [exact Hge|]. constructor; [lra | exact Hall].
Qed.

Lemma max_of_spec (l : list Q) (x : Q) :
  Memory.max_of l = Ok x -> x ∈ l /\ Forall (fun y => y <= x) l.
Proof.
  destruct l as [|y l]; cbn; [discriminate|]. intros [= <-].
  destruct (foldl_max_spec l y) as (Hmem & Hge & Hall). split.
  - apply elem_of_cons.
    destruct Hmem as [->|Hin]; [left; reflexivity | right; exact Hin].
  - constructor; assumption.
Qed.

(** A successful run of the loop appends one merged entry for each
    group of more than one member, and nothing else. *)
Lemma consolidate_groups_merged
    (now : nat -> string) (groups : list (list Memory.MemoryEntry))
    (consolidated out : list Memory.MemoryEntry) :
  Memory.consolidate_groups now groups consolidated = Ok out ->
  exists extra,
    out = consolidated ++ extra /\
    Forall (fun e => exists group, group ∈ groups /\ merged_from group e) extra.
Proof.
  revert consolidated. induction groups as [|g groups IH];
    intros consolidated Hrun.
  - injection Hrun as <-. exists []. rewrite app_nil_r. split; constructor.
  - rewrite consolidate_groups_cons in Hrun.
    destruct (Nat.ltb_spec 1 (length g)) as [Hlen|_].
    + destruct (Memory._merge_memory_data g) as [d|e] eqn:Hd; [|discriminate].
      destruct (Memory.max_of (Memory.importance <$> g)) as [i|e] eqn:Hi;
        [|discriminate].
      cbn [mbind result_bind] in Hrun.
      destruct g as [|first rest]; [discriminate|].
      apply IH in Hrun as (extra & -> & Hall).
      eexists (_ :: extra). rewrite <- app_assoc. split; [reflexivity|].
      constructor.
      * exists (first :: rest).
        split; [apply elem_of_cons; left; reflexivity|].
        apply max_of_spec in Hi as [Hin Hmax].
        apply list_elem_of_fmap in Hin as (m & Him & Hm).
        repeat split; cbn.
        -- exact Hlen.
        -- exists first, rest. split; reflexivity.
        -- exact Hd.
        -- exists m. split; assumption.
        -- apply Forall_forall. intros x Hx.
           pose proof (proj1 (Forall_forall _ _) Hmax) as Hle.
           apply Hle. apply list_elem_of_fmap_2. exact Hx.
      * eapply Forall_impl; [exact Hall|].
        intros e (group & Hin & Hm). exists group.
        split; [apply elem_of_cons; right; exact Hin | exact Hm].
    + apply IH in Hrun as (extra & -> & Hall). exists extra.
      split; [reflexivity|].
      eapply Forall_impl; [exact Hall|].
      intros e (group & Hin & Hm). exists group.
      split; [apply elem_of_cons; right; exact Hin | exact Hm].
Qed.

End GroupFacts.

(** X5: [_consolidate_memories] either gives up and leaves the store as
    it was, or leaves a buffer in which every entry stands for the
    entries that shared one group key, at least two of them: it has the
    type of the first of them, their merged data, the largest of their
    importances (that of one of them) and no metadata. *)
Theorem _consolidate_memories_merges_groups `{Runtime}
    (now : nat -> string) (sys : Memory.MemorySystem) :
  let after := Memory._consolidate_memories now sys in
  after = sys \/
  Forall (fun e => exists key,
            merged_from (members_of key (Memory.short_term sys)) e)
    (Memory.short_term after).
Proof.
  cbv zeta. unfold Memory._consolidate_memories.
  fold (groups_of (Memory.short_term sys)).
  destruct (Memory.consolidate_groups now
              (groups_of (Memory.short_term sys)).*2 [])
    as [out|e] eqn:Hrun; cbn [mbind result_bind mret result_ret try_except];
    [right | left; reflexivity].
  cbn [Memory.short_term Memory.set_short_term].
  apply consolidate_groups_merged in Hrun as (extra & -> & Hall).
  cbn [app]. rewrite deque_extend_as_drop by (cbn; lia).
  cbn [app]. apply Forall_drop.
  eapply Forall_impl; [exact Hall|].
  intros e (group & Hin & Hm).
  apply groups_of_members in Hin as [key ->]. exists key. exact Hm.
Qed.

(** ** Merged data *)

Section MergeFacts.

(** The inner loop of [_merge_memory_data] over the items of one entry. *)
Lemma merge_items_raise (data : gmap string pyval) (e : exn) :
  map_fold (fun key value acc =>
              merged ← acc; Memory.merge_item key value merged)
           (Raise e) data = Raise e.
Proof.
  apply (map_fold_weak_ind (fun acc _ => acc = Raise e)); [reflexivity|].
  intros key value m acc _ ->. reflexivity.
Qed.

Lemma merge_item_lookup
    (key : string) (value : pyval) (merged merged' : gmap string Memory.merged_value) :
  Memory.merge_item key value merged = Ok merged' ->
  slot_step (merged !! key) (Some value) = Ok (merged' !! key) /\
  forall other, other <> key -> merged' !! other = merged !! other.
Proof.
  unfold Memory.merge_item, slot_step.
  destruct value as [q|s|].
  - destruct (merged !! key) as [[first rest|v]|]; intros [= <-];
      (split; [rewrite lookup_insert_eq; reflexivity|]);
      intros other Hne; apply lookup_insert_ne; congruence.
  - intros [= <-]. split; [rewrite lookup_insert_eq; reflexivity|].
    intros other Hne. apply lookup_insert_ne. congruence.
  - intros [= <-]. split; [rewrite lookup_insert_eq; reflexivity|].
    intros other Hne. apply lookup_insert_ne. congruence.
Qed.

Lemma merge_items_lookup
    (data : gmap string pyval) (merged merged' : gmap string Memory.merged_value) :
  map_fold (fun key value acc =>
              merged ← acc; Memory.merge_item key value merged)
           (Ok merged) data = Ok merged' ->
  forall key, slot_step (merged !! key) (data !! key) = Ok (merged' !! key).
Proof.
  revert merged'.
  apply (map_fold_weak_ind
           (fun acc data =>
              forall merged', acc = Ok merged' ->
              forall key,
                slot_step (merged !! key) (data !! key) = Ok (merged' !! key))).
  - intros merged' [= <-] key. rewrite lookup_empty. reflexivity.
  - intros i x m acc Hi IH merged' Hacc key.
    destruct acc as [merged0|e]; [|discriminate].
    cbn [mbind result_bind] in Hacc.
    apply merge_item_lookup in Hacc as [Hslot Hother].
    specialize (IH merged0 eq_refl).
    destruct (decide (key = i)) as [->|Hne].
    + rewrite lookup_insert_eq. rewrite <- Hslot.
      specialize (IH i). rewrite Hi in IH. cbn in IH.
      injection IH as ->. reflexivity.
    + rewrite lookup_insert_ne by congruence.
      rewrite Hother by exact Hne. apply IH.
Qed.

Lemma slot_of_raise (key : string) (memories : list Memory.MemoryEntry) (e : exn) :
  foldl (fun acc memory =>
           slot ← acc; slot_step slot (Memory.data memory !! key))
        (Raise e) memories = Raise e.
Proof. induction memories as [|m memories IH]; [reflexivity | exact IH]. Qed.

Lemma slot_of_cons
    (key : string) (memory : Memory.MemoryEntry)
    (memories : list Memory.MemoryEntry) (slot : option Memory.merged_value) :
  slot_of key (memory :: memories) slot =
  match slot_step slot (Memory.data memory !! key) with
  | Ok slot' => slot_of key memories slot'
  | Raise e => Raise e
  end.
Proof.
  unfold slot_of. cbn [foldl mbind result_bind].
  destruct (slot_step slot (Memory.data memory !! key));
    [reflexivity | apply slot_of_raise].
Qed.

Lemma merge_memories_lookup
    (memories : list Memory.MemoryEntry)
    (merged merged' : gmap string Memory.merged_value) :
  foldl (fun acc memory =>
           map_fold (fun key value acc =>
                       merged ← acc; Memory.merge_item key value merged)
                    acc (Memory.data memory))
        (Ok merged) memories = Ok merged' ->
  forall key, slot_of key memories (merged !! key) = Ok (merged' !! key).
Proof.
  revert merged. induction memories as [|m memories IH]; intros merged Hrun key.
  - injection Hrun as <-. reflexivity.
  - cbn [foldl] in Hrun. rewrite slot_of_cons.
    destruct (map_fold (fun key value acc =>
                          merged ← acc; Memory.merge_item key value merged)
                       (Ok merged) (Memory.data m)) as [merged1|e] eqn:Hm.
    + rewrite (merge_items_lookup _ _ _ Hm key).
      apply (IH merged1 Hrun key).
    + exfalso. revert Hrun. clear.
      induction memories as [|m' memories IH]; [discriminate|].
      cbn [foldl]. rewrite merge_items_raise. exact IH.
Qed.

Lemma slot_of_numbers
    (key : string) (memories : list Memory.MemoryEntry) (values : list Q)
    (first : Q) (rest : list Q) :
  Forall2 (fun m q => Memory.data m !! key = Some (PyNum q)) memories values ->
  slot_of key memories (Some (Memory.Collected first rest)) =
  Ok (Some (Memory.Collected first (rest ++ values))).
Proof.
  intros Hall. revert rest.
  induction Hall as [|m q memories values Hm _ IH]; intros rest.
  - unfold slot_of. cbn. rewrite app_nil_r. reflexivity.
  - rewrite slot_of_cons, Hm. cbn [slot_step].
    rewrite IH, <- app_assoc. reflexivity.
Qed.

End MergeFacts.

(** X6: when [_merge_memory_data] returns, a key under which every
    entry of the group holds a number maps to the mean of those
    numbers, and a key that no entry holds is absent. *)
Theorem _merge_memory_data_mean
    (memories : list Memory.MemoryEntry) (merged : gmap string pyval)
    (key : string) :
  Memory._merge_memory_data memories = Ok merged ->
  (forall values,
     memories <> [] ->
     Forall2 (fun m q => Memory.data m !! key = Some (PyNum q))
       memories values ->
     merged !! key = Some (PyNum (sum values / len values))) /\
  (Forall (fun m => Memory.data m !! key = None) memories ->
   merged !! key = None).
Proof.
  unfold Memory._merge_memory_data. intros Hrun.
  match type of Hrun with
  | mbind _ ?c = _ => destruct c as [slots|e] eqn:Hslots; [|discriminate]
  end.
  cbn [mbind result_bind mret result_ret] in Hrun. injection Hrun as <-.
  pose proof (merge_memories_lookup _ _ _ Hslots key) as Hkey.
  rewrite lookup_empty in Hkey. rewrite lookup_fmap. split.
  - intros values Hne Hall.
    destruct Hall as [|m q memories values Hm Hall]; [contradiction|].
    rewrite slot_of_cons, Hm in Hkey. cbn [slot_step] in Hkey.
    rewrite (slot_of_numbers key memories values q [] Hall) in Hkey.
    injection Hkey as <-. reflexivity.
  - intros Hnone.
    assert (Hslot : slot_of key memories None = Ok None).
    { clear Hkey Hslots. induction Hnone as [|m memories Hm _ IH];
        [reflexivity|].
      rewrite slot_of_cons, Hm. exact IH. }
    rewrite Hslot in Hkey. injection Hkey as <-. reflexivity.
Qed.

(** The two BTC trades merge to a size of (100 + 300) / 2. *)
Lemma _merge_memory_data_mean_witness :
  exists merged,
    Memory._merge_memory_data [first_trade; second_trade] = Ok merged /\
    merged !! "size" = Some (PyNum (sum [100; 300] / len [100; 300])).
Proof.
  eexists. split; [vm_compute; reflexivity|].
  refine (proj1 (_merge_memory_data_mean [first_trade; second_trade] _
                   "size" _) [100; 300] _ _).
  - vm_compute. reflexivity.
  - discriminate.
  - repeat constructor.
Defined.

(** ** Liquidity risk *)

(** X7: [calculate_liquidity_risk] never exceeds 1; it is
    min(1, liquidity / volume) for a positive volume, hence in [0, 1]
    when the liquidity is not negative and negative when it is; and it
    is 1 when the volume is not positive or a field does not convert. *)
Theorem calculate_liquidity_risk_range `{Runtime} (metrics : gmap string pyval) :
  let risk := MarketIndicators.calculate_liquidity_risk metrics in
  risk <= 1 /\
  (forall volume liquidity,
     float (dict_get metrics "volume" (PyNum 0)) = Ok volume ->
     float (dict_get metrics "liquidity" (PyNum 0)) = Ok liquidity ->
     (0 < volume ->
      risk == Qmin 1 (liquidity / volume) /\
      (0 <= liquidity -> 0 <= risk) /\
      (liquidity < 0 -> risk < 0)) /\
     (volume <= 0 -> risk == 1)) /\
  ((forall volume,
      float (dict_get metrics "volume" (PyNum 0)) <> Ok volume) \/
   (forall liquidity,
      float (dict_get metrics "liquidity" (PyNum 0)) <> Ok liquidity) ->
   risk == 1).
Proof.
  cbv zeta. unfold MarketIndicators.calculate_liquidity_risk.
  destruct (float (dict_get metrics "volume" (PyNum 0))) as [volume|e1];
    [destruct (float (dict_get metrics "liquidity" (PyNum 0)))
       as [liquidity|e2]|];
    cbn [mbind result_bind mret result_ret try_except].
  - destruct (Qltb 0 volume) eqn:Ev;
      [apply Qltb_lt in Ev | apply Qltb_ge in Ev];
      cbn [try_except mret result_ret].
    + assert (Hr1 : 0 <= liquidity -> 0 <= liquidity / volume)
        by (intros; apply Qle_shift_div_l; lra).
      assert (Hr2 : liquidity < 0 -> liquidity / volume < 0)
        by (intros; apply Qlt_shift_div_r; lra).
      split; [pose proof (min_le_l 1.0 (liquidity / volume)); lra|]. split.
      * intros v l [= <-] [= <-]. split; [intros _ | intros; lra].
        split; [rewrite min_Qmin; apply Q.min_compat; reflexivity|].
        revert Hr1 Hr2. generalize (liquidity / volume). intros r Hr1 Hr2.
        split; intros Hl;
          [specialize (Hr1 Hl) | specialize (Hr2 Hl)]; split_cmp; lra.
      * intros [Hno|Hno]; exfalso; eapply Hno; reflexivity.
    + split; [lra|]. split.
      * intros v l [= <-] [= <-]. split; [intros; lra | intros _; reflexivity].
      * intros [Hno|Hno]; exfalso; eapply Hno; reflexivity.
  - split; [lra|]. split; [intros v l _ [=]|]. intros _. reflexivity.
  - split; [lra|]. split; [intros v l [=]|]. intros _. reflexivity.
Qed.

(** A volume of 200 against a liquidity of 50: a risk of 50 / 200. *)
Lemma calculate_liquidity_risk_range_witness :
  MarketIndicators.calculate_liquidity_risk (H := text_free_runtime) thin_market
  == Qmin 1 (50 / 200).
Proof.
  apply (proj1 (proj2 (calculate_liquidity_risk_range
                         (H := text_free_runtime) thin_market)) 200 50);
    reflexivity.
Defined.

(** ** Backtest trades *)

Section BacktestFacts.

Lemma set_balance_solvent (p : Backtester.Portfolio) (token : string) (b : Q) :
  solvent p -> 0 <= b -> solvent (Backtester.set_balance p token b).
Proof.
  intros [Hc Ht] Hb. split; [exact Hc|]. cbn. intros t bal Hlook.
  destruct (decide (t = token)) as [->|Hne].
  - rewrite lookup_insert_eq in Hlook. injection Hlook as <-. exact Hb.
  - rewrite lookup_insert_ne in Hlook by congruence. eapply Ht. exact Hlook.
Qed.

End BacktestFacts.

(** X8: a backtest portfolio with no overdraft and no short balance
    stays so through [execute_trade] at a price that is not negative,
    whatever the token, action and quantity, also when the call raises. *)
Theorem execute_trade_keeps_solvent
    (now : string) (portfolio : Backtester.Portfolio)
    (token action : string) (quantity current_price : Q) :
  solvent portfolio -> 0 <= current_price ->
  solvent
    (Backtester.execute_trade now portfolio token action quantity
       current_price).1.
Proof.
  intros Hsolvent Hprice. pose proof Hsolvent as [Hcash Htokens].
  unfold Backtester.execute_trade.
  destruct (Qle_bool quantity 0) eqn:Eq; [exact Hsolvent|].
  assert (Hq : 0 < quantity).
  { destruct (Qlt_le_dec 0 quantity) as [?|Hle]; [assumption|].
    apply Qle_bool_iff in Hle. congruence. }
  assert (Hcost : 0 <= quantity * current_price) by nra.
  cbv zeta. destruct (String.eqb action "buy").
  - destruct (Qle_bool (quantity * current_price) (Backtester.cash portfolio))
      eqn:Ec; [|exact Hsolvent].
    apply Qle_bool_iff in Ec.
    assert (Hdebited : solvent
              (Backtester.set_cash portfolio
                 (Backtester.cash portfolio - quantity * current_price))).
    { split; [cbn; lra | exact Htokens]. }
    cbn [Backtester.set_cash Backtester.tokens].
    destruct (Backtester.tokens portfolio !! token) as [balance|] eqn:Eb;
      cbn [fst]; [|exact Hdebited].
    apply set_balance_solvent; [exact Hdebited|].
    specialize (Htokens token balance Eb). lra.
  - destruct (String.eqb action "sell"); [|exact Hsolvent].
    destruct (Backtester.tokens portfolio !! token) as [balance|] eqn:Eb;
      [|exact Hsolvent].
    destruct (Qle_bool quantity balance) eqn:Es; [|exact Hsolvent].
    apply Qle_bool_iff in Es. cbn [fst].
    apply set_balance_solvent; [|lra].
    split; [cbn; lra | exact Htokens].
Qed.

(** Selling 2 of the 5 SOL at 10 leaves a solvent book. *)
Lemma execute_trade_keeps_solvent_witness :
  solvent (Backtester.execute_trade "2024-01-01T00:00:00" sol_book "SOL"
             "sell" 2 10).1.
Proof.
  apply execute_trade_keeps_solvent.
  - split; [vm_compute; discriminate|].
    intros token balance Hlook.
    destruct (decide (token = "SOL")) as [->|Hne].
    + vm_compute in Hlook. injection Hlook as <-. vm_compute. discriminate.
    + unfold sol_book in Hlook. cbn in Hlook.
      rewrite lookup_singleton_ne in Hlook by congruence. discriminate.
  - vm_compute. discriminate.
Defined.

(** X9: a trade that [execute_trade] reports as executed carries the
    arguments of the call and a positive quantity.  A purchase takes
    quantity * price, which did not exceed the cash, out of the cash and
    adds the quantity to the balance of the token; a sale adds
    quantity * price to the cash and takes the quantity, which did not
    exceed the balance, out of the balance.  No other balance changes,
    and a trade that is declined leaves the portfolio as it was. *)
Theorem execute_trade_settlement
    (now : string) (portfolio : Backtester.Portfolio)
    (token action : string) (quantity current_price : Q) :
  let run :=
    Backtester.execute_trade now portfolio token action quantity
      current_price in
  (forall executed, run.2 = Ok (Some executed) ->
     executed =
       {| Backtester.timestamp := now; Backtester.token := token;
          Backtester.action := action; Backtester.quantity := quantity;
          Backtester.price := current_price |} /\
     0 < quantity /\
     (exists before,
        Backtester.tokens portfolio !! token = Some before /\
        ((action = "buy" /\
          quantity * current_price <= Backtester.cash portfolio /\
          Backtester.cash run.1
            = Backtester.cash portfolio - quantity * current_price /\
          Backtester.tokens run.1 !! token = Some (before + quantity)) \/
         (action = "sell" /\
          quantity <= before /\
          Backtester.cash run.1
            = Backtester.cash portfolio + quantity * current_price /\
          Backtester.tokens run.1 !! token = Some (before - quantity)))) /\
     (forall other, other <> token ->
        Backtester.tokens run.1 !! other
        = Backtester.tokens portfolio !! other)) /\
  (run.2 = Ok None -> run.1 = portfolio).
Proof.
  cbv zeta. unfold Backtester.execute_trade.
  destruct (Qle_bool quantity 0) eqn:Eq;
    [split; [intros e [=] | reflexivity]|].
  assert (Hq : 0 < quantity).
  { destruct (Qlt_le_dec 0 quantity) as [?|Hle]; [assumption|].
    apply Qle_bool_iff in Hle. congruence. }
  cbv zeta. destruct (String.eqb action "buy") eqn:Ebuy.
  - apply String.eqb_eq in Ebuy.
    destruct (Qle_bool (quantity * current_price) (Backtester.cash portfolio))
      eqn:Ecost;
      [|split; [intros e [=] | reflexivity]].
    apply Qle_bool_iff in Ecost.
    cbn [Backtester.set_cash Backtester.tokens].
    destruct (Backtester.tokens portfolio !! token) as [balance|] eqn:Eb;
      cbn [fst snd]; [|split; intros; discriminate].
    split; [|intros [=]]. intros e [= <-].
    split; [reflexivity|]. split; [exact Hq|]. split.
    + exists balance. split; [reflexivity|]. left.
      split; [exact Ebuy|]. split; [exact Ecost|].
      split; [reflexivity|].
      cbn. apply lookup_insert_eq.
    + intros other Hne. cbn. apply lookup_insert_ne. congruence.
  - destruct (String.eqb action "sell") eqn:Esell;
      [|split; [intros e [=] | reflexivity]].
    apply String.eqb_eq in Esell.
    destruct (Backtester.tokens portfolio !! token) as [balance|] eqn:Eb;
      cbn [fst snd]; [|split; intros; discriminate].
    destruct (Qle_bool quantity balance) eqn:Ebal;
      cbn [fst snd]; [|split; [intros e [=] | reflexivity]].
    apply Qle_bool_iff in Ebal.
    split; [|intros [=]]. intros e [= <-].
    split; [reflexivity|]. split; [exact Hq|]. split.
    + exists balance. split; [reflexivity|]. right.
      split; [exact Esell|]. split; [exact Ebal|].
      split; [reflexivity|].
      cbn. apply lookup_insert_eq.
    + intros other Hne. cbn. apply lookup_insert_ne. congruence.
Qed.



(** ** Proposed trades *)

Section ProposalFacts.

Context `{Runtime} {response : Type}.

Lemma foldl_raise {A B : Type} (step : result A -> B -> result A)
    (e : exn) (l : list B) :
  (forall b, step (Raise e) b = Raise e) ->
  foldl step (Raise e) l = Raise e.
Proof.
  intros Hstep. induction l as [|b l IH]; [reflexivity|].
  cbn [foldl]. rewrite Hstep. exact IH.
Qed.

(** One turn of the loop leaves the list as it was or appends one
    proposal for the entry at hand. *)
Lemma propose_from_change_cases
    (portfolio : HedgeFundAgent.Portfolio) (token : string)
    (data : gmap string pyval)
    (trades trades' : list (TradeGeneration.Proposal response)) :
  TradeGeneration.propose_from_change response portfolio token data trades
    = Ok trades' ->
  trades' = trades \/
  exists t,
    trades' = trades ++ [t] /\ TradeGeneration.token t = token /\
    TradeGeneration.amount t = HedgeFundAgent.total_value portfolio * 0.01 /\
    TradeGeneration.confidence t = 0.6 /\
    exists price change,
      TradeGeneration.truthy (dict_get data "error" PyNone) = false /\
      data !! "price" = Some (PyNum price) /\ 0 < price /\
      dict_get data "price_change_24h" (PyNum 0) = PyNum change /\
      ((TradeGeneration.action t = "sell" /\ 5 < change) \/
       (TradeGeneration.action t = "buy" /\ change < -5)).
Proof.
  unfold TradeGeneration.propose_from_change.
  destruct (TradeGeneration.truthy (dict_get data "error" PyNone)) eqn:Eerr.
  { intros [= <-]. left. reflexivity. }
  unfold getitem.
  destruct (data !! "price") as [[price| |]|] eqn:Eprice;
    cbn [mbind result_bind operand mret result_ret]; try discriminate.
  destruct (Qltb 0 price) eqn:Epos; [|intros [= <-]; left; reflexivity].
  apply Qltb_lt in Epos.
  destruct (dict_get data "price_change_24h" (PyNum 0)) as [change| |]
    eqn:Echange;
    cbn [mbind result_bind operand mret result_ret]; try discriminate.
  destruct (Qltb 5 change) eqn:Eup.
  - apply Qltb_lt in Eup. intros [= <-]. right.
    eexists. split; [reflexivity|].
    split; [reflexivity|]. split; [reflexivity|]. split; [reflexivity|].
    exists price, change.
    split; [reflexivity|]. split; [reflexivity|]. split; [exact Epos|].
    split; [reflexivity|]. left. split; [reflexivity | exact Eup].
  - destruct (Qltb change (-5)) eqn:Edown; [|intros [= <-]; left; reflexivity].
    apply Qltb_lt in Edown. intros [= <-]. right.
    eexists. split; [reflexivity|].
    split; [reflexivity|]. split; [reflexivity|]. split; [reflexivity|].
    exists price, change.
    split; [reflexivity|]. split; [reflexivity|]. split; [exact Epos|].
    split; [reflexivity|]. right. split; [reflexivity | exact Edown].
Qed.

(** The loop of [generate_trades_from_analysis] from any point on. *)
Lemma generate_trades_from_analysis_fold
    (portfolio : HedgeFundAgent.Portfolio)
    (all items : list (string * gmap string pyval))
    (acc trades : list (TradeGeneration.Proposal response)) :
  (forall x, x ∈ items -> x ∈ all) ->
  foldl (fun acc '(token, data) =>
           trades ← acc;
           TradeGeneration.propose_from_change response portfolio token data
             trades)
        (Ok acc) items = Ok trades ->
  exists new,
    trades = acc ++ new /\
    Forall (contrarian portfolio all) new /\
    (TradeGeneration.token <$> new) `sublist_of` (fst <$> items).
Proof.
  revert acc. induction items as [|[token data] rest IH]; intros acc Hall.
  - intros [= <-]. exists []. rewrite app_nil_r.
    split; [reflexivity|]. split; [constructor | constructor].
  - cbn [foldl mbind result_bind].
    destruct (TradeGeneration.propose_from_change response portfolio token
                data acc) as [acc'|e] eqn:Estep.
    + intros Hrest.
      destruct (IH acc') as (new & -> & Hnew & Hsub);
        [intros x Hx; apply Hall; right; exact Hx | exact Hrest |].
      destruct (propose_from_change_cases _ _ _ _ _ Estep)
        as [->|(t & -> & Htok & Hamt & Hconf & price & change & Hfacts)].
      * exists new. split; [reflexivity|]. split; [exact Hnew|].
        rewrite fmap_cons. apply sublist_cons_r. left. exact Hsub.
      * exists (t :: new). split; [rewrite <- app_assoc; reflexivity|].
        split.
        -- constructor; [|exact Hnew].
           split; [exact Hamt|]. split; [exact Hconf|].
           exists data, price, change.
           split; [rewrite Htok; apply Hall; left|].
           exact Hfacts.
        -- rewrite !fmap_cons. cbn [fst]. rewrite Htok.
           apply sublist_skip. exact Hsub.
    + rewrite foldl_raise; [discriminate|].
      intros [token' data']. reflexivity.
Qed.

(** An entry without the change of the day proposes nothing. *)
Lemma propose_from_change_no_change
    (portfolio : HedgeFundAgent.Portfolio) (token : string)
    (data : gmap string pyval)
    (trades : list (TradeGeneration.Proposal response)) :
  data !! "price_change_24h" = None ->
  TradeGeneration.propose_from_change response portfolio token data trades
    = Ok trades \/
  exists e,
    TradeGeneration.propose_from_change response portfolio token data trades
      = Raise e.
Proof.
  intros Hnone. unfold TradeGeneration.propose_from_change.
  destruct (TradeGeneration.truthy (dict_get data "error" PyNone));
    [left; reflexivity|].
  unfold getitem.
  destruct (data !! "price") as [[price| |]|];
    cbn [mbind result_bind operand mret result_ret];
    try (right; eexists; reflexivity).
  destruct (Qltb 0 price); [|left; reflexivity].
  unfold dict_get. rewrite Hnone.
  cbn [default mbind result_bind operand mret result_ret].
  assert (E5 : Qltb 5 0 = false) by reflexivity.
  assert (Em : Qltb 0 (-5) = false) by reflexivity.
  rewrite E5, Em. left. reflexivity.
Qed.

Lemma generate_trades_from_analysis_no_change
    (portfolio : HedgeFundAgent.Portfolio)
    (items : list (string * gmap string pyval)) :
  Forall (fun item => item.2 !! "price_change_24h" = None) items ->
  try_except
    (foldl (fun acc '(token, data) =>
              trades ← acc;
              TradeGeneration.propose_from_change response portfolio token
                data trades)
           (Ok []) items)
    (fun _ => []) = [].
Proof.
  induction 1 as [|[token data] rest Hnone _ IH]; [reflexivity|].
  cbn [foldl mbind result_bind].
  destruct (propose_from_change_no_change portfolio token data [] Hnone)
    as [->|[e ->]]; [exact IH|].
  rewrite foldl_raise; [reflexivity|].
  intros [token' data']. reflexivity.
Qed.

Lemma alist_set_Forall {A : Type} (P : string * A -> Prop)
    (key : string) (value : A) (l : list (string * A)) :
  (forall k, P (k, value)) -> Forall P l -> Forall P (alist_set key value l).
Proof.
  intros Hv. induction 1 as [|[k v] rest Hk Hrest IH]; cbn [alist_set].
  - constructor; [apply Hv | constructor].
  - destruct (String.eqb k key).
    + constructor; [apply Hv | exact Hrest].
    + constructor; [exact Hk | exact IH].
Qed.

Lemma metrics_entry_no_change (metrics : gmap string pyval) :
  TradeGeneration.metrics_entry metrics !! "price_change_24h" = None.
Proof.
  unfold TradeGeneration.metrics_entry.
  repeat (rewrite lookup_insert_ne by discriminate).
  apply lookup_singleton_ne. discriminate.
Qed.

Lemma DEFAULT_MARKET_DATA_no_change :
  TradeGeneration.DEFAULT_MARKET_DATA !! "price_change_24h" = None.
Proof.
  unfold TradeGeneration.DEFAULT_MARKET_DATA.
  repeat (rewrite lookup_insert_ne by discriminate).
  apply lookup_singleton_ne. discriminate.
Qed.

Lemma collect_market_data_no_change
    (get_token_metrics : nat -> string -> result (gmap string pyval))
    (tokens : list string) :
  Forall (fun item => item.2 !! "price_change_24h" = None)
    (TradeGeneration.collect_market_data get_token_metrics tokens).
Proof.
  unfold TradeGeneration.collect_market_data.
  generalize (imap pair tokens). intros calls.
  assert (Hnil : Forall
            (fun item : string * gmap string pyval =>
               item.2 !! "price_change_24h" = None) [])
    by constructor.
  revert Hnil. generalize (@nil (string * gmap string pyval)).
  induction calls as [|[i token] rest IH]; intros acc Hacc; [exact Hacc|].
  cbn [foldl]. apply IH. apply alist_set_Forall; [|exact Hacc].
  intros k. cbn [snd].
  destruct (get_token_metrics i token) as [metrics|e];
    cbn [try_except mbind result_bind mret result_ret].
  - apply metrics_entry_no_change.
  - apply DEFAULT_MARKET_DATA_no_change.
Qed.

(** Whatever the model answers, the dictionary [think] returns has no
    entry for an action. *)
Lemma think_no_action {context : Type}
    (chat_completion : context -> result response)
    (content : response -> result pyval) (str : exn -> string)
    (now : string) (ctx : context) :
  BaseAgent.think chat_completion content str now ctx !! "action" = None.
Proof.
  unfold BaseAgent.think.
  destruct (chat_completion ctx) as [r|e];
    cbn [try_except mbind result_bind mret result_ret].
  - destruct (content r) as [thought|[]];
      cbn [try_except mbind result_bind mret result_ret];
      repeat (rewrite lookup_insert_ne by discriminate);
      apply lookup_singleton_ne; discriminate.
  - rewrite lookup_insert_ne by discriminate.
    apply lookup_singleton_ne. discriminate.
Qed.

End ProposalFacts.

(** X11: every trade [generate_trades_from_analysis] returns is for 1%
    of the total value at confidence 0.6 and goes against the move of
    the day: a sale of a token whose 24-hour change is above 5, a
    purchase of one whose change is below -5, never for an entry with a
    truthy error or a price that is not positive; the trades come in the
    order of the market data, at most one for an entry. *)
Theorem generate_trades_from_analysis_contrarian `{Runtime} {response : Type}
    (portfolio : HedgeFundAgent.Portfolio)
    (analysed : TradeGeneration.Analysis response)
    (trades : list (TradeGeneration.Proposal response)) :
  TradeGeneration.generate_trades_from_analysis portfolio analysed
    = Ok trades ->
  Forall (contrarian portfolio (TradeGeneration.market_data analysed)) trades /\
  (TradeGeneration.token <$> trades)
    `sublist_of` (fst <$> TradeGeneration.market_data analysed).
Proof.
  intros Hrun.
  destruct (generate_trades_from_analysis_fold portfolio
              (TradeGeneration.market_data analysed)
              (TradeGeneration.market_data analysed) [] trades)
    as (new & -> & Hnew & Hsub); [intros x Hx; exact Hx | exact Hrun |].
  split; [exact Hnew | exact Hsub].
Qed.

(** With SOL up 6% and JUP down 7%, the agent sells SOL and buys JUP. *)
Lemma generate_trades_from_analysis_contrarian_witness :
  Forall (contrarian (response := unit) thousand_in_cash
            (TradeGeneration.market_data moving_market))
    [{| TradeGeneration.token := "SOL"; TradeGeneration.action := "sell";
        TradeGeneration.amount := 1000 * 0.01;
        TradeGeneration.confidence := 0.6;
        TradeGeneration.reasoning :=
          BaseAgent.Scalar (PyStr "Price up % in 24h") |};
     {| TradeGeneration.token := "JUP"; TradeGeneration.action := "buy";
        TradeGeneration.amount := 1000 * 0.01;
        TradeGeneration.confidence := 0.6;
        TradeGeneration.reasoning :=
          BaseAgent.Scalar (PyStr "Price down % in 24h") |}].
Proof.
  refine (proj1 (generate_trades_from_analysis_contrarian
                   (H := text_free_runtime) thousand_in_cash moving_market
                   _ _)).
  reflexivity.
Defined.

(** X12: the analysis [analyze_market] returns never carries a trade,
    whatever the metrics service and the model answer: no entry of the
    market data it builds has the key [price_change_24h], so the change
    reads as 0 for every token. *)
Theorem analyze_market_never_trades `{Runtime} {response : Type}
    (get_token_metrics : nat -> string -> result (gmap string pyval))
    (chat_completion :
       nat -> TradeGeneration.Context response -> result response)
    (content : response -> result pyval) (str : exn -> string)
    (now : nat -> string)
    (portfolio : HedgeFundAgent.Portfolio) (tokens : list string) :
  TradeGeneration.trades
    (TradeGeneration.analyze_market get_token_metrics chat_completion content
       str now portfolio tokens) = [].
Proof.
  unfold TradeGeneration.analyze_market,
    TradeGeneration.generate_trades_from_analysis.
  cbn [TradeGeneration.trades TradeGeneration.market_data].
  apply generate_trades_from_analysis_no_change.
  apply collect_market_data_no_change.
Qed.

(** X13: [generate_trades] returns the empty list for every portfolio,
    list of trading pairs and analysis, whatever the model answers: the
    dictionary [think] returns never has the key [action] that a trade
    needs. *)
Theorem generate_trades_always_empty {response : Type}
    (chat_completion :
       nat -> TradeGeneration.Context response -> result response)
    (content : response -> result pyval) (str : exn -> string)
    (now : nat -> string)
    (portfolio : HedgeFundAgent.Portfolio) (trading_pairs : list string)
    (analysed : TradeGeneration.Analysis response) :
  TradeGeneration.generate_trades chat_completion content str now portfolio
    trading_pairs analysed = Ok [].
Proof.
  unfold TradeGeneration.generate_trades.
  generalize (imap pair trading_pairs). intros calls.
  induction calls as [|[k token] rest IH]; [reflexivity|].
  cbn [foldl mbind result_bind].
  unfold TradeGeneration.decide_trade at 2.
  destruct (default ∅ (alist_get token (TradeGeneration.market_data analysed))
              !! "error"); [exact IH|].
  rewrite think_no_action. exact IH.
Qed.

(** ** The agent's own memory *)

Section MemoryStateFacts.

Context {A : Type}.

(** With room for at least one entry, [add] is the append of a bounded
    buffer. *)
Lemma add_as_deque_append (entry : A) (st : BaseAgent.MemoryState A) :
  (1 <= BaseAgent.size st)%Z ->
  (Z.of_nat (length (BaseAgent.memory st)) <= BaseAgent.size st)%Z ->
  BaseAgent.add entry st =
  ({| BaseAgent.size := BaseAgent.size st;
      BaseAgent.memory :=
        deque_append (Z.to_nat (BaseAgent.size st)) entry
          (BaseAgent.memory st) |}, Ok tt).
Proof.
  intros Hs Hlen. unfold BaseAgent.add. rewrite deque_append_as_drop.
  destruct (Z.leb_spec (BaseAgent.size st)
              (Z.of_nat (length (BaseAgent.memory st)))) as [Hfull|Hroom].
  - destruct (BaseAgent.memory st) as [|y rest]; [cbn in Hfull; lia|].
    replace (length (y :: rest) + 1 - Z.to_nat (BaseAgent.size st))%nat
      with 1%nat by (cbn [length] in *; lia).
    reflexivity.
  - replace (length (BaseAgent.memory st) + 1
             - Z.to_nat (BaseAgent.size st))%nat
      with 0%nat by lia.
    reflexivity.
Qed.

Lemma add_each_as_deque_extend
    (entries : list A) (st : BaseAgent.MemoryState A) :
  (1 <= BaseAgent.size st)%Z ->
  (Z.of_nat (length (BaseAgent.memory st)) <= BaseAgent.size st)%Z ->
  add_each entries st =
  ({| BaseAgent.size := BaseAgent.size st;
      BaseAgent.memory :=
        deque_extend (Z.to_nat (BaseAgent.size st)) entries
          (BaseAgent.memory st) |}, Ok tt).
Proof.
  revert st. induction entries as [|entry entries IH]; intros st Hs Hlen.
  - destruct st. reflexivity.
  - unfold add_each. cbn [foldl snd fst].
    rewrite add_as_deque_append by assumption.
    fold (add_each entries
            {| BaseAgent.size := BaseAgent.size st;
               BaseAgent.memory :=
                 deque_append (Z.to_nat (BaseAgent.size st)) entry
                   (BaseAgent.memory st) |}).
    rewrite IH; cbn [BaseAgent.size BaseAgent.memory].
    + reflexivity.
    + exact Hs.
    + pose proof (deque_append_le (Z.to_nat (BaseAgent.size st)) entry
                    (BaseAgent.memory st)).
      lia.
Qed.

Lemma add_each_raise (entries : list A) (st : BaseAgent.MemoryState A)
    (e : exn) :
  foldl (fun run entry =>
           match run.2 with
           | Ok _ => BaseAgent.add entry run.1
           | Raise e => run
           end)
        (st, Raise e) entries = (st, Raise e).
Proof.
  induction entries as [|entry entries IH]; [reflexivity|].
  cbn [foldl snd]. exact IH.
Qed.

End MemoryStateFacts.

(** X14: a [MemoryState] with room for at least one entry takes every
    entry without raising and holds the newest [size] of the entries
    added, oldest first; one whose size is zero or negative raises
    [IndexError] on the first [add] and stays empty. *)
Theorem add_keeps_newest_entries {A : Type} (size : Z) (entries : list A) :
  let run := add_each entries (BaseAgent.new_memory size) in
  ((1 <= size)%Z ->
   run.2 = Ok tt /\
   BaseAgent.memory run.1
     = drop (length entries - Z.to_nat size) entries /\
   (Z.of_nat (length (BaseAgent.memory run.1)) <= size)%Z) /\
  ((size <= 0)%Z -> entries <> [] ->
   run.2 = Raise IndexError /\ BaseAgent.memory run.1 = []).
Proof.
  cbv zeta. split.
  - intros Hs.
    rewrite add_each_as_deque_extend
      by (cbn [BaseAgent.new_memory BaseAgent.size BaseAgent.memory length];
          lia).
    cbn [fst snd BaseAgent.new_memory BaseAgent.size BaseAgent.memory].
    split; [reflexivity|].
    pose proof (deque_extend_le (Z.to_nat size) entries []) as Hle.
    rewrite deque_extend_as_drop in * by (cbn [length]; lia).
    cbn [length app] in *.
    split; [reflexivity|].
    specialize (Hle ltac:(lia)). lia.
  - intros Hs Hne. destruct entries as [|entry entries]; [congruence|].
    unfold add_each. cbn [foldl snd fst].
    assert (Hadd : BaseAgent.add entry (BaseAgent.new_memory size)
                   = (BaseAgent.new_memory size, Raise IndexError)).
    { unfold BaseAgent.add, BaseAgent.new_memory.
      cbn [BaseAgent.size BaseAgent.memory length].
      destruct (Z.leb_spec size (Z.of_nat 0)); [reflexivity | lia]. }
    rewrite Hadd, add_each_raise. split; reflexivity.
Qed.

(** X15: after any run of [add] calls on a fresh [MemoryState] of size
    at least 1, [get_recent(n)] with n at least 1 answers the newest
    min(n, size) of the entries added, oldest first; [get_recent(0)]
    answers the whole memory. *)
Theorem get_recent_after_add {A : Type} (size n : Z) (entries : list A) :
  (1 <= size)%Z ->
  let st := (add_each entries (BaseAgent.new_memory size)).1 in
  ((1 <= n)%Z ->
   BaseAgent.get_recent n st
     = drop (length entries - Z.to_nat (Z.min n size)) entries) /\
  BaseAgent.get_recent 0 st = BaseAgent.memory st.
Proof.
  intros Hs. cbv zeta.
  rewrite add_each_as_deque_extend
    by (cbn [BaseAgent.new_memory BaseAgent.size BaseAgent.memory length];
        lia).
  cbn [fst BaseAgent.new_memory BaseAgent.size BaseAgent.memory].
  rewrite deque_extend_as_drop by (cbn [length]; lia).
  cbn [length app]. unfold BaseAgent.get_recent, MemoryQueries.slice_from.
  cbn [BaseAgent.memory]. rewrite length_drop.
  split.
  - intros Hn.
    destruct (Z.ltb_spec (- n) 0) as [_|Hle]; [|lia].
    rewrite drop_drop. f_equal. lia.
  - destruct (Z.ltb_spec (- 0) 0) as [Hlt|_]; [lia|].
    replace (Z.to_nat (Z.min (- 0) _)) with 0%nat by lia.
    reflexivity.
Qed.

(** Five entries into a memory of three, then the two most recent. *)
Lemma get_recent_after_add_witness :
  BaseAgent.get_recent 2
    (add_each [1%nat; 2%nat; 3%nat; 4%nat; 5%nat]
       (BaseAgent.new_memory 3)).1 = [4%nat; 5%nat].
Proof.
  refine (proj1 (get_recent_after_add 3 2
                   [1%nat; 2%nat; 3%nat; 4%nat; 5%nat] _) _); lia.
Defined.

(** ** The scanner's RSI *)

Section SimpleRsiFacts.

Lemma foldl_Qplus_zero (l : list Q) (a : Q) :
  Forall (fun q => q == 0) l -> foldl Qplus a l == a.
Proof.
  revert a. induction l as [|q l IH]; intros a Hall; cbn; [reflexivity|].
  apply Forall_cons in Hall as [Hq Hall].
  rewrite (IH (a + q) Hall). lra.
Qed.

(** On a series of at least [period] prices the scanner answers 100 when
    the mean loss of the last window is zero, and the RSI of the two
    means otherwise. *)
Lemma _calculate_simple_rsi_means (prices : list Q) (period : Z) :
  (1 <= period)%Z -> (Z.to_nat period <= length prices)%nat ->
  exists d rest,
    last_changes prices period = d :: rest /\
    BasicMarketScanner._calculate_simple_rsi prices period =
    (if Qeq_bool
          (sum (loss_of <$> d :: rest) / len (loss_of <$> d :: rest)) 0
     then Finite 100.0
     else rsi_of
            (Finite (sum (gain_of <$> d :: rest)
                     / len (gain_of <$> d :: rest)))
            (Finite (sum (loss_of <$> d :: rest)
                     / len (loss_of <$> d :: rest)))).
Proof.
  intros Hp Hlen.
  pose proof (last_changes_length prices period Hlen) as Hw.
  destruct (last_changes prices period) as [|d rest] eqn:Hchanges;
    [cbn in Hw; lia|].
  exists d, rest. split; [reflexivity|].
  pose proof (diff_not_infinite prices) as Hfin.
  pose proof (diff_length prices) as Hdl.
  assert (Hgain :
    last (rolling_mean (Z.to_nat period)
            (where_ gt0 (Finite 0) (diff prices)))
    = Some (Finite (sum (gain_of <$> d :: rest)
                    / len (gain_of <$> d :: rest)))).
  { rewrite (where_gt0_gain _ Hfin).
    rewrite rolling_mean_last by (rewrite !length_fmap; lia).
    rewrite !length_fmap, Hdl, <- !fmap_drop.
    fold (last_changes prices period). rewrite Hchanges.
    f_equal. rewrite (fmap_cons gain_of).
    apply (window_mean_finite (gain_of d) (gain_of <$> rest)). }
  assert (Hloss :
    last (rolling_mean (Z.to_nat period)
            (fneg <$> where_ lt0 (Finite 0) (diff prices)))
    = Some (Finite (sum (loss_of <$> d :: rest)
                    / len (loss_of <$> d :: rest)))).
  { rewrite (where_lt0_loss _ Hfin).
    rewrite rolling_mean_last by (rewrite !length_fmap; lia).
    rewrite !length_fmap, Hdl, <- !fmap_drop.
    fold (last_changes prices period). rewrite Hchanges.
    f_equal. rewrite (fmap_cons loss_of).
    apply (window_mean_finite (loss_of d) (loss_of <$> rest)). }
  unfold BasicMarketScanner._calculate_simple_rsi.
  destruct (Z.ltb_spec period 0) as [Hneg|_]; [lia|].
  cbn [mbind result_bind]. unfold iloc_last. rewrite Hloss.
  cbn [mbind result_bind BasicMarketScanner.eq0].
  set (gain := sum (gain_of <$> d :: rest) / len (gain_of <$> d :: rest))
    in *.
  set (loss := sum (loss_of <$> d :: rest) / len (loss_of <$> d :: rest))
    in *.
  destruct (Qeq_bool loss 0); [reflexivity|].
  rewrite fmap_last.
  rewrite (zip_with_last fdiv _ _ (Finite gain) (Finite loss));
    [reflexivity | | exact Hgain | exact Hloss].
  rewrite !rolling_mean_length. unfold where_. rewrite !length_fmap.
  reflexivity.
Qed.

End SimpleRsiFacts.

(** X16: [_calculate_simple_rsi] answers a value in [0, 100] on every
    series of at least [period] prices (period >= 1), and exactly 100
    when no price of the last window fell, a flat window included; on
    the empty series it answers 50.0, and on a series that is not empty
    but shorter than the window it answers NaN, not 50.0. *)
Theorem _calculate_simple_rsi_range (prices : list Q) (period : Z) :
  BasicMarketScanner._calculate_simple_rsi [] period = Finite 50.0 /\
  ((0 < length prices < Z.to_nat period)%nat ->
   BasicMarketScanner._calculate_simple_rsi prices period = NaN) /\
  ((1 <= period)%Z -> (Z.to_nat period <= length prices)%nat ->
   within 0 100 (BasicMarketScanner._calculate_simple_rsi prices period) /\
   (Forall (fun d => loss_of d == 0) (last_changes prices period) ->
    BasicMarketScanner._calculate_simple_rsi prices period = Finite 100.0)).
Proof.
  split; [|split].
  - unfold BasicMarketScanner._calculate_simple_rsi.
    destruct (period <? 0)%Z; reflexivity.
  - intros Hlen. pose proof (diff_length prices) as Hdl.
    unfold BasicMarketScanner._calculate_simple_rsi.
    destruct (Z.ltb_spec period 0) as [Hneg|_]; [lia|].
    cbn [mbind result_bind]. unfold iloc_last.
    rewrite rolling_mean_last_short
      by (unfold where_; rewrite !length_fmap; lia).
    cbn [mbind result_bind BasicMarketScanner.eq0].
    rewrite fmap_last.
    rewrite (zip_with_last fdiv _ _ NaN NaN);
      [reflexivity
      |rewrite !rolling_mean_length; unfold where_;
       rewrite !length_fmap; reflexivity
      |apply rolling_mean_last_short; unfold where_;
       rewrite !length_fmap; lia
      |apply rolling_mean_last_short; unfold where_;
       rewrite !length_fmap; lia].
  - intros Hp Hlen.
    destruct (_calculate_simple_rsi_means prices period Hp Hlen)
      as (d & rest & Hchanges & ->).
    rewrite Hchanges.
    assert (Hg : Forall (fun q => 0 <= q) (gain_of <$> d :: rest)).
    { apply Forall_fmap, Forall_forall. intros x _. apply gain_of_nonneg. }
    assert (Hl : Forall (fun q => 0 <= q) (loss_of <$> d :: rest)).
    { apply Forall_fmap, Forall_forall. intros x _. apply loss_of_nonneg. }
    rewrite (fmap_cons gain_of), (fmap_cons loss_of).
    destruct (mean_nonneg (gain_of d) (gain_of <$> rest)) as [Hg0 _];
      [rewrite <- fmap_cons; exact Hg|].
    destruct (mean_nonneg (loss_of d) (loss_of <$> rest)) as [Hl0 _];
      [rewrite <- fmap_cons; exact Hl|].
    split.
    + destruct (Qeq_bool _ 0) eqn:Ez; [cbn; lra|].
      apply Qeq_bool_neq in Ez.
      apply rsi_of_within; [exact Hg0 | exact Hl0 |].
      right. lra.
    + intros Hflat.
      assert (Hsum : sum (loss_of d :: (loss_of <$> rest)) == 0).
      { unfold sum. apply foldl_Qplus_zero.
        rewrite <- fmap_cons. apply Forall_fmap. exact Hflat. }
      assert (Hz : sum (loss_of d :: (loss_of <$> rest))
                   / len (loss_of d :: (loss_of <$> rest)) == 0).
      { rewrite Hsum. unfold Qdiv. ring. }
      apply Qeq_bool_iff in Hz. rewrite Hz. reflexivity.
Qed.

(** ** Drawdown *)

Section DrawdownFacts.

Lemma expanding_max_from_length (best : Q) (s : list Q) :
  length (MarketSeries.expanding_max_from best s) = length s.
Proof.
  revert best. induction s as [|x rest IH]; intros best; [reflexivity|].
  cbn [MarketSeries.expanding_max_from length]. rewrite IH. reflexivity.
Qed.

(** The running maximum at a place is one of the elements up to there,
    or the starting value, and none of them exceeds it. *)
Lemma expanding_max_from_lookup (s : list Q) (best : Q) (j : nat) (m : Q) :
  MarketSeries.expanding_max_from best s !! j = Some m ->
  best <= m /\
  (forall i p, (i <= j)%nat -> s !! i = Some p -> p <= m) /\
  (m = best \/ exists i, (i <= j)%nat /\ s !! i = Some m).
Proof.
  revert best j. induction s as [|x rest IH]; intros best j.
  { cbn [MarketSeries.expanding_max_from]. rewrite lookup_nil. discriminate. }
  cbn [MarketSeries.expanding_max_from].
  destruct j as [|j]; cbn [lookup list_lookup].
  - intros [= <-].
    destruct (max_cases best x) as [[Hlt E]|[Hle E]]; rewrite E.
    + split; [lra|]. split.
      * intros i p Hi. assert (i = 0%nat) as -> by lia.
        cbn [lookup list_lookup]. intros [= <-]. lra.
      * right. exists 0%nat. split; [lia | reflexivity].
    + split; [lra|]. split.
      * intros i p Hi. assert (i = 0%nat) as -> by lia.
        cbn [lookup list_lookup]. intros [= <-]. exact Hle.
      * left. reflexivity.
  - intros Hm. destruct (IH _ _ Hm) as (Hb & Hall & Hatt).
    assert (Hbest : best <= max best x /\ x <= max best x).
    { destruct (max_cases best x) as [[Hlt E]|[Hle E]]; rewrite E; lra. }
    split; [lra|]. split.
    + intros [|i] p Hi; cbn [lookup list_lookup].
      * intros [= <-]. lra.
      * intros Hp. apply (Hall i p); [lia | exact Hp].
    + destruct Hatt as [->|(i & Hi & Hp)].
      * destruct (max_cases best x) as [[_ E]|[_ E]]; rewrite E.
        -- right. exists 0%nat. split; [lia | reflexivity].
        -- left. reflexivity.
      * right. exists (S i). split; [lia | exact Hp].
Qed.

Lemma expanding_max_lookup (s : list Q) (j : nat) (m : Q) :
  MarketSeries.expanding_max s !! j = Some m ->
  (forall i p, (i <= j)%nat -> s !! i = Some p -> p <= m) /\
  (exists i, (i <= j)%nat /\ s !! i = Some m).
Proof.
  destruct s as [|x rest]; cbn [MarketSeries.expanding_max].
  { rewrite lookup_nil. discriminate. }
  destruct j as [|j]; cbn [lookup list_lookup].
  - intros [= <-]. split.
    + intros i p Hi. assert (i = 0%nat) as -> by lia.
      cbn [lookup list_lookup]. intros [= <-]. lra.
    + exists 0%nat. split; [lia | reflexivity].
  - intros Hm.
    destruct (expanding_max_from_lookup _ _ _ _ Hm) as (Hb & Hall & Hatt).
    split.
    + intros [|i] p Hi; cbn [lookup list_lookup].
      * intros [= <-]. exact Hb.
      * intros Hp. apply (Hall i p); [lia | exact Hp].
    + destruct Hatt as [->|(i & Hi & Hp)].
      * exists 0%nat. split; [lia | reflexivity].
      * exists (S i). split; [lia | exact Hp].
Qed.

Lemma expanding_max_length (s : list Q) :
  length (MarketSeries.expanding_max s) = length s.
Proof.
  destruct s as [|x rest]; [reflexivity|].
  cbn [MarketSeries.expanding_max length].
  rewrite expanding_max_from_length. reflexivity.
Qed.

(** The smallest of a run of numbers, starting from one of them. *)
Lemma series_min_from (qs : list Q) (b : Q) :
  exists q,
    foldl (fun best x =>
             match x, best with
             | NaN, _ => best
             | _, NaN => x
             | _, _ => if MarketSeries.flt x best then x else best
             end)
          (Finite b) (Finite <$> qs) = Finite q /\
    (q = b \/ q ∈ qs) /\ q <= b /\ Forall (fun q' => q <= q') qs.
Proof.
  revert b. induction qs as [|a qs IH]; intros b.
  - exists b. split; [reflexivity|]. split; [left; reflexivity|].
    split; [lra | constructor].
  - rewrite fmap_cons. cbn [foldl MarketSeries.flt].
    destruct (Qltb a b) eqn:Elt.
    + apply Qltb_lt in Elt.
      destruct (IH a) as (q & Hq & Hin & Hle & Hall).
      exists q. split; [exact Hq|]. split.
      * right. destruct Hin as [->|Hin]; [left | right; exact Hin].
      * split; [lra|]. constructor; [exact Hle | exact Hall].
    + apply Qltb_ge in Elt.
      destruct (IH b) as (q & Hq & Hin & Hle & Hall).
      exists q. split; [exact Hq|]. split.
      * destruct Hin as [->|Hin]; [left; reflexivity | right; right; exact Hin].
      * split; [exact Hle|]. constructor; [lra | exact Hall].
Qed.

Lemma series_min_finite (a : Q) (qs : list Q) :
  exists q,
    MarketSeries.series_min (Finite <$> a :: qs) = Finite q /\
    q ∈ a :: qs /\ Forall (fun q' => q <= q') (a :: qs).
Proof.
  unfold MarketSeries.series_min. rewrite fmap_cons. cbn [foldl].
  destruct (series_min_from qs a) as (q & Hq & Hin & Hle & Hall).
  exists q. split; [exact Hq|]. split.
  - destruct Hin as [->|Hin]; [left | right; exact Hin].
  - constructor; [exact Hle | exact Hall].
Qed.

(** On positive prices every drawdown is a number. *)
Lemma drawdown_finite (prices : list Q) :
  Forall (fun p => 0 < p) prices ->
  zip_with (fun price peak => fdiv (Finite (price - peak)) (Finite peak))
    prices (MarketSeries.expanding_max prices)
  = Finite <$> zip_with (fun price peak => (price - peak) / peak)
                 prices (MarketSeries.expanding_max prices).
Proof.
  intros Hpos. apply list_eq. intros j.
  rewrite list_lookup_fmap, !lookup_zip_with.
  destruct (prices !! j) as [price|] eqn:Hprice; [|reflexivity].
  destruct (MarketSeries.expanding_max prices !! j) as [peak|] eqn:Hpeak;
    [|reflexivity].
  cbn [mbind option_bind fmap option_fmap option_map].
  destruct (expanding_max_lookup _ _ _ Hpeak) as (_ & i & _ & Hi).
  assert (Hp : 0 < peak).
  { rewrite Forall_lookup in Hpos. exact (Hpos i peak Hi). }
  cbn [fdiv].
  destruct (Qeq_bool peak 0) eqn:Ez; [|reflexivity].
  apply Qeq_bool_iff in Ez. lra.
Qed.

End DrawdownFacts.

(** X17: on positive prices [calculate_max_drawdown] answers the
    deepest decline of a price from the highest price up to it: the
    answer is (price - peak) / peak at some place, no place has a lower
    one, and it lies in [-1, 0].  It is 0 exactly when no price is below
    an earlier one.  On the empty series it answers NaN, not the 0.0 of
    the fallback. *)
Theorem calculate_max_drawdown_deepest_decline (prices : list Q) :
  MarketSeries.calculate_max_drawdown [] = NaN /\
  (prices <> [] -> Forall (fun p => 0 < p) prices ->
   exists q,
     MarketSeries.calculate_max_drawdown prices = Finite q /\
     -1 <= q /\ q <= 0 /\
     (forall j price peak,
        prices !! j = Some price -> highest_so_far prices j peak ->
        q <= (price - peak) / peak) /\
     (exists j price peak,
        prices !! j = Some price /\ highest_so_far prices j peak /\
        q == (price - peak) / peak) /\
     (q == 0 <->
      forall i j earlier later,
        (i <= j)%nat -> prices !! i = Some earlier ->
        prices !! j = Some later -> earlier <= later)).
Proof.
  split; [reflexivity|].
  intros Hne Hpos.
  unfold MarketSeries.calculate_max_drawdown.
  cbn [try_except mret result_ret].
  rewrite (drawdown_finite prices Hpos).
  pose proof (expanding_max_length prices) as Hlen.
  destruct (zip_with (fun price peak => (price - peak) / peak) prices
              (MarketSeries.expanding_max prices)) as [|a qs] eqn:Hzip.
  { apply (f_equal length) in Hzip. rewrite length_zip_with, Hlen in Hzip.
    destruct prices; [congruence | cbn in Hzip; lia]. }
  destruct (series_min_finite a qs) as (q & Hq & Hin & Hall).
  rewrite <- Hzip in Hin, Hall.
  exists q. split; [exact Hq|].
  rewrite Forall_lookup in Hpos. rewrite Forall_lookup in Hall.
  (* the running maximum is the highest price so far *)
  assert (Hpeaks : forall j peak,
            MarketSeries.expanding_max prices !! j = Some peak ->
            highest_so_far prices j peak).
  { intros j peak Hpeak.
    destruct (expanding_max_lookup _ _ _ Hpeak) as (Habove & i & Hi & Hat).
    split; [exists i; split; [exact Hi | exact Hat] | exact Habove]. }
  (* the decline at every place *)
  assert (Hplaces : forall j price peak,
            prices !! j = Some price -> highest_so_far prices j peak ->
            0 < price /\ price <= peak /\ q <= (price - peak) / peak).
  { intros j price peak Hprice [(i & Hi & Hat) Habove].
    assert (Hsome : is_Some (MarketSeries.expanding_max prices !! j)).
    { apply lookup_lt_is_Some. rewrite Hlen.
      apply lookup_lt_is_Some. eexists. exact Hprice. }
    destruct Hsome as [peak' Hpeak'].
    destruct (Hpeaks _ _ Hpeak') as [(i' & Hi' & Hat') Habove'].
    pose proof (Habove i' peak' Hi' Hat') as Hle1.
    pose proof (Habove' i peak Hi Hat) as Hle2.
    assert (Hsame : peak == peak') by lra.
    assert (Hthere :
      zip_with (fun price peak => (price - peak) / peak) prices
        (MarketSeries.expanding_max prices) !! j
      = Some ((price - peak') / peak')).
    { apply lookup_zip_with_Some. exists price, peak'.
      split; [reflexivity|]. split; [exact Hprice | exact Hpeak']. }
    pose proof (Hall _ _ Hthere) as Hmin. cbv beta in Hmin.
    split; [exact (Hpos _ _ Hprice)|].
    split; [apply (Habove j price); [lia | exact Hprice]|].
    rewrite Hsame. exact Hmin. }
  (* the place where the minimum is taken *)
  apply list_elem_of_lookup in Hin as [j Hj].
  apply lookup_zip_with_Some in Hj as (low & peak & -> & Hlow & Hpeak).
  pose proof (Hpeaks _ _ Hpeak) as Hhigh.
  destruct (Hplaces _ _ _ Hlow Hhigh) as (Hlow_pos & Hlow_le & _).
  assert (Hpeak_pos : 0 < peak) by lra.
  split; [apply Qle_shift_div_l; lra|].
  split; [apply Qle_shift_div_r; lra|].
  split; [intros j' price peak' Hprice Hhigh';
          apply (Hplaces j' price peak' Hprice Hhigh')|].
  split; [exists j, low, peak;
          split; [exact Hlow|]; split; [exact Hhigh | reflexivity]|].
  split.
  - intros Hzero i j' earlier later Hij Hi Hj'.
    assert (Hsome : is_Some (MarketSeries.expanding_max prices !! j')).
    { apply lookup_lt_is_Some. rewrite Hlen.
      apply lookup_lt_is_Some. eexists. exact Hj'. }
    destruct Hsome as [peak' Hpeak'].
    pose proof (Hpeaks _ _ Hpeak') as Hhigh'.
    destruct (Hplaces _ _ _ Hj' Hhigh') as (Hlater & Hle & Hmin).
    destruct Hhigh' as [_ Habove'].
    pose proof (Habove' i earlier Hij Hi) as Hearlier.
    assert (Hpeak_pos' : 0 < peak') by lra.
    assert (Hdecline : 0 <= (later - peak') / peak') by lra.
    assert (Hr : (later - peak') / peak' * peak' == later - peak')
      by (field; lra).
    revert Hdecline Hr. generalize ((later - peak') / peak').
    intros r Hdecline Hr. nra.
  - intros Hrising.
    destruct Hhigh as [(i & Hi & Hat) _].
    pose proof (Hrising i j peak low Hi Hat Hlow) as Hup.
    assert (Hsame : low - peak == 0) by lra.
    rewrite Hsame. field. lra.
Qed.

(** ** MACD *)

Section MacdFacts.

Lemma ewm_from_length (alpha previous : Q) (s : list Q) :
  length (MarketSeries.ewm_from alpha previous s) = length s.
Proof.
  revert previous. induction s as [|x rest IH]; intros previous;
    [reflexivity|].
  cbn [MarketSeries.ewm_from length]. rewrite IH. reflexivity.
Qed.

(** An average of zeros is zero. *)
Lemma ewm_from_zero (c previous : Q) (s : list Q) :
  previous == 0 -> Forall (fun d => d == 0) s ->
  Forall (fun d => d == 0) (MarketSeries.ewm_from c previous s).
Proof.
  revert previous.
  induction s as [|x rest IH]; intros previous Hp Hall; [constructor|].
  apply Forall_cons in Hall as [Hx Hall].
  cbn [MarketSeries.ewm_from].
  assert (Hy : (1 - c) * previous + c * x == 0) by (rewrite Hp, Hx; ring).
  constructor; [exact Hy|]. apply IH; [exact Hy | exact Hall].
Qed.

(** Two averages of one span leave no gap. *)
Lemma ewm_gap_same (a : Q) (rest : list Q) (previous : Q) :
  Forall (fun d => d == 0)
    (zip_with Qminus (MarketSeries.ewm_from a previous rest)
       (MarketSeries.ewm_from a previous rest)).
Proof.
  revert previous. induction rest as [|x rest IH]; intros previous;
    [constructor|].
  cbn [MarketSeries.ewm_from zip_with].
  constructor; [unfold Qminus; ring | apply IH].
Qed.

Lemma last_Forall {A : Type} (P : A -> Prop) (l : list A) (x : A) :
  Forall P l -> last l = Some x -> P x.
Proof.
  intros Hall Hlast. apply last_Some_elem_of in Hlast.
  rewrite Forall_forall in Hall. apply Hall. exact Hlast.
Qed.

(** With spans of at least 1 and a first price, [calculate_macd] reads
    the last elements of the MACD line and of its average. *)
Lemma calculate_macd_run
    (x : Q) (rest : list Q) (fast_period slow_period signal_period : Z) :
  (1 <= fast_period)%Z -> (1 <= slow_period)%Z -> (1 <= signal_period)%Z ->
  exists line m s,
    line =
      zip_with Qminus
        (MarketSeries.ewm_from (2 / (inject_Z fast_period + 1)) x rest)
        (MarketSeries.ewm_from (2 / (inject_Z slow_period + 1)) x rest) /\
    last ((x - x) :: line) = Some m /\
    last ((x - x) ::
          MarketSeries.ewm_from (2 / (inject_Z signal_period + 1)) (x - x)
            line) = Some s /\
    MarketSeries.calculate_macd (x :: rest) fast_period slow_period
      signal_period
    = {| MarketSeries.macd := m; MarketSeries.signal := s;
         MarketSeries.histogram := m - s |}.
Proof.
  intros Hf Hs Hc.
  set (line :=
         zip_with Qminus
           (MarketSeries.ewm_from (2 / (inject_Z fast_period + 1)) x rest)
           (MarketSeries.ewm_from (2 / (inject_Z slow_period + 1)) x rest)).
  set (smooth :=
         MarketSeries.ewm_from (2 / (inject_Z signal_period + 1)) (x - x)
           line).
  destruct (last ((x - x) :: line)) as [m|] eqn:Hm;
    [|apply last_None in Hm; discriminate].
  destruct (last ((x - x) :: smooth)) as [s|] eqn:Hsig;
    [|apply last_None in Hsig; discriminate].
  exists line, m, s.
  split; [reflexivity|]. split; [exact Hm|]. split; [exact Hsig|].
  unfold MarketSeries.calculate_macd, MarketSeries.ewm_mean.
  destruct (Z.ltb_spec fast_period 1) as [?|_]; [lia|].
  destruct (Z.ltb_spec slow_period 1) as [?|_]; [lia|].
  destruct (Z.ltb_spec signal_period 1) as [?|_]; [lia|].
  cbn [mbind result_bind zip_with]. fold line. fold smooth.
  unfold MarketSeries.iloc_last.
  rewrite Hm, Hsig. cbn [mbind result_bind].
  change (x - x - (x - x) :: zip_with Qminus line smooth)
    with (zip_with Qminus ((x - x) :: line) ((x - x) :: smooth)).
  rewrite (zip_with_last Qminus ((x - x) :: line) ((x - x) :: smooth) m s);
    [reflexivity | | exact Hm | exact Hsig].
  cbn [length]. unfold smooth. rewrite ewm_from_length. reflexivity.
Qed.

End MacdFacts.

(** X18: the histogram [calculate_macd] answers is its MACD line minus
    its signal, in every case.  An empty series or a span below 1 gives
    the three zeros of the fallback; with spans of at least 1, a single
    price, or a fast span equal to the slow one on any prices, gives a
    line, a signal and a histogram of zero. *)
Theorem calculate_macd_degenerate
    (prices : list Q) (fast_period slow_period signal_period : Z) :
  let answer :=
    MarketSeries.calculate_macd prices fast_period slow_period
      signal_period in
  MarketSeries.histogram answer
    == MarketSeries.macd answer - MarketSeries.signal answer /\
  (prices = [] \/
   (fast_period < 1)%Z \/ (slow_period < 1)%Z \/ (signal_period < 1)%Z ->
   answer = {| MarketSeries.macd := 0; MarketSeries.signal := 0;
               MarketSeries.histogram := 0 |}) /\
  ((1 <= fast_period)%Z -> (1 <= slow_period)%Z -> (1 <= signal_period)%Z ->
   (exists x, prices = [x]) \/ fast_period = slow_period ->
   MarketSeries.macd answer == 0 /\ MarketSeries.signal answer == 0 /\
   MarketSeries.histogram answer == 0).
Proof.
  cbv zeta.
  assert (Hzeros :
    prices = [] \/
    (fast_period < 1)%Z \/ (slow_period < 1)%Z \/ (signal_period < 1)%Z ->
    MarketSeries.calculate_macd prices fast_period slow_period signal_period
    = {| MarketSeries.macd := 0; MarketSeries.signal := 0;
         MarketSeries.histogram := 0 |}).
  { intros Hbad.
    unfold MarketSeries.calculate_macd, MarketSeries.ewm_mean.
    destruct (Z.ltb_spec fast_period 1) as [?|Hf]; [reflexivity|].
    destruct (Z.ltb_spec slow_period 1) as [?|Hs]; [reflexivity|].
    cbn [mbind result_bind].
    destruct (Z.ltb_spec signal_period 1) as [?|Hc]; [reflexivity|].
    destruct Hbad as [->|Hbad]; [reflexivity | lia]. }
  split; [|split; [exact Hzeros|]].
  - destruct prices as [|x rest].
    { rewrite Hzeros by (left; reflexivity). reflexivity. }
    destruct (Z.ltb_spec fast_period 1) as [?|Hf];
      [rewrite Hzeros by (right; left; assumption); reflexivity|].
    destruct (Z.ltb_spec slow_period 1) as [?|Hs];
      [rewrite Hzeros by (right; right; left; assumption); reflexivity|].
    destruct (Z.ltb_spec signal_period 1) as [?|Hc];
      [rewrite Hzeros by (right; right; right; assumption); reflexivity|].
    destruct (calculate_macd_run x rest _ _ _ Hf Hs Hc)
      as (line & m & s & _ & _ & _ & ->).
    reflexivity.
  - intros Hf Hs Hc Hcase.
    destruct prices as [|x rest].
    { destruct Hcase as [[x [=]]|_].
      rewrite Hzeros by (left; reflexivity).
      cbn [MarketSeries.macd MarketSeries.signal MarketSeries.histogram].
      split; [reflexivity|]. split; reflexivity. }
    destruct (calculate_macd_run x rest fast_period slow_period
                signal_period Hf Hs Hc)
      as (line & m & s & Hline & Hm & Hsig & ->).
    cbn [MarketSeries.macd MarketSeries.signal MarketSeries.histogram].
    assert (Hall : Forall (fun d => d == 0) line).
    { rewrite Hline. destruct Hcase as [[y Hy]|Heq].
      - injection Hy as _ ->. constructor.
      - rewrite Heq. apply ewm_gap_same. }
    assert (Hline0 : Forall (fun d => d == 0) ((x - x) :: line))
      by (constructor; [ring | exact Hall]).
    assert (Hsmooth :
      Forall (fun d => d == 0)
        ((x - x) ::
         MarketSeries.ewm_from (2 / (inject_Z signal_period + 1))
           (x - x) line)).
    { constructor; [ring|]. apply ewm_from_zero; [ring | exact Hall]. }
    pose proof (last_Forall (fun d => d == 0) _ _ Hline0 Hm) as Hm0.
    pose proof (last_Forall (fun d => d == 0) _ _ Hsmooth Hsig) as Hs0.
    cbv beta in Hm0, Hs0.
    split; [exact Hm0|]. split; [exact Hs0|]. rewrite Hm0, Hs0. ring.
Qed.
